(** * The traffic-anomaly detector of ddos-detection-dashboard

    A shallow embedding of [internal/detection] (the file that defines
    [Detector], [AnalyzeTraffic], the five [detect...] functions,
    [calculateEntropy], [getTopIPs], [getSeverity] and [UpdateBaseline]) and
    of the records of [internal/models/traffic.go] it uses; of the traffic
    generators and the attack cycle of [cmd/simulator]; and of [GetMetrics]
    of [internal/storage].

    Conventions of the embedding.

    - Go's [int] (64 bits) is [Z].  Arithmetic on values the caller chooses
      (a threshold times two, a sum of durations, a sum of the counts of a
      map) is wrapped with [wrap64].  A counter that is incremented once per
      element of a slice is bounded by the length of that slice, which is
      itself an [int], so [x++] on such a counter is [x + 1].
    - Go's [float64] is a type [F] with the operations the code uses (the
      class [Float64]); the functions of the package are written once, over
      any such [F].  It has two interpretations: [binary64], the IEEE 754
      double of Rocq's primitive floats, on which the code runs bit for bit,
      and [exact], the real numbers, which forgets rounding (and in which a
      division by zero is 0, not an infinity).  [math.Min] and [math.Log2]
      are from Go's library: on binary64 they are modelled by their
      documented behaviour and by the portable implementation.
    - Go's [map[string]T] is a [gmap string T]; [m[k]] on an absent key is
      the zero value.  The order in which [range] visits a map is not
      specified by the language: [range_map] takes it from the [World].
    - [uuid.New] and [time.Now] read the [World] as well.  A function of the
      source that reaches one of the three becomes a computation in the state
      monad [M].
    - The simulator also draws random numbers and may panic: its functions
      are computations in [G], over an environment that adds the stream of
      [math/rand] to the world, and that return nothing on a panic.
    - The Redis server is outside the program: [GetMetrics] is a function of
      what the server replies to its three commands.

    The file has four parts: the embedding; the vocabulary of the
    statements; the lemmas and theorems about the detector, one group per
    component, on the properties its specification words; and the lemmas and
    theorems about the rest of the detector's behaviour, the simulator and
    the metrics of a minute. *)

From Stdlib Require Import ZArith Lia Floats Reals Lra.
From Stdlib Require Uint63.
From stdpp Require Import base tactics list gmap strings pretty.

Set Warnings "-inexact-float,-clear-no-such-hyp".

Local Open Scope Z_scope.

(** ** Machine integers *)

Definition int_min : Z := - 2 ^ 63.
Definition int_max : Z := 2 ^ 63 - 1.

(** Two's complement wrap-around of a 64-bit signed result. *)
Definition wrap64 (z : Z) : Z := (z + 2 ^ 63) mod 2 ^ 64 - 2 ^ 63.

Definition in_int (z : Z) : Prop := int_min <= z <= int_max.

(** ** The float64 interface *)

Class Float64 (F : Type) : Type := {
  ofInt : Z -> F;            (* float64(i) *)
  toInt : F -> Z;            (* int(f) *)
  fadd : F -> F -> F;
  fsub : F -> F -> F;
  fmul : F -> F -> F;
  fdiv : F -> F -> F;
  flt : F -> F -> bool;      (* x < y *)
  fle : F -> F -> bool;      (* x <= y *)
  Min : F -> F -> F;         (* math.Min *)
  Log2 : F -> F              (* math.Log2 *)
}.

Declare Scope go_scope.
Delimit Scope go_scope with go.
Infix "+!" := fadd (at level 50, left associativity) : go_scope.
Infix "-!" := fsub (at level 50, left associativity) : go_scope.
Infix "*!" := fmul (at level 40, left associativity) : go_scope.
Infix "/!" := fdiv (at level 40, left associativity) : go_scope.
Infix "<!" := flt (at level 70, no associativity) : go_scope.
Infix "<=!" := fle (at level 70, no associativity) : go_scope.
Notation "x >! y" := (flt y x) (at level 70, no associativity) : go_scope.
Notation "x >=! y" := (fle y x) (at level 70, no associativity) : go_scope.
Local Open Scope go_scope.

(** A decimal constant of the source, [n / d] with both below 2^53.  Go
    converts an untyped constant to the nearest float64; the correctly
    rounded quotient of two exactly representable integers is that same
    value (see [lit_is_literal] for the constants of this file). *)
Definition lit {F} `{Float64 F} (n d : Z) : F := ofInt n /! ofInt d.

(** ** Interpretation 1: IEEE 754 binary64 *)

Module GoMath.

(** float64(i): the integer rounded to nearest, ties to even. *)
Definition of_int (z : Z) : float := SF2Prim (binary_normalize prec emax z 0 false).

(** The integer part of a finite value, rounded toward zero. *)
Definition trunc_SF (s : spec_float) : option Z :=
  match s with
  | S754_zero _ => Some 0
  | S754_finite sg m e =>
      let a := if 0 <=? e then Z.pos m * 2 ^ e else Z.pos m / 2 ^ (- e) in
      Some (if sg then - a else a)
  | _ => None
  end.

(** int(f).  The language leaves the result open when the value does not
    fit; this is what amd64 returns then (the integer indefinite value of
    CVTTSD2SQ). *)
Definition to_int (f : float) : Z :=
  match trunc_SF (Prim2SF f) with
  | Some z => if (int_min <=? z) && (z <=? int_max) then z else int_min
  | None => int_min
  end.

(** math.Min, by its documented special cases:
    Min(x, -Inf) = Min(-Inf, x) = -Inf, Min(x, NaN) = Min(NaN, x) = NaN,
    Min(-0, +-0) = Min(+-0, -0) = -0. *)
Definition Min (x y : float) : float :=
  if (x =? neg_infinity)%float || (y =? neg_infinity)%float then neg_infinity
  else if is_nan x || is_nan y then nan
  else if (x =? 0)%float && (x =? y)%float then (if get_sign x then x else y)
  else if (x <? y)%float then x else y.

(** math.Frexp: f = frac * 2^exp with 0.5 <= |frac| < 1. *)
Definition Frexp (f : float) : float * Z :=
  if is_zero f || is_infinity f || is_nan f then (f, 0) else Z.frexp f.

Definition Ln2Hi : float := 6.93147180369123816490e-01.
Definition Ln2Lo : float := 1.90821492927058770002e-10.
Definition L1 : float := 6.666666666666735130e-01.
Definition L2 : float := 3.999999999940941908e-01.
Definition L3 : float := 2.857142874366239149e-01.
Definition L4 : float := 2.222219843214978396e-01.
Definition L5 : float := 1.818357216161805012e-01.
Definition L6 : float := 1.531383769920937332e-01.
Definition L7 : float := 1.479819860511658591e-01.
Definition Sqrt2_2 : float := 0.70710678118654752440084436210484903928.
Definition InvLn2 : float := 1.44269504088896340735992468100189214.

(** math.Log, the portable implementation of the Go library (argument
    reduction by [Frexp], then a degree-14 polynomial in s = f/(2+f)). *)
Definition Log (x : float) : float :=
  if is_nan x || (x =? infinity)%float then x
  else if (x <? 0)%float then nan
  else if (x =? 0)%float then neg_infinity
  else
    let '(f1, ki) := Frexp x in
    let '(f1, ki) := if (f1 <? Sqrt2_2)%float then ((f1 * 2)%float, ki - 1) else (f1, ki) in
    let f := (f1 - 1)%float in
    let k := of_int ki in
    let s := (f / (2 + f))%float in
    let s2 := (s * s)%float in
    let s4 := (s2 * s2)%float in
    let t1 := (s2 * (L1 + s4 * (L3 + s4 * (L5 + s4 * L7))))%float in
    let t2 := (s4 * (L2 + s4 * (L4 + s4 * L6)))%float in
    let R := (t1 + t2)%float in
    let hfsq := (0.5 * f * f)%float in
    (k * Ln2Hi - ((hfsq - (s * (hfsq + R) + k * Ln2Lo)) - f))%float.

(** math.Log2: exact on powers of two, [Log(frac)*(1/Ln2) + exp] elsewhere. *)
Definition Log2 (x : float) : float :=
  let '(frac, exp) := Frexp x in
  if (frac =? 0.5)%float then of_int (exp - 1)
  else (Log frac * InvLn2 + of_int exp)%float.

End GoMath.

#[export] Instance binary64 : Float64 float := {|
  ofInt := GoMath.of_int;
  toInt := GoMath.to_int;
  fadd := PrimFloat.add;
  fsub := PrimFloat.sub;
  fmul := PrimFloat.mul;
  fdiv := PrimFloat.div;
  flt := PrimFloat.ltb;
  fle := PrimFloat.leb;
  Min := GoMath.Min;
  Log2 := GoMath.Log2
|}.

(** ** Interpretation 2: exact arithmetic *)

Module Exact.

Definition ltb (x y : R) : bool := if Rlt_dec x y then true else false.
Definition leb (x y : R) : bool := if Rle_dec x y then true else false.

(** Rounding toward zero. *)
Definition to_int (x : R) : Z :=
  if Rle_dec 0 x then Int_part x else (- Int_part (- x))%Z.

Definition Log2 (x : R) : R := (ln x / ln 2)%R.

End Exact.

#[export] Instance exact : Float64 R := {|
  ofInt := IZR;
  toInt := Exact.to_int;
  fadd := Rplus;
  fsub := Rminus;
  fmul := Rmult;
  fdiv := Rdiv;
  flt := Exact.ltb;
  fle := Exact.leb;
  Min := Rmin;
  Log2 := Exact.Log2
|}.

(** ** The world outside the package

    Three things the code reads are not functions of its arguments: the
    UUID generator, the wall clock, and the order in which [range] visits a
    map.  Each is a stream in the [World] with a cursor of its own. *)

Record World : Type := mkWorld {
  uuid_src : nat -> string;  uuid_n : nat;
  clock_src : nat -> Z;      clock_n : nat;
  order_src : nat -> list nat;  order_n : nat
}.

Definition M (A : Type) : Type := World -> A * World.

#[export] Instance M_ret : MRet M := fun A (x : A) w => (x, w).
#[export] Instance M_bind : MBind M :=
  fun A B (f : A -> M B) (c : M A) w => let '(a, w') := c w in f a w'.

(** [insert_at n x l] puts [x] before position [n] of [l] (at the end when
    [l] is shorter). *)
Definition insert_at {A} (n : nat) (x : A) (l : list A) : list A :=
  take n l ++ x :: drop n l.

(** [shuffle code l] is a rearrangement of [l]; every rearrangement is
    [shuffle code l] for some [code] ([shuffle_complete]). *)
Fixpoint shuffle {A} (code : list nat) (l : list A) : list A :=
  match l with
  | [] => []
  | x :: l' => insert_at (hd 0%nat code) x (shuffle (tl code) l')
  end.

(** uuid.New().String() *)
Definition uuid_New : M string := fun w =>
  (uuid_src w (uuid_n w),
   mkWorld (uuid_src w) (S (uuid_n w)) (clock_src w) (clock_n w) (order_src w) (order_n w)).

(** time.Now() *)
Definition time_Now : M Z := fun w =>
  (clock_src w (clock_n w),
   mkWorld (uuid_src w) (uuid_n w) (clock_src w) (S (clock_n w)) (order_src w) (order_n w)).

(** The entries of [m] in the order one [for k, v := range m] visits them. *)
Definition range_map {V} (m : gmap string V) : M (list (string * V)) := fun w =>
  (shuffle (order_src w (order_n w)) (map_to_list m),
   mkWorld (uuid_src w) (uuid_n w) (clock_src w) (clock_n w) (order_src w) (S (order_n w))).

(** [m[k]] for a map of ints: zero when [k] is absent. *)
Definition get (m : gmap string Z) (k : string) : Z := default 0 (m !! k).

(** [m[k]++] *)
Definition incr (k : string) (m : gmap string Z) : gmap string Z :=
  <[k := get m k + 1]> m.

(** [len(m)] and [len(s)] as Go ints. *)
Definition len_map {V} (m : gmap string V) : Z := Z.of_nat (size m).
Definition len {A} (l : list A) : Z := Z.of_nat (length l).

(** ** internal/models *)

Module models.

Record TrafficRequest : Type := {
  ID : string;
  Timestamp : Z;
  SourceIP : string;
  DestIP : string;
  SourcePort : Z;
  DestPort : Z;
  Protocol : string;
  RequestPath : string;
  UserAgent : string;
  BytesSent : Z;
  BytesRecv : Z;
  StatusCode : Z;
  Duration : Z
}.

(** One argument of a [fmt.Sprintf] call: [%d] takes an int, [%.Nf] a
    float64 printed with N decimals. *)
Inductive fmt_arg (F : Type) : Type :=
| ArgInt (z : Z)
| ArgFloat (decimals : nat) (x : F).
Arguments ArgInt {F} z.
Arguments ArgFloat {F} decimals x.

(** A formatted text is kept as the format string and its arguments. *)
Record Sprintf (F : Type) : Type := mkSprintf {
  format : string;
  fmt_args : list (fmt_arg F)
}.
Arguments mkSprintf {F} format fmt_args.
Arguments format {F} _.
Arguments fmt_args {F} _.

(** [Attack].  Its [Metrics] pointer is never set by the detector and is
    left out; [EndTime] and [TargetIPs] keep their zero values. *)
Record Attack (F : Type) : Type := mkAttack {
  Attack_ID : string;
  Attack_Type : string;
  Severity : string;
  Confidence : F;
  StartTime : Z;
  EndTime : option Z;
  SourceIPs : list string;
  TargetIPs : list string;
  Description : Sprintf F;
  Mitigated : bool
}.
Arguments mkAttack {F}.
Arguments Attack_ID {F} _.
Arguments Attack_Type {F} _.
Arguments Severity {F} _.
Arguments Confidence {F} _.
Arguments StartTime {F} _.
Arguments EndTime {F} _.
Arguments SourceIPs {F} _.
Arguments TargetIPs {F} _.
Arguments Description {F} _.
Arguments Mitigated {F} _.

End models.
Import models.

(** ** internal/detection *)

Record Baseline (F : Type) : Type := mkBaseline {
  AverageRequestRate : F;
  AverageUniqueIPs : Z;
  AverageIPEntropy : F;
  StandardDeviation : F;
  NormalIPRatio : F;
  AvgConnectionDuration : F
}.
Arguments mkBaseline {F}.
Arguments AverageRequestRate {F} _.
Arguments AverageUniqueIPs {F} _.
Arguments AverageIPEntropy {F} _.
Arguments StandardDeviation {F} _.
Arguments NormalIPRatio {F} _.
Arguments AvgConnectionDuration {F} _.

Record Thresholds (F : Type) : Type := mkThresholds {
  RequestsPerSecond : Z;
  RequestRateZScore : F;
  IPEntropyMin : F;
  ConnectionsPerIP : Z;
  SlowConnectionTime : Z;
  SYNFloodThreshold : Z;
  HTTPFloodThreshold : Z
}.
Arguments mkThresholds {F}.
Arguments RequestsPerSecond {F} _.
Arguments RequestRateZScore {F} _.
Arguments IPEntropyMin {F} _.
Arguments ConnectionsPerIP {F} _.
Arguments SlowConnectionTime {F} _.
Arguments SYNFloodThreshold {F} _.
Arguments HTTPFloodThreshold {F} _.

Record Detector (F : Type) : Type := mkDetector {
  baseline : Baseline F;
  thresholds : Thresholds F
}.
Arguments mkDetector {F}.
Arguments baseline {F} _.
Arguments thresholds {F} _.

Record TrafficMetrics (F : Type) : Type := mkTrafficMetrics {
  TotalRequests : Z;
  UniqueIPs : Z;
  IPCounts : gmap string Z;
  ProtocolCounts : gmap string Z;
  PathCounts : gmap string Z;
  IPEntropy : F;
  PathEntropy : F;
  AvgConnDuration : F;
  RequestsPerIP : F;
  SYNPacketCount : Z
}.
Arguments mkTrafficMetrics {F}.
Arguments TotalRequests {F} _.
Arguments UniqueIPs {F} _.
Arguments IPCounts {F} _.
Arguments ProtocolCounts {F} _.
Arguments PathCounts {F} _.
Arguments IPEntropy {F} _.
Arguments PathEntropy {F} _.
Arguments AvgConnDuration {F} _.
Arguments RequestsPerIP {F} _.
Arguments SYNPacketCount {F} _.

(** The local struct [ipCount] of [getTopIPs]: an address and its count. *)
Abbreviation ipCount := (string * Z)%type (only parsing).

(** The five tallies of the loop of [calculateMetrics]. *)
Record tallies : Type := mkTallies {
  ipCounts : gmap string Z;
  protocolCounts : gmap string Z;
  pathCounts : gmap string Z;
  totalDuration : Z;
  synCount : Z
}.

Section detection.

Context {F : Type} `{Float64 F}.

(** [NewDetector]: the seed baseline and the thresholds. *)
Definition NewDetector : Detector F := {|
  baseline := {|
    AverageRequestRate := ofInt 100;
    AverageUniqueIPs := 50;
    AverageIPEntropy := lit 55 10;
    StandardDeviation := ofInt 15;
    NormalIPRatio := ofInt 2;
    AvgConnectionDuration := ofInt 150
  |};
  thresholds := {|
    RequestsPerSecond := 500;
    RequestRateZScore := ofInt 3;
    IPEntropyMin := ofInt 3;
    ConnectionsPerIP := 100;
    SlowConnectionTime := 30000;
    SYNFloodThreshold := 1000;
    HTTPFloodThreshold := 2000
  |}
|}.

(** [getSeverity] *)
Definition getSeverity (confidence : F) : string :=
  if confidence >=! lit 9 10 then "CRITICAL"
  else if confidence >=! lit 7 10 then "HIGH"
  else if confidence >=! lit 5 10 then "MEDIUM"
  else "LOW".

(** [calculateEntropy]: a first pass over the map for the total, a second
    one for the sum; the second pass does not happen when the total is 0. *)
Definition entropy_total (es : list (string * Z)) : Z :=
  foldl (fun total e => wrap64 (total + e.2)) 0 es.

Definition entropy_term (total : Z) (entropy : F) (e : string * Z) : F :=
  if 0 <? e.2 then
    let p := ofInt e.2 /! ofInt total in
    entropy -! p *! Log2 p
  else entropy.

Definition calculateEntropy (counts : gmap string Z) : M F :=
  es ← range_map counts;
  let total := entropy_total es in
  if total =? 0 then mret (ofInt 0)
  else
    es' ← range_map counts;
    mret (foldl (entropy_term total) (ofInt 0) es').

(** [getTopIPs].  [ips[i], ips[j] = ips[j], ips[i]] under its guard; the
    indices of both loops stay below [len(ips)], so the branch for an
    index out of range (a panic in Go) is never taken. *)
Definition getTopIPs_inner (i : nat) (ips : list ipCount) (j : nat) : list ipCount :=
  match ips !! j, ips !! i with
  | Some cj, Some ci =>
      if ci.2 <? cj.2 then <[j := ci]> (<[i := cj]> ips) else ips
  | _, _ => ips
  end.

(** The inner loop: [for j := i + 1; j < len(ips); j++]. *)
Definition getTopIPs_outer (ips : list ipCount) (i : nat) : list ipCount :=
  foldl (getTopIPs_inner i) ips (seq (S i) (length ips - S i)).

(** The outer loop: [for i := 0; i < len(ips) && i < n; i++]. *)
Definition getTopIPs_sort (ips : list ipCount) (n : nat) : list ipCount :=
  foldl getTopIPs_outer ips (seq 0 (Nat.min (length ips) n)).

(** [n] is 20 at every call of the source. *)
Definition getTopIPs (ipCounts : gmap string Z) (n : nat) : M (list string) :=
  es ← range_map ipCounts;
  let ips := getTopIPs_sort es n in
  let limit := if (length ips <? n)%nat then length ips else n in
  mret ((take limit ips).*1).

(** [calculateMetrics] *)
Definition tally (t : tallies) (req : TrafficRequest) : tallies := {|
  ipCounts := incr (SourceIP req) (ipCounts t);
  protocolCounts := incr (Protocol req) (protocolCounts t);
  pathCounts := incr (RequestPath req) (pathCounts t);
  totalDuration := wrap64 (totalDuration t + Duration req);
  synCount := if bool_decide (Protocol req = "TCP_SYN") then synCount t + 1 else synCount t
|}.

Definition tally_all (requests : list TrafficRequest) : tallies :=
  foldl tally (mkTallies ∅ ∅ ∅ 0 0) requests.

Definition calculateMetrics (requests : list TrafficRequest) : M (TrafficMetrics F) :=
  let t := tally_all requests in
  let avgDuration :=
    if 0 <? len requests then ofInt (totalDuration t) /! ofInt (len requests)
    else ofInt 0 in
  ipEntropy ← calculateEntropy (ipCounts t);
  pathEntropy ← calculateEntropy (pathCounts t);
  mret {|
    TotalRequests := len requests;
    UniqueIPs := len_map (ipCounts t);
    IPCounts := ipCounts t;
    ProtocolCounts := protocolCounts t;
    PathCounts := pathCounts t;
    IPEntropy := ipEntropy;
    PathEntropy := pathEntropy;
    AvgConnDuration := avgDuration;
    RequestsPerIP := ofInt (len requests) /! ofInt (len_map (ipCounts t));
    SYNPacketCount := synCount t
  |}.

(** [detectSYNFlood] *)
Definition synIPs_of (requests : list TrafficRequest) : gmap string bool :=
  foldl (fun (m : gmap string bool) req =>
           if bool_decide (Protocol req = "TCP_SYN") then <[SourceIP req := true]> m else m)
        ∅ requests.

Definition detectSYNFlood (d : Detector F) (requests : list TrafficRequest)
    (metrics : TrafficMetrics F) : M (option (Attack F)) :=
  if SYNPacketCount metrics <? SYNFloodThreshold (thresholds d) then mret None
  else
    let synIPs := synIPs_of requests in
    if (SYNFloodThreshold (thresholds d) <? SYNPacketCount metrics) && (len_map synIPs <? 10)
    then
      es ← range_map synIPs;
      let sourceIPs := es.*1 in
      let confidence :=
        Min (ofInt (SYNPacketCount metrics)
             /! ofInt (wrap64 (SYNFloodThreshold (thresholds d) * 2))) (ofInt 1) in
      id ← uuid_New;
      now ← time_Now;
      mret (Some {|
        Attack_ID := id;
        Attack_Type := "SYN_FLOOD";
        Severity := getSeverity confidence;
        Confidence := confidence;
        StartTime := now;
        EndTime := None;
        SourceIPs := sourceIPs;
        TargetIPs := [];
        Description := mkSprintf "SYN flood detected: %d SYN packets from %d IPs"
                         [ArgInt (SYNPacketCount metrics); ArgInt (len_map synIPs)];
        Mitigated := false
      |})
    else mret None.

(** [detectHTTPFlood] *)
Definition http_tally (acc : Z * gmap string Z) (req : TrafficRequest) : Z * gmap string Z :=
  if bool_decide (Protocol req = "HTTP") then (acc.1 + 1, incr (SourceIP req) acc.2) else acc.

Definition detectHTTPFlood (d : Detector F) (requests : list TrafficRequest)
    (metrics : TrafficMetrics F) : M (option (Attack F)) :=
  let '(httpCount, httpIPs) := foldl http_tally (0, ∅) requests in
  if httpCount <? HTTPFloodThreshold (thresholds d) then mret None
  else if PathEntropy metrics <! ofInt 2 then
    sourceIPs ← getTopIPs httpIPs 20;
    let confidence :=
      Min (ofInt httpCount /! ofInt (wrap64 (HTTPFloodThreshold (thresholds d) * 2))) (ofInt 1) in
    id ← uuid_New;
    now ← time_Now;
    mret (Some {|
      Attack_ID := id;
      Attack_Type := "HTTP_FLOOD";
      Severity := getSeverity confidence;
      Confidence := confidence;
      StartTime := now;
      EndTime := None;
      SourceIPs := sourceIPs;
      TargetIPs := [];
      Description := mkSprintf "HTTP flood detected: %d requests with low path diversity (entropy: %.2f)"
                       [ArgInt httpCount; ArgFloat 2 (PathEntropy metrics)];
      Mitigated := false
    |})
  else mret None.

(** [detectSlowloris] *)
Definition slow_tally (slow : Z) (acc : Z * gmap string Z) (req : TrafficRequest)
    : Z * gmap string Z :=
  if bool_decide (Protocol req = "HTTP") && (slow <? Duration req)
  then (acc.1 + 1, incr (SourceIP req) acc.2) else acc.

Definition detectSlowloris (d : Detector F) (requests : list TrafficRequest)
    (metrics : TrafficMetrics F) : M (option (Attack F)) :=
  let '(slowConnections, slowIPs) :=
    foldl (slow_tally (SlowConnectionTime (thresholds d))) (0, ∅) requests in
  if (100 <? slowConnections) && (len_map slowIPs <? 10) then
    es ← range_map slowIPs;
    let sourceIPs := es.*1 in
    let confidence := Min (ofInt slowConnections /! ofInt 300) (ofInt 1) in
    id ← uuid_New;
    now ← time_Now;
    mret (Some {|
      Attack_ID := id;
      Attack_Type := "SLOWLORIS";
      Severity := getSeverity confidence;
      Confidence := confidence;
      StartTime := now;
      EndTime := None;
      SourceIPs := sourceIPs;
      TargetIPs := [];
      Description := mkSprintf "Slowloris detected: %d slow connections from %d IPs"
                       [ArgInt slowConnections; ArgInt (len_map slowIPs)];
      Mitigated := false
    |})
  else mret None.

(** [detectUDPFlood] *)
Definition udpIPs_of (requests : list TrafficRequest) : gmap string Z :=
  foldl (fun (m : gmap string Z) req =>
           if bool_decide (Protocol req = "UDP") then incr (SourceIP req) m else m)
        ∅ requests.

Definition detectUDPFlood (d : Detector F) (requests : list TrafficRequest)
    (metrics : TrafficMetrics F) : M (option (Attack F)) :=
  let udpCount := get (ProtocolCounts metrics) "UDP" in
  if udpCount <? 2000 then mret None
  else
    let udpIPs := udpIPs_of requests in
    sourceIPs ← getTopIPs udpIPs 20;
    let confidence := Min (ofInt udpCount /! ofInt 5000) (ofInt 1) in
    id ← uuid_New;
    now ← time_Now;
    mret (Some {|
      Attack_ID := id;
      Attack_Type := "UDP_FLOOD";
      Severity := getSeverity confidence;
      Confidence := confidence;
      StartTime := now;
      EndTime := None;
      SourceIPs := sourceIPs;
      TargetIPs := [];
      Description := mkSprintf "UDP flood detected: %d UDP packets from %d IPs"
                       [ArgInt udpCount; ArgInt (len_map udpIPs)];
      Mitigated := false
    |}).

(** [detectRateAnomaly] *)
Definition detectRateAnomaly (d : Detector F) (metrics : TrafficMetrics F)
    : M (option (Attack F)) :=
  let requestRate := ofInt (TotalRequests metrics) in
  let zScore := (requestRate -! AverageRequestRate (baseline d))
                /! StandardDeviation (baseline d) in
  if zScore >! RequestRateZScore (thresholds d) then
    if IPEntropy metrics <! IPEntropyMin (thresholds d) then
      sourceIPs ← getTopIPs (IPCounts metrics) 20;
      let confidence := Min (zScore /! ofInt 6) (ofInt 1) in
      id ← uuid_New;
      now ← time_Now;
      mret (Some {|
        Attack_ID := id;
        Attack_Type := "RATE_ANOMALY";
        Severity := getSeverity confidence;
        Confidence := confidence;
        StartTime := now;
        EndTime := None;
        SourceIPs := sourceIPs;
        TargetIPs := [];
        Description := mkSprintf "Rate anomaly detected: %.0f req/s (Z-score: %.2f), low IP entropy: %.2f"
                         [ArgFloat 0 requestRate; ArgFloat 2 zScore; ArgFloat 2 (IPEntropy metrics)];
        Mitigated := false
      |})
    else mret None
  else mret None.

(** [attacks = append(attacks, *attack)] when the detector returned one. *)
Definition append_found (attacks : list (Attack F)) (attack : option (Attack F))
    : list (Attack F) :=
  match attack with
  | Some a => attacks ++ [a]
  | None => attacks
  end.

(** [AnalyzeTraffic].  The nil slice of the early return is the empty list. *)
Definition AnalyzeTraffic (d : Detector F) (requests : list TrafficRequest)
    : M (list (Attack F)) :=
  if len requests =? 0 then mret []
  else
    let attacks := [] in
    metrics ← calculateMetrics requests;
    attack ← detectSYNFlood d requests metrics;
    let attacks := append_found attacks attack in
    attack ← detectHTTPFlood d requests metrics;
    let attacks := append_found attacks attack in
    attack ← detectSlowloris d requests metrics;
    let attacks := append_found attacks attack in
    attack ← detectUDPFlood d requests metrics;
    let attacks := append_found attacks attack in
    attack ← detectRateAnomaly d metrics;
    let attacks := append_found attacks attack in
    mret attacks.

(** [UpdateBaseline]: the detector after the assignment to its baseline. *)
Definition UpdateBaseline (d : Detector F) (metrics : TrafficMetrics F) : Detector F :=
  let alpha : F := lit 1 10 in
  let b := baseline d in
  {| baseline := {|
       AverageRequestRate :=
         alpha *! ofInt (TotalRequests metrics) +! (ofInt 1 -! alpha) *! AverageRequestRate b;
       AverageUniqueIPs :=
         toInt (alpha *! ofInt (UniqueIPs metrics)
                +! (ofInt 1 -! alpha) *! ofInt (AverageUniqueIPs b));
       AverageIPEntropy :=
         alpha *! IPEntropy metrics +! (ofInt 1 -! alpha) *! AverageIPEntropy b;
       StandardDeviation := StandardDeviation b;
       NormalIPRatio := NormalIPRatio b;
       AvgConnectionDuration :=
         alpha *! AvgConnDuration metrics +! (ofInt 1 -! alpha) *! AvgConnectionDuration b
     |};
     thresholds := thresholds d |}.

End detection.

(** ** cmd/simulator

    The traffic simulator reads one more thing from outside: the random
    number generator of [math/rand].  [Env] adds its stream to the [World].
    A call that panics in Go ([rand.Intn] of a bound that is not positive,
    an index out of range, [make] with a negative length) ends the
    computation: a computation of [G] may return nothing. *)

Record Env : Type := mkEnv {
  env_world : World;
  rand_src : nat -> Z;  rand_n : nat
}.

Definition G (A : Type) : Type := Env -> option (A * Env).

#[export] Instance G_ret : MRet G := fun A (x : A) e => Some (x, e).
#[export] Instance G_bind : MBind G :=
  fun A B (f : A -> G B) (c : G A) e =>
    match c e with
    | Some (a, e') => f a e'
    | None => None
    end.

(** A computation of the detector's monad, run in the world of [e]. *)
Definition lift {A} (c : M A) : G A := fun e =>
  let '(a, w') := c (env_world e) in Some (a, mkEnv w' (rand_src e) (rand_n e)).

Definition panic {A} : G A := fun _ => None.

(** rand.Intn(n): a number in [0, n); it panics when n <= 0. *)
Definition rand_Intn (n : Z) : G Z := fun e =>
  if n <=? 0 then None
  else Some (rand_src e (rand_n e) `mod` n, mkEnv (env_world e) (rand_src e) (S (rand_n e))).

(** [s[i]]: it panics when [i] is out of range. *)
Definition at_index {A} (s : list A) (i : Z) : G A :=
  if i <? 0 then panic
  else match s !! Z.to_nat i with
       | Some x => mret x
       | None => panic
       end.

(** [for i := 0; i < count; i++ { body }], the body acting on a state. *)
Fixpoint for_loop {T} (n : nat) (i : Z) (body : Z -> T -> G T) (s : T) : G T :=
  match n with
  | O => mret s
  | S n' => s' ← body i s; for_loop n' (i + 1) body s'
  end.

Definition for_to {T} (count : Z) (body : Z -> T -> G T) (s : T) : G T :=
  for_loop (Z.to_nat count) 0 body s.

(** fmt.Sprintf("%d.%d.%d.%d", a, b, c, d) *)
Definition dotted (a b c d : Z) : string :=
  pretty a +:+ "." +:+ pretty b +:+ "." +:+ pretty c +:+ "." +:+ pretty d.

Module simulator.

Record Simulator : Type := mkSimulator {
  serverURL : string;
  normalRate : Z;
  attackActive : bool;
  attackType : string
}.

Definition NewSimulator (serverURL : string) : Simulator := {|
  serverURL := serverURL;
  normalRate := 100;
  attackActive := false;
  attackType := ""
|}.

Definition userAgents : list string :=
  ["Mozilla/5.0 (Windows NT 10.0; Win64; x64) AppleWebKit/537.36";
   "Mozilla/5.0 (Macintosh; Intel Mac OS X 10_15_7) AppleWebKit/537.36";
   "Mozilla/5.0 (X11; Linux x86_64) AppleWebKit/537.36";
   "Mozilla/5.0 (iPhone; CPU iPhone OS 14_6 like Mac OS X)"].

Definition paths : list string :=
  ["/"; "/api/users"; "/api/products"; "/login"; "/dashboard";
   "/profile"; "/search"; "/checkout"; "/api/orders"; "/help"].

(** The four [rand.Intn(256)] of an address, left to right. *)
Definition random_address : G string :=
  a ← rand_Intn 256; b ← rand_Intn 256; c ← rand_Intn 256; d ← rand_Intn 256;
  mret (dotted a b c d).

(** [GenerateNormalTraffic] *)
Definition GenerateNormalTraffic (s : Simulator) : G TrafficRequest :=
  sourceIP ← random_address;
  id ← lift uuid_New;
  now ← lift time_Now;
  port ← rand_Intn (65535 - 1024);
  pi ← rand_Intn (len paths);
  path ← at_index paths pi;
  ui ← rand_Intn (len userAgents);
  agent ← at_index userAgents ui;
  sent ← rand_Intn 1000;
  recv ← rand_Intn 5000;
  dur ← rand_Intn 200;
  mret {| ID := id; Timestamp := now; SourceIP := sourceIP; DestIP := "192.168.1.100";
          SourcePort := port + 1024; DestPort := 443; Protocol := "HTTP";
          RequestPath := path; UserAgent := agent; BytesSent := sent + 100;
          BytesRecv := recv + 200; StatusCode := 200; Duration := dur + 50 |}.

(** [generateBotnet]: [make([]string, size)], then one address per index. *)
Definition generateBotnet (size : Z) : G (list string) :=
  if size <? 0 then panic
  else
    for_to size
      (fun i ips => ip ← random_address; mret (<[Z.to_nat i := ip]> ips))
      (replicate (Z.to_nat size) "").

Definition syn_attackIPs : list string := ["203.0.113.10"; "203.0.113.11"; "203.0.113.12"].

(** [GenerateSYNFlood] *)
Definition GenerateSYNFlood (s : Simulator) : G (list TrafficRequest) :=
  let requests := [] in
  let attackIPs := syn_attackIPs in
  k ← rand_Intn 4000;
  let count := k + 1000 in
  for_to count
    (fun _ requests =>
       req ← (id ← lift uuid_New;
              now ← lift time_Now;
              i ← rand_Intn (len attackIPs);
              ip ← at_index attackIPs i;
              port ← rand_Intn 65535;
              mret {| ID := id; Timestamp := now; SourceIP := ip;
                      DestIP := "192.168.1.100"; SourcePort := port; DestPort := 80;
                      Protocol := "TCP_SYN"; RequestPath := ""; UserAgent := "";
                      BytesSent := 64; BytesRecv := 0; StatusCode := 0; Duration := 0 |});
       mret (requests ++ [req]))
    requests.

Definition flood_targetPaths : list string := ["/api/search"; "/login"].

(** [GenerateHTTPFlood] *)
Definition GenerateHTTPFlood (s : Simulator) : G (list TrafficRequest) :=
  let requests := [] in
  attackIPs ← generateBotnet 50;
  let targetPaths := flood_targetPaths in
  k ← rand_Intn 3000;
  let count := k + 2000 in
  for_to count
    (fun _ requests =>
       req ← (id ← lift uuid_New;
              now ← lift time_Now;
              i ← rand_Intn (len attackIPs);
              ip ← at_index attackIPs i;
              port ← rand_Intn (65535 - 1024);
              pi ← rand_Intn (len targetPaths);
              path ← at_index targetPaths pi;
              sent ← rand_Intn 500;
              recv ← rand_Intn 1000;
              dur ← rand_Intn 100;
              mret {| ID := id; Timestamp := now; SourceIP := ip;
                      DestIP := "192.168.1.100"; SourcePort := port + 1024;
                      DestPort := 443; Protocol := "HTTP"; RequestPath := path;
                      UserAgent := "curl/7.68.0"; BytesSent := sent + 100;
                      BytesRecv := recv + 200; StatusCode := 200; Duration := dur + 20 |});
       mret (requests ++ [req]))
    requests.

Definition slowloris_attackIPs : list string :=
  ["198.51.100.20"; "198.51.100.21"; "198.51.100.22"].

(** [GenerateSlowloris] *)
Definition GenerateSlowloris (s : Simulator) : G (list TrafficRequest) :=
  let requests := [] in
  let attackIPs := slowloris_attackIPs in
  k ← rand_Intn 500;
  let count := k + 200 in
  for_to count
    (fun _ requests =>
       req ← (id ← lift uuid_New;
              now ← lift time_Now;
              i ← rand_Intn (len attackIPs);
              ip ← at_index attackIPs i;
              port ← rand_Intn (65535 - 1024);
              dur ← rand_Intn 30000;
              mret {| ID := id; Timestamp := now; SourceIP := ip;
                      DestIP := "192.168.1.100"; SourcePort := port + 1024;
                      DestPort := 80; Protocol := "HTTP"; RequestPath := "";
                      UserAgent := ""; BytesSent := 10; BytesRecv := 0; StatusCode := 0;
                      Duration := dur + 60000 |});
       mret (requests ++ [req]))
    requests.

(** [GenerateUDPFlood] *)
Definition GenerateUDPFlood (s : Simulator) : G (list TrafficRequest) :=
  let requests := [] in
  attackIPs ← generateBotnet 30;
  k ← rand_Intn 5000;
  let count := k + 3000 in
  for_to count
    (fun _ requests =>
       req ← (id ← lift uuid_New;
              now ← lift time_Now;
              i ← rand_Intn (len attackIPs);
              ip ← at_index attackIPs i;
              sport ← rand_Intn 65535;
              dport ← rand_Intn 65535;
              sent ← rand_Intn 1400;
              mret {| ID := id; Timestamp := now; SourceIP := ip;
                      DestIP := "192.168.1.100"; SourcePort := sport; DestPort := dport;
                      Protocol := "UDP"; RequestPath := ""; UserAgent := "";
                      BytesSent := sent + 100; BytesRecv := 0; StatusCode := 0;
                      Duration := 0 |});
       mret (requests ++ [req]))
    requests.

(** [Run].  Its loop waits for one of two tickers; the state it keeps is
    the simulator and the local [currentAttackIndex].  The two cases of the
    [select] are the two handlers below; the lines printed are left out. *)
Definition attackSequence : list string :=
  ["HTTP_FLOOD"; "SYN_FLOOD"; "SLOWLORIS"; "UDP_FLOOD"].

Record RunState : Type := mkRunState {
  sim : Simulator;
  currentAttackIndex : Z
}.

(** Before the loop: the first attack of the sequence starts at once. *)
Definition Run_start (s : Simulator) : G RunState :=
  first ← at_index attackSequence 0;
  mret {| sim := {| serverURL := serverURL s; normalRate := normalRate s;
                    attackActive := true; attackType := first |};
          currentAttackIndex := 0 |}.

(** [case <-attackTicker.C]: stop the running attack, or start the next
    one of the sequence. *)
Definition Run_attackTick (st : RunState) : G RunState :=
  let s := sim st in
  if attackActive s then
    mret {| sim := {| serverURL := serverURL s; normalRate := normalRate s;
                      attackActive := false; attackType := attackType s |};
            currentAttackIndex := currentAttackIndex st |}
  else
    let idx := Z.rem (currentAttackIndex st + 1) (len attackSequence) in
    next ← at_index attackSequence idx;
    mret {| sim := {| serverURL := serverURL s; normalRate := normalRate s;
                      attackActive := true; attackType := next |};
            currentAttackIndex := idx |}.

(** [case <-ticker.C]: the requests handed to [SendTraffic], in the order
    of the [go] statements: [normalRate] normal requests, then the batch of
    the running attack. *)
Definition Run_tick (st : RunState) : G (list TrafficRequest) :=
  let s := sim st in
  normal ← for_to (normalRate s)
              (fun _ sent => req ← GenerateNormalTraffic s; mret (sent ++ [req])) [];
  if attackActive s then
    attackRequests ←
      (if decide (attackType s = "SYN_FLOOD") then GenerateSYNFlood s
       else if decide (attackType s = "HTTP_FLOOD") then GenerateHTTPFlood s
       else if decide (attackType s = "SLOWLORIS") then GenerateSlowloris s
       else if decide (attackType s = "UDP_FLOOD") then GenerateUDPFlood s
       else mret []);
    mret (normal ++ attackRequests)
  else mret normal.

End simulator.
Import simulator.

(** ** internal/storage: [GetMetrics]

    [GetMetrics] asks the Redis server three things and computes the
    metrics of a minute from the replies.  The server is not part of the
    program: what it replies is an input, the three commands of [Redis],
    each giving the value and the error of [Result()] ([None] is [nil]).
    A time is its number of seconds since the epoch. *)

Module storage.

(** [interface{}], as far as the code tells the values apart: a string or
    something else. *)
Inductive any : Type :=
| AnyString (s : string)
| AnyOther.

(** redis.Z *)
Record redis_Z (F : Type) : Type := mk_redis_Z {
  Score : F;
  Member : any
}.
Arguments mk_redis_Z {F}.
Arguments Score {F} _.
Arguments Member {F} _.

(** models.IPCount, models.PathCount and models.Metrics *)
Record IPCount (F : Type) : Type := mkIPCount {
  IP : string;
  IPCount_Count : Z;
  Percentage : F
}.
Arguments mkIPCount {F}.
Arguments IP {F} _.
Arguments IPCount_Count {F} _.
Arguments Percentage {F} _.

Record PathCount : Type := mkPathCount {
  Path : string;
  PathCount_Count : Z
}.

Record Metrics (F : Type) : Type := mkMetrics {
  Metrics_Timestamp : Z;
  WindowDuration : Z;
  Metrics_TotalRequests : Z;
  Metrics_UniqueIPs : Z;
  RequestsPerSec : F;
  BytesPerSec : F;
  Metrics_IPEntropy : F;
  Metrics_PathEntropy : F;
  TopIPs : list (IPCount F);
  TopPaths : list PathCount;
  ProtocolBreakdown : option (gmap string Z);
  StatusCodeDist : option (gmap Z Z);
  Metrics_AvgConnDuration : F
}.
Arguments mkMetrics {F}.
Arguments Metrics_Timestamp {F} _.
Arguments WindowDuration {F} _.
Arguments Metrics_TotalRequests {F} _.
Arguments Metrics_UniqueIPs {F} _.
Arguments RequestsPerSec {F} _.
Arguments BytesPerSec {F} _.
Arguments Metrics_IPEntropy {F} _.
Arguments Metrics_PathEntropy {F} _.
Arguments TopIPs {F} _.
Arguments TopPaths {F} _.
Arguments ProtocolBreakdown {F} _.
Arguments StatusCodeDist {F} _.
Arguments Metrics_AvgConnDuration {F} _.

(** The replies of the server to the commands of [GetMetrics]. *)
Record Redis (F : Type) : Type := mkRedis {
  HGetAll : string -> gmap string string * option string;
  PFCount : string -> Z * option string;
  ZRevRangeWithScores : string -> Z -> Z -> list (redis_Z F) * option string
}.
Arguments mkRedis {F}.
Arguments HGetAll {F} _ _.
Arguments PFCount {F} _ _.
Arguments ZRevRangeWithScores {F} _ _ _ _.

(** How a call ends: with a value, with an error, or in a panic. *)
Inductive outcome (A : Type) : Type :=
| Returns (a : A)
| Fails (err : string)
| Panics.
Arguments Returns {A} a.
Arguments Fails {A} err.
Arguments Panics {A}.

Section GetMetrics.

Context {F : Type} `{Float64 F}.

(** windowStart.Truncate(time.Minute).Unix() *)
Definition minute_of (windowStart : Z) : Z := windowStart / 60 * 60.

(** The first loop: [count := int(z.Score)], the running total, and the
    entry appended; [z.Member.(string)] panics on a member that is not a
    string. *)
Definition topIPs_step (acc : option (list (IPCount F) * Z)) (z : redis_Z F)
    : option (list (IPCount F) * Z) :=
  match acc with
  | None => None
  | Some (topIPs, totalRequests) =>
      let count := toInt (Score z) in
      let totalRequests := wrap64 (totalRequests + count) in
      match Member z with
      | AnyString ip =>
          Some (topIPs ++ [{| IP := ip; IPCount_Count := count; Percentage := ofInt 0 |}],
                totalRequests)
      | AnyOther => None
      end
  end.

(** The second loop: [topIPs[i].Percentage = ...]. *)
Definition with_percentage (totalRequests : Z) (c : IPCount F) : IPCount F := {|
  IP := IP c;
  IPCount_Count := IPCount_Count c;
  Percentage := ofInt (IPCount_Count c) /! ofInt totalRequests *! ofInt 100
|}.

(** The third loop. *)
Definition topPaths_step (acc : option (list PathCount)) (z : redis_Z F)
    : option (list PathCount) :=
  match acc with
  | None => None
  | Some topPaths =>
      match Member z with
      | AnyString path =>
          Some (topPaths ++ [{| Path := path; PathCount_Count := toInt (Score z) |}])
      | AnyOther => None
      end
  end.

(** [GetMetrics] *)
Definition GetMetrics (r : Redis F) (windowStart : Z) : outcome (Metrics F) :=
  let minute := minute_of windowStart in
  let key := "metrics:" +:+ pretty minute in
  let '(metricsData, err) := HGetAll r key in
  match err with
  | Some err => Fails err
  | None =>
      if len_map metricsData =? 0
      then Fails ("no metrics found for timestamp " +:+ pretty minute)
      else
        let '(uniqueIPs, err) := PFCount r (key +:+ ":unique_ips") in
        let uniqueIPs := match err with Some _ => 0 | None => uniqueIPs end in
        let '(topIPsData, _) := ZRevRangeWithScores r (key +:+ ":ip_counts") 0 9 in
        match foldl topIPs_step (Some ([], 0)) topIPsData with
        | None => Panics
        | Some (topIPs, totalRequests) =>
            let topIPs := with_percentage totalRequests <$> topIPs in
            let '(topPathsData, _) := ZRevRangeWithScores r (key +:+ ":path_counts") 0 9 in
            match foldl topPaths_step (Some []) topPathsData with
            | None => Panics
            | Some topPaths =>
                Returns {|
                  Metrics_Timestamp := windowStart;
                  WindowDuration := 60;
                  Metrics_TotalRequests := totalRequests;
                  Metrics_UniqueIPs := uniqueIPs;
                  RequestsPerSec := ofInt totalRequests /! ofInt 60;
                  BytesPerSec := ofInt 0;
                  Metrics_IPEntropy := ofInt 0;
                  Metrics_PathEntropy := ofInt 0;
                  TopIPs := topIPs;
                  TopPaths := topPaths;
                  ProtocolBreakdown := None;
                  StatusCodeDist := None;
                  Metrics_AvgConnDuration := ofInt 0
                |}
            end
        end
  end.

End GetMetrics.

End storage.

(** ** Inputs used in the worked examples *)

Module Examples.

(** A request that carries only the fields the detector reads. *)
Definition request (src proto path : string) (dur : Z) : TrafficRequest := {|
  ID := ""; Timestamp := 0; SourceIP := src; DestIP := "10.0.0.1";
  SourcePort := 40000; DestPort := 80; Protocol := proto; RequestPath := path;
  UserAgent := ""; BytesSent := 0; BytesRecv := 0; StatusCode := 0; Duration := dur
|}.

(** A world whose generator hands out [id], whose clock shows [t] and
    whose maps are visited as [order] says, at every call. *)
Definition world (id : string) (t : Z) (order : list nat) : World :=
  mkWorld (fun _ => id) 0 (fun _ => t) 0 (fun _ => order) 0.

(** The world of the examples. *)
Definition w0 : World := world "f47ac10b" 1700000000 [].

(** 1500 TCP_SYN records from exactly three addresses. *)
Definition syn_1500 : list TrafficRequest :=
  mjoin (replicate 500 [request "10.1.1.1" "TCP_SYN" "" 1;
                        request "10.1.1.2" "TCP_SYN" "" 1;
                        request "10.1.1.3" "TCP_SYN" "" 1]).

(** A metrics snapshot with the given total, number of distinct sources and
    source entropy (one address sent everything). *)
Definition window {F} `{Float64 F} (total unique : Z) (ipEntropy : F) : TrafficMetrics F := {|
  TotalRequests := total; UniqueIPs := unique;
  IPCounts := {["10.1.1.1" := total]}; ProtocolCounts := ∅; PathCounts := ∅;
  IPEntropy := ipEntropy; PathEntropy := ofInt 0; AvgConnDuration := ofInt 150;
  RequestsPerIP := ofInt total; SYNPacketCount := 0
|}.

End Examples.

(** ** The vocabulary of the statements

    The notions the theorems below are stated with: what a batch contains,
    what a ranking of sources is, the Shannon entropy as the specification
    words it, when two runs agree, and the inputs of the worked examples. *)

(** The fixed order in which the detectors are asked. *)
Definition detector_sequence : list string :=
  ["SYN_FLOOD"; "HTTP_FLOOD"; "SLOWLORIS"; "UDP_FLOOD"; "RATE_ANOMALY"].

(** The detector after [n] calls of [UpdateBaseline] with the same metrics. *)
Definition UpdateBaseline_n {F} `{Float64 F} (n : nat) (d : Detector F)
    (metrics : TrafficMetrics F) : Detector F :=
  Nat.iter n (fun d' => UpdateBaseline d' metrics) d.

(** The records of a batch with a given protocol tag. *)
Definition tagged (proto : string) (requests : list TrafficRequest) : list TrafficRequest :=
  filter (fun r => Protocol r = proto) requests.

(** The number of distinct source addresses of a list of records. *)
Definition distinct_sources (l : list TrafficRequest) : Z :=
  Z.of_nat (size (list_to_set (C := gset string) (SourceIP <$> l))).

(** The count at position [b] is at most the count at position [a]. *)
Definition below (l : list ipCount) (a b : nat) : Prop :=
  forall x y, l !! a = Some x -> l !! b = Some y -> y.2 <= x.2.

(** The invariant of the inner loop of round [i], before the comparison
    with position [J]. *)
Definition inner_inv (i : nat) (l0 : list ipCount) (J : nat) (l : list ipCount) : Prop :=
  length l = length l0 /\ l ≡ₚ l0
  /\ (forall k, (k < i)%nat -> l !! k = l0 !! k)
  /\ (forall k x, (i <= k)%nat -> l !! k = Some x ->
        exists k', (i <= k')%nat /\ l0 !! k' = Some x)
  /\ (forall k, (i < k < J)%nat -> below l i k).

(** The invariant of the outer loop before round [I]: the list is a
    rearrangement of the entries, and each of the first [I] positions holds
    a count that nothing after it exceeds. *)
Definition outer_inv (l0 : list ipCount) (I : nat) (l : list ipCount) : Prop :=
  length l = length l0 /\ l ≡ₚ l0
  /\ forall a b, (a < I)%nat -> (a < b)%nat -> below l a b.

(** What [getTopIPs] returns, in terms of the map: [r] lists [n] keys of
    [counts] (all of them when there are fewer), without repetition, by
    count descending, and no key left out has a larger count than a key of
    [r]. *)
Definition top_of (counts : gmap string Z) (n : nat) (r : list string) : Prop :=
  NoDup r
  /\ length r = Nat.min n (size counts)
  /\ (forall ip, ip ∈ r -> is_Some (counts !! ip))
  /\ (forall a b ip ip', (a < b)%nat -> r !! a = Some ip -> r !! b = Some ip' ->
        get counts ip' <= get counts ip)
  /\ (forall ip ip', is_Some (counts !! ip) -> ip ∉ r -> ip' ∈ r ->
        get counts ip <= get counts ip').

(** The number of records of [l] sent by [ip]. *)
Definition hits (ip : string) (l : list TrafficRequest) : Z :=
  len (filter (fun r => SourceIP r = ip) l).

(** The ranking the specification asks of a source list, on the records
    themselves: [r] holds [n] of the source addresses of [l] (all of them if
    there are fewer), each once, by number of records descending, and no
    address left out sent more records than a listed one. *)
Definition top_sources (n : nat) (l : list TrafficRequest) (r : list string) : Prop :=
  NoDup r
  /\ len r = Z.min (Z.of_nat n) (distinct_sources l)
  /\ (forall ip, ip ∈ r -> 0 < hits ip l)
  /\ (forall a b ip ip', (a < b)%nat -> r !! a = Some ip -> r !! b = Some ip' ->
        hits ip' l <= hits ip l)
  /\ (forall ip ip', 0 < hits ip l -> ip ∉ r -> ip' ∈ r -> hits ip l <= hits ip' l).

(** A map that counts the records of [l] by source address. *)
Definition counts_sources (m : gmap string Z) (l : list TrafficRequest) : Prop :=
  (forall ip, get m ip = hits ip l)
  /\ dom m = list_to_set (C := gset string) (SourceIP <$> l).

(** A detector with floors of two records. *)
Definition low_floor {F} `{Float64 F} : Detector F := {|
  baseline := baseline NewDetector;
  thresholds := {|
    RequestsPerSecond := 500; RequestRateZScore := ofInt 3; IPEntropyMin := ofInt 3;
    ConnectionsPerIP := 100; SlowConnectionTime := 30000;
    SYNFloodThreshold := 2; HTTPFloodThreshold := 2
  |}
|}.

(** A detector whose HTTP floor, doubled, is no int. *)
Definition wrapping_floor {F} `{Float64 F} : Detector F := {|
  baseline := baseline NewDetector;
  thresholds := {|
    RequestsPerSecond := 500; RequestRateZScore := ofInt 3; IPEntropyMin := ofInt 3;
    ConnectionsPerIP := 100; SlowConnectionTime := 30000;
    SYNFloodThreshold := 1000; HTTPFloodThreshold := - 2 ^ 62 - 1
  |}
|}.

(** 2500 HTTP records for one path, sent in turn by 25 addresses; and 2500
    HTTP records spread evenly over 50 paths. *)
Definition http_2500 : list TrafficRequest :=
  mjoin (replicate 100
    ((fun k => Examples.request (String (Ascii.ascii_of_nat (65 + k)) "") "HTTP" "/login" 20)
       <$> seq 0 25)).

Definition http_50_paths : list TrafficRequest :=
  mjoin (replicate 50
    ((fun k => Examples.request "10.3.0.1" "HTTP"
                 ("/" +:+ String (Ascii.ascii_of_nat (65 + k)) "") 20)
       <$> seq 0 50)).

(** Three HTTP records for one path, two of them from the same address. *)
Definition http_3 : list TrafficRequest :=
  [Examples.request "10.2.0.1" "HTTP" "/login" 20;
   Examples.request "10.2.0.2" "HTTP" "/login" 20;
   Examples.request "10.2.0.1" "HTTP" "/login" 20].

(** Sums of integers and of reals. *)
Definition sumZ (l : list Z) : Z := foldr Z.add 0 l.

Definition sumR (l : list R) : R := foldr Rplus 0%R l.

(** The total of the counts of a map. *)
Definition total_count (counts : gmap string Z) : Z := sumZ (map_to_list counts).*2.

(** One term p * log2 p of the Shannon sum, for a count [c] out of [total];
    a category without occurrences contributes nothing. *)
Definition shannon_term (total c : Z) : R :=
  if 0 <? c then (IZR c / IZR total * (ln (IZR c / IZR total) / ln 2))%R else 0%R.

(** The Shannon entropy in bits of a distribution given by counts, as the
    specification words it: H = - sum of p * log2 p over the categories
    with a positive count, p = count / total, and 0 for an empty
    distribution. *)
Definition shannon (counts : gmap string Z) : R :=
  if total_count counts =? 0 then 0%R
  else (- sumR (shannon_term (total_count counts) <$> (map_to_list counts).*2))%R.

(** The same sum in the arithmetic [F] of the program, taken over the counts
    in the order [cs] lists them: the total is the sum of the counts, each
    count above 0 contributes p * log2 p with p = count / total, subtracted
    in turn from 0, and the empty distribution (total 0) has entropy 0. *)
Definition shannon_in_order {F} `{Float64 F} (cs : list Z) : F :=
  let total := sumZ cs in
  if total =? 0 then ofInt 0
  else foldl (fun h c => h -! (ofInt c /! ofInt total) *! Log2 (ofInt c /! ofInt total))
             (ofInt 0) (filter (fun c => 0 < c) cs).

(** No count of the map is negative. *)
Definition nonneg_counts (counts : gmap string Z) : Prop :=
  forall k c, counts !! k = Some c -> 0 <= c.

(** Four paths, five requests each; seven paths with unequal counts. *)
Definition four_paths : gmap string Z :=
  list_to_map [("/a", 5); ("/b", 5); ("/c", 5); ("/d", 5)].

Definition seven_paths : gmap string Z :=
  list_to_map [("a", 1); ("b", 2); ("c", 3); ("d", 7); ("e", 11); ("f", 13); ("g", 29)].

(** Two counts whose sum, 2^63, is no int; and three equal counts. *)
Definition overflowing_counts : gmap string Z :=
  list_to_map [("a", int_max); ("b", 1)].

Definition three_equal : gmap string Z :=
  list_to_map [("a", 1); ("b", 1); ("c", 1)].

(** A computation that never rewinds the cursor of the [range] orders, and
    one that visits at least one map. *)
Definition advances {A} (c : M A) : Prop :=
  forall w, (order_n w <= order_n (c w).2)%nat.

Definition ranges {A} (c : M A) : Prop :=
  forall w, (order_n w < order_n (c w).2)%nat.

(** Two worlds in which the maps are visited in the same orders.  Their
    UUID generators and their clocks are unrelated. *)
Definition same_orders (w1 w2 : World) : Prop :=
  order_n w1 = order_n w2 /\ forall n, order_src w1 n = order_src w2 n.

(** Two findings that agree on every field but the identifier and the
    start time. *)
Definition same_finding {F} (a b : Attack F) : Prop :=
  Attack_Type a = Attack_Type b /\ Severity a = Severity b
  /\ Confidence a = Confidence b /\ EndTime a = EndTime b
  /\ SourceIPs a = SourceIPs b /\ TargetIPs a = TargetIPs b
  /\ Description a = Description b /\ Mitigated a = Mitigated b.

(** Two computations whose results are related by [R] whenever they start
    in worlds with the same orders, and that end in such worlds. *)
Definition agree {A} (R : A -> A -> Prop) (c1 c2 : M A) : Prop :=
  forall w1 w2, same_orders w1 w2 ->
    R (c1 w1).1 (c2 w2).1 /\ same_orders (c1 w1).2 (c2 w2).2.

(** The result of a detector: the finding up to identifier and start time. *)
Definition same_result {F} (o1 o2 : option (Attack F)) : Prop :=
  option_Forall2 same_finding o1 o2.

(** The findings of a detector all satisfy [P]. *)
Definition all_findings {F} (P : Attack F -> Prop) (c : M (option (Attack F))) : Prop :=
  forall w a, (c w).1 = Some a -> P a.

(** Every detector labels its finding with [getSeverity] of its confidence. *)
Definition severity_scored {F} `{Float64 F} (a : Attack F) : Prop :=
  Severity a = getSeverity (Confidence a).

(** The confidence of a finding lies between 0 and 1, in exact arithmetic. *)
Definition exact_unit (a : Attack R) : Prop := (0 <= Confidence a <= 1)%R.

(** Thresholds under which no raw signal is negative or undefined. *)
Definition sane_thresholds {F} `{Float64 F} (t : Thresholds F) : Prop :=
  0 <= SYNFloodThreshold t < 2 ^ 62
  /\ 0 < HTTPFloodThreshold t < 2 ^ 62
  /\ (ofInt 0 <=! RequestRateZScore t) = true.

(** Classes of binary64 values: zero, finite or infinite with the sign bit
    clear ([sf_nn]); finite and not zero ([sf_posfin]); not zero ([sf_pos]). *)
Definition sf_nn (s : spec_float) : Prop :=
  match s with
  | S754_zero false | S754_finite false _ _ | S754_infinity false => True
  | _ => False
  end.

Definition sf_posfin (s : spec_float) : Prop :=
  match s with S754_finite false _ _ => True | _ => False end.

Definition sf_pos (s : spec_float) : Prop :=
  match s with S754_finite false _ _ | S754_infinity false => True | _ => False end.

(** The confidence of a finding lies between 0 and 1, on binary64 (a value
    that is not a number fails both comparisons). *)
Definition unit_b64 (a : Attack float) : Prop :=
  (0 <=? Confidence a)%float = true /\ (Confidence a <=? 1)%float = true.

(** The seed detector with other floors and another z-score threshold. *)
Definition detector_with {F} `{Float64 F} (synFloor httpFloor : Z) (zScore : F) : Detector F := {|
  baseline := baseline NewDetector;
  thresholds := {|
    RequestsPerSecond := 500; RequestRateZScore := zScore; IPEntropyMin := ofInt 3;
    ConnectionsPerIP := 100; SlowConnectionTime := 30000;
    SYNFloodThreshold := synFloor; HTTPFloodThreshold := httpFloor
  |}
|}.

(** The confidence of a finding is outside [0, 1] (or is not a number). *)
Definition out_of_unit (a : Attack float) : Prop :=
  ((0 <=? Confidence a) && (Confidence a <=? 1))%float = false.

(** ** The vocabulary of the statements about the rest of the package *)

(** The slow connections of a batch: its HTTP records that lasted longer
    than [limit] milliseconds. *)
Definition slow (limit : Z) (requests : list TrafficRequest) : list TrafficRequest :=
  filter (fun r => Protocol r = "HTTP" /\ limit < Duration r) requests.

(** The records of a batch that ask for a given path. *)
Definition on_path (path : string) (requests : list TrafficRequest) : list TrafficRequest :=
  filter (fun r => RequestPath r = path) requests.

(** The sum of the durations of a batch, before any wrap-around. *)
Definition durations (requests : list TrafficRequest) : Z := sumZ (Duration <$> requests).

(** A map that counts the records of [l] by the field [key]: one entry per
    value of the field that occurs, holding the number of occurrences. *)
Definition counts_by (key : TrafficRequest -> string) (m : gmap string Z)
    (l : list TrafficRequest) : Prop :=
  (forall k, get m k = len (filter (fun r => key r = k) l))
  /\ dom m = list_to_set (C := gset string) (key <$> l).

(** No two keys of the map have the same count. *)
Definition distinct_counts (counts : gmap string Z) : Prop :=
  forall k k' c, counts !! k = Some c -> counts !! k' = Some c -> k = k'.

(** Three addresses with three different counts. *)
Definition three_sources : gmap string Z :=
  list_to_map [("10.0.0.1", 7); ("10.0.0.2", 3); ("10.0.0.3", 5)].

(** The four severities, in increasing order (anything else ranks with
    LOW). *)
Definition severity_rank (s : string) : nat :=
  if decide (s = "CRITICAL") then 3
  else if decide (s = "HIGH") then 2
  else if decide (s = "MEDIUM") then 1
  else 0.

(** A computation that draws no identifier and does not read the clock; it
    may visit maps. *)
Definition quiet {A} (c : M A) : Prop :=
  forall w, uuid_src (c w).2 = uuid_src w /\ uuid_n (c w).2 = uuid_n w
            /\ clock_src (c w).2 = clock_src w /\ clock_n (c w).2 = clock_n w.

(** The identifiers and start times of [l] are the [length l] values the
    generator and the clock of [w] hand out next, in that order, and [w']
    is [w] after these draws. *)
Definition stamped {F} (w : World) (l : list (Attack F)) (w' : World) : Prop :=
  uuid_src w' = uuid_src w /\ clock_src w' = clock_src w
  /\ uuid_n w' = (uuid_n w + length l)%nat /\ clock_n w' = (clock_n w + length l)%nat
  /\ Attack_ID <$> l = uuid_src w <$> seq (uuid_n w) (length l)
  /\ StartTime <$> l = clock_src w <$> seq (clock_n w) (length l).

(** A detector that stamps its finding, if it has one, with the next
    identifier and the next clock reading, and draws nothing otherwise. *)
Definition stamps {F} (c : M (option (Attack F))) : Prop :=
  forall w, stamped w (option_list (c w).1) (c w).2.

(** A generator that never hands out the same identifier twice. *)
Definition fresh_ids (w : World) : Prop :=
  forall i j, uuid_src w i = uuid_src w j -> i = j.

(** A world that numbers its identifiers. *)
Definition counting_world : World :=
  mkWorld (fun n => pretty n) 0 (fun n => 1700000000 + Z.of_nat n) 0 (fun _ => []) 0.

(** What every finding looks like besides its scores, for a batch
    [requests]: the source list names each address once, at most 20 of them
    (fewer than 10 for a SYN flood or a Slowloris finding), all of them
    senders of a record of the batch; and the end time, the target list and
    the mitigation flag are left at their zero values. *)
Definition names_senders {F} (requests : list TrafficRequest) (a : Attack F) : Prop :=
  NoDup (SourceIPs a)
  /\ (length (SourceIPs a) <= 20)%nat
  /\ (Attack_Type a = "SYN_FLOOD" \/ Attack_Type a = "SLOWLORIS" ->
      (length (SourceIPs a) < 10)%nat)
  /\ (forall ip, ip ∈ SourceIPs a -> ip ∈ SourceIP <$> requests)
  /\ EndTime a = None /\ TargetIPs a = [] /\ Mitigated a = false.

(** The four fields of a record the detector reads. *)
Definition view (r : TrafficRequest) : string * string * string * Z :=
  (SourceIP r, Protocol r, RequestPath r, Duration r).

(** Two batches with the same records up to order and up to the fields the
    detector does not read. *)
Definition batch_a : list TrafficRequest :=
  [Examples.request "10.2.0.1" "HTTP" "/login" 20;
   Examples.request "10.2.0.2" "UDP" "" 0].

Definition batch_b : list TrafficRequest :=
  [{| ID := "b2"; Timestamp := 1700000007; SourceIP := "10.2.0.2"; DestIP := "10.0.0.9";
      SourcePort := 53; DestPort := 53; Protocol := "UDP"; RequestPath := "";
      UserAgent := ""; BytesSent := 512; BytesRecv := 0; StatusCode := 0; Duration := 0 |};
   {| ID := "b1"; Timestamp := 1700000003; SourceIP := "10.2.0.1"; DestIP := "10.0.0.8";
      SourcePort := 50123; DestPort := 443; Protocol := "HTTP"; RequestPath := "/login";
      UserAgent := "curl/7.68.0"; BytesSent := 300; BytesRecv := 1200; StatusCode := 200;
      Duration := 20 |}].

(** Thresholds with positive floors and a z-score threshold of at least 3,
    as the seed thresholds are. *)
Definition firm_thresholds (t : Thresholds R) : Prop :=
  0 < SYNFloodThreshold t < 2 ^ 62
  /\ 0 < HTTPFloodThreshold t < 2 ^ 62
  /\ (3 <= RequestRateZScore t)%R.

(** The least confidence each detector can report, in exact arithmetic:
    a half for a SYN flood, an HTTP flood and a rate anomaly, which are
    therefore never of severity LOW; a third for Slowloris and two fifths
    for a UDP flood. *)
Definition confidence_floor (a : Attack R) : Prop :=
  (Attack_Type a = "SYN_FLOOD" \/ Attack_Type a = "HTTP_FLOOD"
   \/ Attack_Type a = "RATE_ANOMALY" ->
   (1 / 2 <= Confidence a)%R /\ Severity a <> "LOW")
  /\ (Attack_Type a = "SLOWLORIS" -> (1 / 3 < Confidence a)%R)
  /\ (Attack_Type a = "UDP_FLOOD" -> (2 / 5 <= Confidence a)%R).

(** When each detector reports, as a test on the batch (and, for the two
    detectors that read an entropy, on the metrics). *)
Definition syn_fires {F} (d : Detector F) (requests : list TrafficRequest) : bool :=
  (SYNFloodThreshold (thresholds d) <? len (tagged "TCP_SYN" requests))
  && (distinct_sources (tagged "TCP_SYN" requests) <? 10).

Definition http_fires {F} `{Float64 F} (d : Detector F) (requests : list TrafficRequest)
    (metrics : TrafficMetrics F) : bool :=
  (HTTPFloodThreshold (thresholds d) <=? len (tagged "HTTP" requests))
  && (PathEntropy metrics <! ofInt 2).

Definition slow_fires {F} (d : Detector F) (requests : list TrafficRequest) : bool :=
  (100 <? len (slow (SlowConnectionTime (thresholds d)) requests))
  && (distinct_sources (slow (SlowConnectionTime (thresholds d)) requests) <? 10).

Definition udp_fires (requests : list TrafficRequest) : bool :=
  2000 <=? len (tagged "UDP" requests).

Definition rate_fires {F} `{Float64 F} (d : Detector F) (metrics : TrafficMetrics F) : bool :=
  ((ofInt (TotalRequests metrics) -! AverageRequestRate (baseline d))
     /! StandardDeviation (baseline d) >! RequestRateZScore (thresholds d))
  && (IPEntropy metrics <! IPEntropyMin (thresholds d)).

(** The tag of a detector that reports, or nothing. *)
Definition tag_if (b : bool) (tag : string) : list string := if b then [tag] else [].

(** ** The vocabulary of the statements about the simulator *)

(** [c] run in [e] does not panic, and its result and final environment
    satisfy [P]. *)
Definition returns {A} (c : G A) (e : Env) (P : A -> Env -> Prop) : Prop :=
  exists a e', c e = Some (a, e') /\ P a e'.

(** An address as [random_address] prints it. *)
Definition dotted_quad (ip : string) : Prop :=
  exists a b c d, ip = dotted a b c d
    /\ 0 <= a < 256 /\ 0 <= b < 256 /\ 0 <= c < 256 /\ 0 <= d < 256.

(** The records of each generator. *)
Definition normal_record (r : TrafficRequest) : Prop :=
  dotted_quad (SourceIP r) /\ DestIP r = "192.168.1.100"
  /\ 1024 <= SourcePort r < 65535 /\ DestPort r = 443 /\ Protocol r = "HTTP"
  /\ RequestPath r ∈ paths /\ UserAgent r ∈ userAgents
  /\ 100 <= BytesSent r < 1100 /\ 200 <= BytesRecv r < 5200 /\ StatusCode r = 200
  /\ 50 <= Duration r < 250.

Definition syn_record (r : TrafficRequest) : Prop :=
  SourceIP r ∈ syn_attackIPs /\ DestIP r = "192.168.1.100"
  /\ 0 <= SourcePort r < 65535 /\ DestPort r = 80 /\ Protocol r = "TCP_SYN"
  /\ BytesSent r = 64 /\ Duration r = 0.

Definition http_flood_record (botnet : list string) (r : TrafficRequest) : Prop :=
  SourceIP r ∈ botnet /\ DestIP r = "192.168.1.100"
  /\ 1024 <= SourcePort r < 65535 /\ DestPort r = 443 /\ Protocol r = "HTTP"
  /\ RequestPath r ∈ flood_targetPaths /\ UserAgent r = "curl/7.68.0"
  /\ 100 <= BytesSent r < 600 /\ 200 <= BytesRecv r < 1200 /\ StatusCode r = 200
  /\ 20 <= Duration r < 120.

Definition slowloris_record (r : TrafficRequest) : Prop :=
  SourceIP r ∈ slowloris_attackIPs /\ DestIP r = "192.168.1.100"
  /\ 1024 <= SourcePort r < 65535 /\ DestPort r = 80 /\ Protocol r = "HTTP"
  /\ BytesSent r = 10 /\ 60000 <= Duration r < 90000.

Definition udp_record (botnet : list string) (r : TrafficRequest) : Prop :=
  SourceIP r ∈ botnet /\ DestIP r = "192.168.1.100"
  /\ 0 <= SourcePort r < 65535 /\ 0 <= DestPort r < 65535 /\ Protocol r = "UDP"
  /\ 100 <= BytesSent r < 1500 /\ Duration r = 0.

(** [n] attack ticks in a row. *)
Fixpoint attackTicks (n : nat) (st : RunState) : G RunState :=
  match n with
  | O => mret st
  | S n' => st' ← Run_attackTick st; attackTicks n' st'
  end.
(** A record as [GenerateNormalTraffic] builds them. *)
Definition a_normal_record : TrafficRequest := {|
  ID := "4f1c"; Timestamp := 1700000000; SourceIP := dotted 10 20 30 40;
  DestIP := "192.168.1.100"; SourcePort := 50000; DestPort := 443; Protocol := "HTTP";
  RequestPath := "/login"; UserAgent := "Mozilla/5.0 (X11; Linux x86_64) AppleWebKit/537.36";
  BytesSent := 300; BytesRecv := 1200; StatusCode := 200; Duration := 120
|}.

(** An environment whose random numbers are 0, 1, 2, ... *)
Definition counting_env : Env := mkEnv counting_world (fun n => Z.of_nat n) 0.

(** The state of [Run] after [k] attack ticks, counted from the start: an
    attack runs between an even tick and the next one, and the attacks
    follow the sequence, round and round. *)
Definition cycle_state (s : Simulator) (k : Z) (st : RunState) : Prop :=
  attackActive (sim st) = Z.even k
  /\ currentAttackIndex st = (k / 2) `mod` 4
  /\ attackSequence !! Z.to_nat ((k / 2) `mod` 4) = Some (attackType (sim st))
  /\ serverURL (sim st) = serverURL s /\ normalRate (sim st) = normalRate s.

(** The batch of an attack of a given type, as its generator builds it;
    nothing for a type that is not in the sequence. *)
Definition attack_batch (type : string) (l : list TrafficRequest) : Prop :=
  (type = "SYN_FLOOD" /\ 1000 <= len l < 5000 /\ Forall syn_record l)
  \/ (type = "HTTP_FLOOD" /\ 2000 <= len l < 5000
      /\ exists botnet, len botnet = 50 /\ Forall (http_flood_record botnet) l)
  \/ (type = "SLOWLORIS" /\ 200 <= len l < 700 /\ Forall slowloris_record l)
  \/ (type = "UDP_FLOOD" /\ 3000 <= len l < 8000
      /\ exists botnet, len botnet = 30 /\ Forall (udp_record botnet) l)
  \/ ((type ∉ attackSequence) /\ l = []).

(** ** The vocabulary of the statements about [GetMetrics] *)

(** The key of the minute of a time. *)
Definition metrics_key (windowStart : Z) : string :=
  "metrics:" +:+ pretty (storage.minute_of windowStart).

(** Every member of a reply is a string. *)
Definition string_members {F} (l : list (storage.redis_Z F)) : Prop :=
  Forall (fun z => exists s, storage.Member z = storage.AnyString s) l.

(** The string a member is (the empty string for another value). *)
Definition member_string {F} (z : storage.redis_Z F) : string :=
  match storage.Member z with
  | storage.AnyString s => s
  | storage.AnyOther => ""
  end.

(** The counts of a reply, [int(z.Score)] of each entry. *)
Definition reply_counts {F} `{Float64 F} (l : list (storage.redis_Z F)) : list Z :=
  (fun z => toInt (storage.Score z)) <$> l.

(** The three replies [GetMetrics] reads for a time. *)
Definition hash_reply {F} (r : storage.Redis F) (t : Z) : gmap string string * option string :=
  storage.HGetAll r (metrics_key t).

Definition unique_reply {F} (r : storage.Redis F) (t : Z) : Z * option string :=
  storage.PFCount r (metrics_key t +:+ ":unique_ips").

Definition ips_reply {F} (r : storage.Redis F) (t : Z) : list (storage.redis_Z F) :=
  (storage.ZRevRangeWithScores r (metrics_key t +:+ ":ip_counts") 0 9).1.

Definition paths_reply {F} (r : storage.Redis F) (t : Z) : list (storage.redis_Z F) :=
  (storage.ZRevRangeWithScores r (metrics_key t +:+ ":path_counts") 0 9).1.

(** The metrics [GetMetrics] builds from the replies. *)
Definition metrics_of {F} `{Float64 F} (r : storage.Redis F) (t : Z) : storage.Metrics F :=
  let total := wrap64 (sumZ (reply_counts (ips_reply r t))) in
  {| storage.Metrics_Timestamp := t;
     storage.WindowDuration := 60;
     storage.Metrics_TotalRequests := total;
     storage.Metrics_UniqueIPs :=
       match (unique_reply r t).2 with Some _ => 0 | None => (unique_reply r t).1 end;
     storage.RequestsPerSec := ofInt total /! ofInt 60;
     storage.BytesPerSec := ofInt 0;
     storage.Metrics_IPEntropy := ofInt 0;
     storage.Metrics_PathEntropy := ofInt 0;
     storage.TopIPs :=
       (fun z => {| storage.IP := member_string z;
                    storage.IPCount_Count := toInt (storage.Score z);
                    storage.Percentage :=
                      ofInt (toInt (storage.Score z)) /! ofInt total *! ofInt 100 |})
         <$> ips_reply r t;
     storage.TopPaths :=
       (fun z => {| storage.Path := member_string z;
                    storage.PathCount_Count := toInt (storage.Score z) |})
         <$> paths_reply r t;
     storage.ProtocolBreakdown := None;
     storage.StatusCodeDist := None;
     storage.Metrics_AvgConnDuration := ofInt 0 |}.

(** A server that holds a minute with two addresses and one path. *)
Definition two_addresses : storage.Redis R :=
  storage.mkRedis
    (fun _ => ({["total_requests" := "9"]}, None))
    (fun _ => (2, None))
    (fun key _ _ =>
       ([storage.mk_redis_Z 3%R (storage.AnyString "10.0.0.1");
         storage.mk_redis_Z 1%R (storage.AnyString "10.0.0.2")], None)).

(** ** The monad: how a computation runs *)

Lemma run_ret {A} (x : A) (w : World) : mret (M := M) x w = (x, w).
Proof. reflexivity. Qed.

Lemma run_bind {A B} (c : M A) (f : A -> M B) (w : World) :
  (c ≫= f) w = f (c w).1 (c w).2.
Proof. unfold mbind, M_bind. by destruct (c w). Qed.

(** ** The binary64 constants are the literals of the source *)

Lemma lit_is_literal :
  lit (F := float) 9 10 = 0.9%float /\ lit (F := float) 7 10 = 0.7%float /\
  lit (F := float) 5 10 = 0.5%float /\ lit (F := float) 1 10 = 0.1%float /\
  lit (F := float) 55 10 = 5.5%float.
Proof. repeat split; vm_compute; reflexivity. Qed.

(** ** Facts of binary64 arithmetic

    The sign and the class of the results of [float64(i)], of a division
    and of [math.Min], read off the specification of binary64 arithmetic
    ([SpecFloat]) that the primitive operations satisfy. *)

Lemma digits2_pos_size (m : positive) : digits2_pos m = Pos.size m.
Proof. induction m; simpl; congruence. Qed.

Lemma digits_bounds (m : positive) :
  2 ^ Z.pos (digits2_pos m) <= 2 * Z.pos m /\ Z.pos m < 2 ^ Z.pos (digits2_pos m).
Proof.
  rewrite digits2_pos_size. split.
  - pose proof (Pos.size_le m) as H. apply Pos2Z.pos_le_pos in H.
    rewrite Pos2Z.inj_pow in H. rewrite Pos2Z.inj_xO in H. exact H.
  - pose proof (Pos.size_gt m) as H. apply Pos2Z.pos_lt_pos in H.
    rewrite Pos2Z.inj_pow in H. exact H.
Qed.

Lemma digits_le (m : positive) (k : Z) : Z.pos m < 2 ^ k -> Z.pos (digits2_pos m) <= k.
Proof.
  intros Hm. destruct (digits_bounds m) as [Hlo _].
  destruct (Z.le_gt_cases (Z.pos (digits2_pos m)) k) as [|Hgt]; [done |].
  assert (0 <= k).
  { destruct (Z.le_gt_cases 0 k); [done |]. rewrite Z.pow_neg_r in Hm by lia. lia. }
  assert (2 ^ (k + 1) <= 2 ^ Z.pos (digits2_pos m)) by (apply Z.pow_le_mono_r; lia).
  rewrite Z.pow_add_r in * by lia. lia.
Qed.

Lemma shr_1_m (mrs : shr_record) : 0 <= shr_m mrs -> shr_m (shr_1 mrs) = shr_m mrs / 2.
Proof.
  destruct mrs as [m r s]. destruct m as [|[p|p|]|p]; cbn [shr_1 shr_m]; intros H; try lia.
  - apply Z.div_unique with (r := 0); lia.
  - apply Z.div_unique with (r := 1); lia.
  - apply Z.div_unique with (r := 0); lia.
  - apply Z.div_unique with (r := 1); lia.
Qed.

Lemma pow2_xO (p : positive) : 2 ^ Z.pos p~0 = 2 ^ Z.pos p * 2 ^ Z.pos p.
Proof. rewrite <- Z.pow_add_r by lia. f_equal. lia. Qed.

Lemma pow2_xI (p : positive) : 2 ^ Z.pos p~1 = 2 * (2 ^ Z.pos p * 2 ^ Z.pos p).
Proof.
  rewrite <- Z.pow_add_r by lia.
  replace (Z.pos p~1) with (1 + (Z.pos p + Z.pos p)) by lia.
  rewrite Z.pow_add_r by lia. reflexivity.
Qed.

Lemma iter_shr_1_m (p : positive) (mrs : shr_record) :
  0 <= shr_m mrs -> shr_m (SpecFloat.iter_pos shr_1 p mrs) = shr_m mrs / 2 ^ Z.pos p.
Proof.
  revert mrs. induction p as [p IH | p IH |]; intros mrs Hm; cbn [SpecFloat.iter_pos].
  - assert (H1 : 0 <= shr_m (shr_1 mrs)).
    { rewrite shr_1_m by done. apply Z.div_pos; lia. }
    assert (H2 : 0 <= shr_m (SpecFloat.iter_pos shr_1 p (shr_1 mrs))).
    { rewrite IH by done. apply Z.div_pos; lia. }
    rewrite IH, IH, shr_1_m by done.
    rewrite !Z.div_div by lia. by rewrite pow2_xI.
  - assert (H2 : 0 <= shr_m (SpecFloat.iter_pos shr_1 p mrs)).
    { rewrite IH by done. apply Z.div_pos; lia. }
    rewrite IH, IH by done.
    rewrite !Z.div_div by lia. by rewrite pow2_xO.
  - rewrite shr_1_m by done. reflexivity.
Qed.

Lemma shr_record_of_loc_m (m : Z) (l : location) : shr_m (shr_record_of_loc m l) = m.
Proof. destruct l as [|[]]; reflexivity. Qed.

Lemma shr_spec (mrs : shr_record) (e n : Z) :
  0 <= shr_m mrs ->
  shr_m (shr mrs e n).1 = shr_m mrs / 2 ^ Z.max n 0 /\ (shr mrs e n).2 = e + Z.max n 0.
Proof.
  intros Hm. destruct n as [|p|p]; cbn [shr fst snd].
  - rewrite Z.div_1_r. lia.
  - rewrite iter_shr_1_m by done. split; [reflexivity | lia].
  - rewrite Z.div_1_r. lia.
Qed.

Lemma round_nearest_even_bounds (m : Z) (l : location) :
  m <= round_nearest_even m l <= m + 1.
Proof.
  destruct l as [|[]]; cbn; try lia. destruct (Z.even m); lia.
Qed.

(** One rounding stage on a positive mantissa that is not in the
    subnormal range keeps it positive. *)
Lemma shr_fexp_pos (m : positive) (e : Z) (l : location) :
  -1074 <= e ->
  let r := shr_fexp prec emax (Z.pos m) e l in
  1 <= shr_m r.1 <= Z.pos m
  /\ e <= r.2 <= e + Z.max (Z.pos (digits2_pos m) - 53) 0.
Proof.
  intros He r. subst r. unfold shr_fexp.
  set (n := fexp prec emax (Zdigits2 (Z.pos m) + e) - e).
  destruct (shr_spec (shr_record_of_loc (Z.pos m) l) e n) as [Hm' He'].
  { rewrite shr_record_of_loc_m. lia. }
  rewrite Hm', He', shr_record_of_loc_m.
  destruct (digits_bounds m) as [Hlo Hhi].
  set (D := Z.pos (digits2_pos m)) in *.
  assert (Hn : Z.max n 0 <= Z.max (D - 53) 0 /\ Z.max n 0 < D).
  { subst n. unfold fexp, SpecFloat.emin, prec, emax. cbn [Zdigits2]. fold D. lia. }
  assert (Hpow : 2 * 2 ^ Z.max n 0 <= 2 ^ D).
  { replace (2 * 2 ^ Z.max n 0) with (2 ^ (Z.max n 0 + 1))
      by (rewrite Z.pow_add_r by lia; lia).
    apply Z.pow_le_mono_r; lia. }
  assert (0 < 2 ^ Z.max n 0) by (apply Z.pow_pos_nonneg; lia).
  split; [| lia]. split.
  - apply Z.div_le_lower_bound; lia.
  - apply Z.div_le_upper_bound; nia.
Qed.

Lemma binary_round_aux_posfin (m : positive) (e : Z) (l : location) :
  -1074 <= e <= 0 -> Z.pos (digits2_pos m) <= 64 ->
  sf_posfin (binary_round_aux prec emax false (Z.pos m) e l).
Proof.
  intros He HD. unfold binary_round_aux.
  pose proof (shr_fexp_pos m e l ltac:(lia)) as H1. cbv zeta in H1.
  destruct (shr_fexp prec emax (Z.pos m) e l) as [mrs' e']. cbn [fst snd] in H1.
  pose proof (round_nearest_even_bounds (shr_m mrs') (loc_of_shr_record mrs')) as Hr.
  destruct (round_nearest_even (shr_m mrs') (loc_of_shr_record mrs')) as [|m2|m2]; try lia.
  pose proof (shr_fexp_pos m2 e' loc_Exact ltac:(lia)) as H2. cbv zeta in H2.
  destruct (shr_fexp prec emax (Z.pos m2) e' loc_Exact) as [mrs'' e'']. cbn [fst snd] in H2.
  assert (HD2 : Z.pos (digits2_pos m2) <= 65).
  { apply digits_le. destruct (digits_bounds m) as [_ Hhi].
    assert (2 ^ Z.pos (digits2_pos m) <= 2 ^ 64) by (apply Z.pow_le_mono_r; lia).
    change (2 ^ 65) with (2 * 2 ^ 64). lia. }
  destruct (shr_m mrs'') as [|m3|m3]; try lia.
  destruct (Z.leb_spec e'' (emax - prec)) as [|Hbig]; [exact I |].
  unfold emax, prec in Hbig. lia.
Qed.

Lemma shr_fexp_nonneg (m e : Z) (l : location) :
  0 <= m -> 0 <= shr_m (shr_fexp prec emax m e l).1.
Proof.
  intros Hm. unfold shr_fexp.
  destruct (shr_spec (shr_record_of_loc m l) e (fexp prec emax (Zdigits2 m + e) - e)) as [Hm' _].
  { by rewrite shr_record_of_loc_m. }
  rewrite Hm', shr_record_of_loc_m. apply Z.div_pos; [done |].
  apply Z.pow_pos_nonneg; lia.
Qed.

Lemma binary_round_aux_nn (m e : Z) (l : location) :
  0 <= m -> sf_nn (binary_round_aux prec emax false m e l).
Proof.
  intros Hm. unfold binary_round_aux.
  pose proof (shr_fexp_nonneg m e l Hm) as H1.
  destruct (shr_fexp prec emax m e l) as [mrs' e']. cbn [fst] in H1.
  pose proof (round_nearest_even_bounds (shr_m mrs') (loc_of_shr_record mrs')) as Hr.
  pose proof (shr_fexp_nonneg (round_nearest_even (shr_m mrs') (loc_of_shr_record mrs'))
                e' loc_Exact ltac:(lia)) as H2.
  destruct (shr_fexp prec emax _ e' loc_Exact) as [mrs'' e'']. cbn [fst] in H2.
  destruct (shr_m mrs'') as [|m3|m3]; [exact I | | lia].
  destruct (_ <=? _); exact I.
Qed.

Lemma pos_iter_xO (m p : positive) : Z.pos (Pos.iter xO m p) = Z.pos m * 2 ^ Z.pos p.
Proof.
  induction p as [|p IH] using Pos.peano_ind.
  - cbn. lia.
  - rewrite Pos.iter_succ, Pos2Z.inj_xO, IH, Pos2Z.inj_succ, Z.pow_succ_r by lia. lia.
Qed.

Lemma binary_normalize_posfin (z : Z) :
  0 < z < 2 ^ 64 -> sf_posfin (binary_normalize prec emax z 0 false).
Proof.
  intros Hz. destruct z as [|m|m]; try lia.
  cbn [binary_normalize]. unfold binary_round, shl_align.
  destruct (digits_bounds m) as [Hlo Hhi].
  assert (HD : Z.pos (digits2_pos m) <= 64) by (apply digits_le; lia).
  set (D := Z.pos (digits2_pos m)) in *.
  assert (Hf : fexp prec emax (D + 0) = D - 53).
  { unfold fexp, SpecFloat.emin, prec, emax. lia. }
  rewrite Hf.
  destruct (D - 53 - 0) as [|d|d] eqn:Hd.
  - apply binary_round_aux_posfin; [lia | done].
  - apply binary_round_aux_posfin; [lia | done].
  - apply binary_round_aux_posfin; [lia |].
    apply digits_le. rewrite pos_iter_xO.
    assert (Hd' : Z.pos d = 53 - D) by lia.
    assert (2 ^ D * 2 ^ Z.pos d = 2 ^ 53).
    { rewrite <- Z.pow_add_r by lia. f_equal. lia. }
    assert (0 < 2 ^ Z.pos d) by (apply Z.pow_pos_nonneg; lia).
    assert (2 ^ 53 < 2 ^ 64) by reflexivity. nia.
Qed.

Lemma binary_normalize_valid (z : Z) :
  0 <= z < 2 ^ 63 -> valid_binary (binary_normalize prec emax z 0 false) = true.
Proof.
  intros Hz. pose proof (Prim2SF_valid (of_uint63 (Uint63.of_Z z))) as Hv.
  rewrite of_uint63_spec, Uint63.of_Z_spec in Hv.
  rewrite Z.mod_small in Hv; [exact Hv |]. exact Hz.
Qed.

Lemma Prim2SF_of_int (z : Z) :
  0 <= z < 2 ^ 63 -> Prim2SF (GoMath.of_int z) = binary_normalize prec emax z 0 false.
Proof. intros Hz. unfold GoMath.of_int. by apply Prim2SF_SF2Prim, binary_normalize_valid. Qed.

Lemma of_int_posfin (z : Z) : 0 < z < 2 ^ 63 -> sf_posfin (Prim2SF (GoMath.of_int z)).
Proof.
  intros Hz. rewrite Prim2SF_of_int by lia. apply binary_normalize_posfin.
  assert (2 ^ 63 < 2 ^ 64) by reflexivity. lia.
Qed.

Lemma of_int_nn (z : Z) : 0 <= z < 2 ^ 63 -> sf_nn (Prim2SF (GoMath.of_int z)).
Proof.
  intros Hz. destruct (Z.eq_dec z 0) as [-> | Hne]; [exact I |].
  pose proof (of_int_posfin z ltac:(lia)) as H.
  destruct (Prim2SF (GoMath.of_int z)) as [[]|[]| |[] ? ?]; done.
Qed.

Lemma sf_posfin_nn (s : spec_float) : sf_posfin s -> sf_nn s.
Proof. destruct s as [[]|[]| |[] ? ?]; done. Qed.

Lemma SFdiv_nn (x y : spec_float) :
  sf_nn x -> sf_nn y -> sf_posfin x \/ sf_posfin y -> sf_nn (SF64div x y).
Proof.
  intros Hx Hy Hxy. unfold SF64div.
  destruct x as [[]|[]| |[] mx ex], y as [[]|[]| |[] my ey]; cbn in *; try done;
    try (by destruct Hxy).
  unfold SFdiv_core_binary.
  set (m' := match _ with Z.pos _ => _ | _ => _ end).
  assert (Hm' : 0 <= m').
  { subst m'. destruct (_ - _ - _); [lia | | lia]. apply Z.shiftl_nonneg. lia. }
  pose proof (Z.div_pos m' (Z.pos my) Hm' ltac:(lia)) as Hq.
  unfold Z.div in Hq. destruct (Z.div_eucl m' (Z.pos my)) as [q r]. cbn [fst] in Hq.
  apply (binary_round_aux_nn q _ _ Hq).
Qed.

Lemma sf_pos_nn (s : spec_float) : sf_pos s -> sf_nn s.
Proof. destruct s as [[]|[]| |[] ? ?]; done. Qed.

Lemma SFeqb_refl_nn (s : spec_float) : sf_nn s -> SFeqb s s = true.
Proof.
  destruct s as [[]|[]| |[] m e]; try done. intros _.
  unfold SFeqb, SFcompare. by rewrite Z.compare_refl, Pos.compare_cont_refl.
Qed.

Lemma SFltb_leb (x y : spec_float) : SFltb x y = true -> SFleb x y = true.
Proof. unfold SFltb, SFleb. by destruct (SFcompare x y) as [[]|]. Qed.

Lemma SFleb_zero_nn (s : spec_float) : sf_nn s -> SFleb (S754_zero false) s = true.
Proof. by destruct s as [[]|[]| |[] m e]. Qed.

(** Above a value that is at least zero there are only positive values. *)
Lemma SFltb_above_nonneg (t z : spec_float) :
  SFleb (S754_zero false) t = true -> SFltb t z = true -> sf_pos z.
Proof.
  destruct t as [[]|[]| |[] mt et], z as [[]|[]| |[] mz ez]; cbn; try done.
Qed.

Lemma Min_unit_b64 (x : float) :
  sf_nn (Prim2SF x) ->
  (0 <=? GoMath.Min x 1)%float = true /\ (GoMath.Min x 1 <=? 1)%float = true.
Proof.
  intros Hx.
  assert (E1 : (x =? neg_infinity)%float = false).
  { rewrite FloatAxioms.eqb_spec. by destruct (Prim2SF x) as [[]|[]| |[] m e]. }
  assert (E2 : is_nan x = false).
  { unfold is_nan. by rewrite FloatAxioms.eqb_spec, SFeqb_refl_nn. }
  assert (E3 : ((x =? 0) && (x =? 1))%float = false).
  { rewrite !FloatAxioms.eqb_spec. by destruct (Prim2SF x) as [[]|[]| |[] m e]. }
  unfold GoMath.Min. rewrite E1, E2, E3.
  change ((1 =? neg_infinity)%float) with false. change (is_nan 1) with false. cbn [orb].
  destruct (x <? 1)%float eqn:Hlt.
  - rewrite !FloatAxioms.leb_spec. rewrite FloatAxioms.ltb_spec in Hlt. split.
    + by apply SFleb_zero_nn.
    + by apply SFltb_leb.
  - split; reflexivity.
Qed.

Lemma div_eucl_mul (a b : Z) : 0 < b -> Z.div_eucl (a * b) b = (a, 0).
Proof.
  intros Hb. pose proof (Z.div_mul a b ltac:(lia)) as Hq.
  pose proof (Z.mod_mul a b ltac:(lia)) as Hr.
  unfold Z.div, Z.modulo in Hq, Hr. destruct (Z.div_eucl (a * b) b) as [q r].
  cbn [fst snd] in Hq, Hr. congruence.
Qed.

(** A finite value divided by itself is 1. *)
Lemma SFdiv_self (m : positive) (e : Z) :
  SF64div (S754_finite false m e) (S754_finite false m e) = Prim2SF 1.
Proof.
  unfold SF64div, SFdiv, SFdiv_core_binary.
  rewrite !Z.sub_diag.
  change (Z.min (fexp prec emax 0) 0) with (-53).
  change (0 - -53) with 53.
  rewrite Z.shiftl_mul_pow2 by lia.
  rewrite (Z.mul_comm (Z.pos m)), div_eucl_mul by lia.
  assert (Hloc : new_location (Z.pos m) 0 = loc_Exact).
  { unfold new_location. destruct (Z.even (Z.pos m)); reflexivity. }
  rewrite Hloc. vm_compute. reflexivity.
Qed.

Lemma of_int_div_self (c : Z) :
  0 < c < 2 ^ 63 -> (GoMath.of_int c / GoMath.of_int c)%float = 1%float.
Proof.
  intros Hc. apply Prim2SF_inj. rewrite div_spec.
  pose proof (of_int_posfin c Hc) as Hpos.
  destruct (Prim2SF (GoMath.of_int c)) as [[]|[]| |[] m e]; try done.
  apply SFdiv_self.
Qed.


(** ** The baseline adapter leaves the rest of the detector alone *)

(** C8: [UpdateBaseline] keeps the standard deviation of the baseline (and
    the one other field it does not average, [NormalIPRatio], and the
    thresholds) exactly as they were, whatever the metrics and the prior
    baseline are. *)
Theorem UpdateBaseline_frame {F} `{Float64 F} (d : Detector F) (metrics : TrafficMetrics F) :
  StandardDeviation (baseline (UpdateBaseline d metrics)) = StandardDeviation (baseline d)
  /\ NormalIPRatio (baseline (UpdateBaseline d metrics)) = NormalIPRatio (baseline d)
  /\ thresholds (UpdateBaseline d metrics) = thresholds d.
Proof. repeat split. Qed.

(** ** The entry point *)

Lemma advances_ret {A} (x : A) : advances (mret x).
Proof. intros w. rewrite run_ret. done. Qed.

Lemma advances_bind {A B} (c : M A) (f : A -> M B) :
  advances c -> (forall x, advances (f x)) -> advances (c ≫= f).
Proof.
  intros Hc Hf w. rewrite run_bind. etransitivity; [apply Hc | apply Hf].
Qed.

Lemma ranges_bind {A B} (c : M A) (f : A -> M B) :
  ranges c -> (forall x, advances (f x)) -> ranges (c ≫= f).
Proof.
  intros Hc Hf w. rewrite run_bind.
  eapply Nat.lt_le_trans; [apply Hc | apply Hf].
Qed.

Lemma advances_after {A B} (c : M A) (f : A -> M B) :
  advances c -> (forall x, ranges (f x)) -> ranges (c ≫= f).
Proof.
  intros Hc Hf w. rewrite run_bind.
  eapply Nat.le_lt_trans; [apply Hc | apply Hf].
Qed.

Lemma ranges_advances {A} (c : M A) : ranges c -> advances c.
Proof. intros Hc w. by apply Nat.lt_le_incl. Qed.

Lemma ranges_range_map {V} (m : gmap string V) : ranges (range_map m).
Proof. intros w. unfold range_map. cbn. lia. Qed.

Lemma advances_uuid_New : advances uuid_New.
Proof. intros w. unfold uuid_New. cbn. lia. Qed.

Lemma advances_time_Now : advances time_Now.
Proof. intros w. unfold time_Now. cbn. lia. Qed.

Section cursor.

Context {F : Type} `{Float64 F}.

Ltac advance :=
  repeat first
    [ apply advances_ret
    | apply advances_uuid_New
    | apply advances_time_Now
    | apply ranges_advances, ranges_range_map
    | apply advances_bind; [| intros ?]
    | match goal with
      | |- advances (if ?b then _ else _) => destruct b
      | |- advances (let '(_, _) := ?p in _) => destruct p
      end ].

Lemma ranges_calculateEntropy (counts : gmap string Z) : ranges (calculateEntropy counts).
Proof.
  unfold calculateEntropy. apply ranges_bind; [apply ranges_range_map |].
  intros es. advance.
Qed.

Lemma advances_getTopIPs (counts : gmap string Z) (n : nat) : advances (getTopIPs counts n).
Proof. unfold getTopIPs. advance. Qed.

Lemma ranges_calculateMetrics (requests : list TrafficRequest) :
  ranges (calculateMetrics requests).
Proof.
  unfold calculateMetrics. apply ranges_bind; [apply ranges_calculateEntropy |].
  intros e. apply advances_bind; [apply ranges_advances, ranges_calculateEntropy |].
  intros e'. apply advances_ret.
Qed.

Lemma advances_detectSYNFlood d requests metrics :
  advances (detectSYNFlood d requests metrics).
Proof. unfold detectSYNFlood. advance. Qed.

Lemma advances_detectHTTPFlood d requests metrics :
  advances (detectHTTPFlood d requests metrics).
Proof. unfold detectHTTPFlood. advance; apply advances_getTopIPs. Qed.

Lemma advances_detectSlowloris d requests metrics :
  advances (detectSlowloris d requests metrics).
Proof. unfold detectSlowloris. advance. Qed.

Lemma advances_detectUDPFlood d requests metrics :
  advances (detectUDPFlood d requests metrics).
Proof. unfold detectUDPFlood. advance; apply advances_getTopIPs. Qed.

Lemma advances_detectRateAnomaly d metrics :
  advances (detectRateAnomaly d metrics).
Proof. unfold detectRateAnomaly. advance; apply advances_getTopIPs. Qed.

End cursor.

(** C9: on the empty batch [AnalyzeTraffic] returns the empty list and
    leaves the world as it found it: no map was ranged over (so no metrics
    and no entropy were computed), no identifier was drawn and the clock was
    not read (so no detector produced anything).  It is the empty batch
    alone that is skipped: on any other batch the aggregator runs, and the
    world records that maps were visited. *)
Theorem AnalyzeTraffic_empty {F} `{Float64 F} (d : Detector F) (w : World) :
  AnalyzeTraffic d [] w = ([], w)
  /\ forall requests, requests <> [] ->
       (order_n w < order_n (AnalyzeTraffic d requests w).2)%nat.
Proof.
  split; [reflexivity |]. intros requests Hne. revert w.
  change (ranges (AnalyzeTraffic d requests)). unfold AnalyzeTraffic.
  destruct (Z.eqb_spec (len requests) 0) as [E | _].
  { destruct requests; [done | unfold len in E; simpl in E; lia]. }
  apply ranges_bind; [apply ranges_calculateMetrics |]. intros metrics.
  apply advances_bind; [apply advances_detectSYNFlood |]. intros a1.
  apply advances_bind; [apply advances_detectHTTPFlood |]. intros a2.
  apply advances_bind; [apply advances_detectSlowloris |]. intros a3.
  apply advances_bind; [apply advances_detectUDPFlood |]. intros a4.
  apply advances_bind; [apply advances_detectRateAnomaly |]. intros a5.
  apply advances_ret.
Qed.

(** [AnalyzeTraffic_empty] on the empty batch and on a batch of three
    records. *)
Lemma AnalyzeTraffic_empty_witness :
  AnalyzeTraffic (F := float) NewDetector [] Examples.w0 = ([], Examples.w0)
  /\ http_3 <> []
  /\ (order_n Examples.w0 < order_n (AnalyzeTraffic (F := float) NewDetector http_3 Examples.w0).2)%nat.
Proof.
  assert (Hne : http_3 <> []) by discriminate.
  split; [exact (proj1 (AnalyzeTraffic_empty NewDetector Examples.w0)) |].
  split; [exact Hne |].
  exact (proj2 (AnalyzeTraffic_empty NewDetector Examples.w0) http_3 Hne).
Defined.

Section types.

Context {F : Type} `{Float64 F}.

Ltac run_detector :=
  repeat first
    [ progress rewrite ?run_bind, ?run_ret
    | progress cbn [fst snd]
    | match goal with
      | |- context [if ?b then _ else _] => destruct b
      | |- context [let '(_, _) := ?p in _] => destruct p
      end ].

Lemma detectSYNFlood_type d requests metrics w :
  forall a, (detectSYNFlood d requests metrics w).1 = Some a -> Attack_Type a = "SYN_FLOOD".
Proof.
  intros a. unfold detectSYNFlood. run_detector; intros E; inversion E; reflexivity.
Qed.

Lemma detectHTTPFlood_type d requests metrics w :
  forall a, (detectHTTPFlood d requests metrics w).1 = Some a -> Attack_Type a = "HTTP_FLOOD".
Proof.
  intros a. unfold detectHTTPFlood. run_detector; intros E; inversion E; reflexivity.
Qed.

Lemma detectSlowloris_type d requests metrics w :
  forall a, (detectSlowloris d requests metrics w).1 = Some a -> Attack_Type a = "SLOWLORIS".
Proof.
  intros a. unfold detectSlowloris. run_detector; intros E; inversion E; reflexivity.
Qed.

Lemma detectUDPFlood_type d requests metrics w :
  forall a, (detectUDPFlood d requests metrics w).1 = Some a -> Attack_Type a = "UDP_FLOOD".
Proof.
  intros a. unfold detectUDPFlood. run_detector; intros E; inversion E; reflexivity.
Qed.

Lemma detectRateAnomaly_type d metrics w :
  forall a, (detectRateAnomaly d metrics w).1 = Some a -> Attack_Type a = "RATE_ANOMALY".
Proof.
  intros a. unfold detectRateAnomaly. run_detector; intros E; inversion E; reflexivity.
Qed.

(** What [AnalyzeTraffic] returns on a batch that is not empty: the
    findings of the five detectors, each run on the metrics of the batch,
    in the order of the calls. *)
Lemma AnalyzeTraffic_unfold d requests w :
  requests <> [] ->
  exists metrics w1 w2 w3 w4 w5,
    (AnalyzeTraffic d requests w).1 =
      append_found (append_found (append_found (append_found (append_found []
        (detectSYNFlood d requests metrics w1).1)
        (detectHTTPFlood d requests metrics w2).1)
        (detectSlowloris d requests metrics w3).1)
        (detectUDPFlood d requests metrics w4).1)
        (detectRateAnomaly d metrics w5).1
    /\ metrics = (calculateMetrics requests w).1.
Proof.
  intros Hne. unfold AnalyzeTraffic.
  destruct (len requests =? 0) eqn:E.
  - apply Z.eqb_eq in E. destruct requests; [done | unfold len in E; simpl in E; lia].
  - rewrite !run_bind, run_ret. cbn [fst snd]. eauto 10.
Qed.

End types.

(** Appending an optional finding adds its type tag, or nothing. *)
Lemma append_found_types {F} (attacks : list (Attack F)) (o : option (Attack F)) (tag : string) :
  (forall a, o = Some a -> Attack_Type a = tag) ->
  Attack_Type <$> append_found attacks o = (Attack_Type <$> attacks) ++
    match o with Some _ => [tag] | None => [] end.
Proof.
  intros Htag. destruct o as [a|]; simpl.
  - rewrite fmap_app. simpl. by rewrite (Htag a).
  - by rewrite app_nil_r.
Qed.

(** C10: whatever the batch, the detector and the world, the type tags of
    the list [AnalyzeTraffic] returns are a subsequence of SYN_FLOOD,
    HTTP_FLOOD, SLOWLORIS, UDP_FLOOD, RATE_ANOMALY: the findings come in that
    fixed order, no tag occurs twice, and there are at most five of them. *)
Theorem AnalyzeTraffic_order {F} `{Float64 F} (d : Detector F)
    (requests : list TrafficRequest) (w : World) :
  let types := Attack_Type <$> (AnalyzeTraffic d requests w).1 in
  sublist types detector_sequence /\ NoDup types /\ (length types <= 5)%nat.
Proof.
  intros types.
  assert (Hsub : sublist types detector_sequence).
  { subst types. destruct requests as [|r requests].
    - apply sublist_nil_l.
    - destruct (AnalyzeTraffic_unfold d (r :: requests) w) as
        (metrics & w1 & w2 & w3 & w4 & w5 & -> & _); [done |].
      rewrite (append_found_types _ _ "RATE_ANOMALY") by apply detectRateAnomaly_type.
      rewrite (append_found_types _ _ "UDP_FLOOD") by apply detectUDPFlood_type.
      rewrite (append_found_types _ _ "SLOWLORIS") by apply detectSlowloris_type.
      rewrite (append_found_types _ _ "HTTP_FLOOD") by apply detectHTTPFlood_type.
      rewrite (append_found_types _ _ "SYN_FLOOD") by apply detectSYNFlood_type.
      unfold detector_sequence.
      destruct (detectSYNFlood _ _ _ _).1, (detectHTTPFlood _ _ _ _).1,
        (detectSlowloris _ _ _ _).1, (detectUDPFlood _ _ _ _).1,
        (detectRateAnomaly _ _ _).1; simpl; repeat constructor. }
  split; [exact Hsub | split].
  - eapply sublist_NoDup; [| exact Hsub].
    apply (bool_decide_unpack _). vm_compute. exact I.
  - apply sublist_length in Hsub. exact Hsub.
Qed.

(** ** The rate-anomaly detector *)

(** C5: [detectRateAnomaly] computes z = (total - average) / deviation and
    returns a finding exactly when z is above the z-score threshold and the
    source entropy of the metrics is below the entropy floor; the finding
    then carries confidence Min(z / 6, 1) and the severity of that
    confidence.  On binary64, with the seed baseline (average 100, deviation
    15) and thresholds (z 3.0, entropy floor 3.0): a window of 200 records
    with source entropy 1.0 gives a finding of confidence 1.0 and severity
    CRITICAL, and the same window with source entropy 6.0 gives none. *)
Theorem detectRateAnomaly_spec :
  (forall (F : Type) (FF : Float64 F) (d : Detector F) (metrics : TrafficMetrics F) (w : World),
     let z := (ofInt (TotalRequests metrics) -! AverageRequestRate (baseline d))
              /! StandardDeviation (baseline d) in
     let fires := (z >! RequestRateZScore (thresholds d))
                  && (IPEntropy metrics <! IPEntropyMin (thresholds d)) in
     match (detectRateAnomaly d metrics w).1 with
     | Some a =>
         fires = true
         /\ Attack_Type a = "RATE_ANOMALY"
         /\ Confidence a = Min (z /! ofInt 6) (ofInt 1)
         /\ Severity a = getSeverity (Confidence a)
     | None => fires = false
     end)
  /\ (exists a,
        (detectRateAnomaly (F := float) NewDetector (Examples.window 200 1 1%float) Examples.w0).1
          = Some a
        /\ Confidence a = 1%float /\ Severity a = "CRITICAL")
  /\ (detectRateAnomaly (F := float) NewDetector (Examples.window 200 1 6%float) Examples.w0).1
       = None.
Proof.
  split; [| split].
  - intros F FF d metrics w z fires. subst z fires. unfold detectRateAnomaly.
    destruct (_ >! RequestRateZScore _); cbn [andb]; [| reflexivity].
    destruct (IPEntropy metrics <! _); [| reflexivity].
    rewrite !run_bind, run_ret. cbn [fst snd]. auto.
  - eexists. split; [vm_compute; reflexivity |]. split; vm_compute; reflexivity.
  - vm_compute. reflexivity.
Qed.

(** ** The baseline adapter *)

(** In exact arithmetic the decimal constants are the fractions they name. *)
Lemma exact_lit (n d : Z) : lit (F := R) n d = (IZR n / IZR d)%R.
Proof. reflexivity. Qed.

(** Rounding toward zero of a tenth of an integer is the truncating quotient. *)
Lemma exact_to_int_tenth (k : Z) : Exact.to_int (IZR k / 10)%R = k ÷ 10.
Proof.
  unfold Exact.to_int.
  pose proof (Z.quot_rem' k 10) as Hk.
  destruct (Rle_dec 0 (IZR k / 10)) as [Hpos | Hneg].
  - assert (0 <= k).
    { apply le_IZR. lra. }
    pose proof (Z.rem_bound_pos k 10 ltac:(lia) ltac:(lia)) as Hr.
    symmetry. apply Int_part_spec.
    assert (E : IZR k = (10 * IZR (k ÷ 10) + IZR (Z.rem k 10))%R).
    { rewrite <- mult_IZR, <- plus_IZR. f_equal. exact Hk. }
    assert (0 <= IZR (Z.rem k 10) <= 9)%R.
    { split; apply IZR_le; lia. }
    lra.
  - assert (k < 0).
    { apply lt_IZR. lra. }
    assert (Hr : -9 <= Z.rem k 10 <= 0).
    { pose proof (Z.rem_bound_abs k 10 ltac:(lia)).
      pose proof (Z.rem_sign_mul k 10 ltac:(lia)). nia. }
    assert (Hi : - (k ÷ 10) = Int_part (- (IZR k / 10))).
    { apply Int_part_spec.
      assert (E : IZR k = (10 * IZR (k ÷ 10) + IZR (Z.rem k 10))%R).
      { rewrite <- mult_IZR, <- plus_IZR. f_equal. exact Hk. }
      assert (-9 <= IZR (Z.rem k 10) <= 0)%R.
      { split; apply IZR_le; lia. }
      rewrite opp_IZR. lra. }
    rewrite <- Hi. lia.
Qed.

(** C7, a counterexample: with the seed baseline (50 distinct sources
    on average) and a window with 55 distinct sources, the new average is
    not 0.1 * 55 + 0.9 * 50 = 50.5: the field is an int and holds 50. *)
Lemma UpdateBaseline_unique_ips_not_ema :
  let d' := UpdateBaseline (F := float) NewDetector (Examples.window 200 55 1%float) in
  AverageUniqueIPs (baseline d') = 50
  /\ ofInt (F := float) (AverageUniqueIPs (baseline d'))
     <> lit 1 10 *! ofInt 55 +! (ofInt 1 -! lit 1 10) *! ofInt 50.
Proof.
  split; [vm_compute; reflexivity |].
  intros E.
  pose proof (f_equal (fun x : float => PrimFloat.ltb x 50.25%float) E) as E'.
  vm_compute in E'. discriminate.
Qed.

(** C7 (amended): [UpdateBaseline] sets the average request rate (from the
    total record count of the window), the average source entropy and the
    average connection duration to alpha * current + (1 - alpha) * old with
    alpha = 0.1, each from its own old value; the average unique-source count
    is that same expression converted to an int, that is rounded toward zero
    (in exact arithmetic, the truncating quotient of current + 9 * old by
    10).  On binary64, from the seed average request rate 100 one window of
    200 records gives 110.  In exact arithmetic, after n identical windows
    the distance of the average request rate to the window total is 0.9^n
    times the initial distance. *)
Theorem UpdateBaseline_spec :
  (forall (F : Type) (FF : Float64 F) (d : Detector F) (metrics : TrafficMetrics F),
     let alpha : F := lit 1 10 in
     let b := baseline d in
     let b' := baseline (UpdateBaseline d metrics) in
     AverageRequestRate b'
       = alpha *! ofInt (TotalRequests metrics) +! (ofInt 1 -! alpha) *! AverageRequestRate b
     /\ AverageUniqueIPs b'
       = toInt (alpha *! ofInt (UniqueIPs metrics) +! (ofInt 1 -! alpha) *! ofInt (AverageUniqueIPs b))
     /\ AverageIPEntropy b'
       = alpha *! IPEntropy metrics +! (ofInt 1 -! alpha) *! AverageIPEntropy b
     /\ AvgConnectionDuration b'
       = alpha *! AvgConnDuration metrics +! (ofInt 1 -! alpha) *! AvgConnectionDuration b)
  /\ (forall (d : Detector R) (metrics : TrafficMetrics R),
        AverageUniqueIPs (baseline (UpdateBaseline d metrics))
        = (UniqueIPs metrics + 9 * AverageUniqueIPs (baseline d)) ÷ 10)
  /\ AverageRequestRate
       (baseline (UpdateBaseline (F := float) NewDetector (Examples.window 200 55 1%float)))
     = 110%float
  /\ (forall (d : Detector R) (metrics : TrafficMetrics R) (n : nat),
        (AverageRequestRate (baseline (UpdateBaseline_n n d metrics))
         - IZR (TotalRequests metrics)
         = (9 / 10) ^ n * (AverageRequestRate (baseline d) - IZR (TotalRequests metrics)))%R).
Proof.
  split; [| split; [| split]].
  - intros F FF d metrics. cbv zeta. repeat split.
  - intros d metrics. cbn [UpdateBaseline baseline AverageUniqueIPs].
    rewrite exact_lit. cbn [ofInt toInt fadd fsub fmul exact].
    rewrite <- exact_to_int_tenth. f_equal.
    rewrite plus_IZR, mult_IZR. lra.
  - vm_compute. reflexivity.
  - intros d metrics n. induction n as [|n IH].
    + simpl. lra.
    + unfold UpdateBaseline_n in *. rewrite Nat.iter_succ.
      cbn [UpdateBaseline baseline AverageRequestRate].
      rewrite exact_lit. cbn [ofInt fadd fsub fmul exact].
      rewrite <- tech_pow_Rmult.
      set (r := AverageRequestRate _) in *.
      set (t := IZR (TotalRequests metrics)) in *. clearbody r t.
      replace (1 / 10 * t + (1 - 1 / 10) * r - t)%R with (9 / 10 * (r - t))%R by lra.
      rewrite IH. ring.
Qed.

(** ** What the tallies count *)

Lemma wrap64_id (z : Z) : in_int z -> wrap64 z = z.
Proof.
  unfold in_int, int_min, int_max, wrap64. intros Hz.
  rewrite Z.mod_small by lia. lia.
Qed.

Lemma wrap64_twice (floor : Z) : - 2 ^ 62 <= floor < 2 ^ 62 -> wrap64 (floor * 2) = 2 * floor.
Proof. intros Hf. rewrite wrap64_id; [lia | unfold in_int, int_min, int_max; lia]. Qed.

Lemma tagged_cons (proto : string) (r : TrafficRequest) (l : list TrafficRequest) :
  tagged proto (r :: l) = if bool_decide (Protocol r = proto) then r :: tagged proto l
                          else tagged proto l.
Proof.
  unfold tagged. rewrite filter_cons. case_bool_decide; case_decide; done.
Qed.

Lemma synCount_foldl (requests : list TrafficRequest) (t : tallies) :
  synCount (foldl tally t requests) = synCount t + len (tagged "TCP_SYN" requests).
Proof.
  revert t. induction requests as [|r requests IH]; intros t.
  - unfold len. simpl. lia.
  - cbn [foldl]. rewrite IH, tagged_cons. cbn [tally synCount].
    case_bool_decide; unfold len; simpl; lia.
Qed.

Lemma synCount_tally_all (requests : list TrafficRequest) :
  synCount (tally_all requests) = len (tagged "TCP_SYN" requests).
Proof. unfold tally_all. rewrite synCount_foldl. simpl. lia. Qed.

Lemma calculateMetrics_SYNPacketCount {F} `{Float64 F} (requests : list TrafficRequest) (w : World) :
  SYNPacketCount (calculateMetrics requests w).1 = len (tagged "TCP_SYN" requests).
Proof.
  unfold calculateMetrics. rewrite !run_bind, run_ret. cbn [fst SYNPacketCount].
  apply synCount_tally_all.
Qed.

Lemma synIPs_foldl (requests : list TrafficRequest) (m : gmap string bool) :
  dom (foldl (fun (m : gmap string bool) req =>
                if bool_decide (Protocol req = "TCP_SYN") then <[SourceIP req := true]> m else m)
             m requests)
  = dom m ∪ list_to_set (C := gset string) (SourceIP <$> tagged "TCP_SYN" requests).
Proof.
  revert m. induction requests as [|r requests IH]; intros m.
  - simpl. set_solver.
  - cbn [foldl]. rewrite IH, tagged_cons. case_bool_decide.
    + rewrite dom_insert_L, fmap_cons, list_to_set_cons. set_solver.
    + reflexivity.
Qed.

Lemma len_synIPs_of (requests : list TrafficRequest) :
  len_map (synIPs_of requests) = distinct_sources (tagged "TCP_SYN" requests).
Proof.
  unfold len_map, distinct_sources, synIPs_of. f_equal.
  rewrite <- size_dom, synIPs_foldl, dom_empty_L. f_equal. set_solver.
Qed.

(** ** The SYN-flood detector *)

(** C1, a counterexample: on the instance the specification gives (1500
    TCP_SYN records from three addresses, floor 1000, binary64) the finding
    has confidence 0.75 and, 0.75 being at least 0.7, severity HIGH; no
    finding of severity MEDIUM is returned.  And with exactly as many
    TCP_SYN records as the floor (1000, from one address) no finding is
    returned: the count passes the first test ([<]) and fails the second
    ([>]). *)
Lemma detectSYNFlood_medium_and_boundary :
  (let metrics := (calculateMetrics (F := float) Examples.syn_1500 Examples.w0).1 in
   ~ exists a,
       (detectSYNFlood NewDetector Examples.syn_1500 metrics Examples.w0).1 = Some a
       /\ Confidence a = 0.75%float /\ Severity a = "MEDIUM")
  /\ (let batch := replicate 1000 (Examples.request "10.1.1.1" "TCP_SYN" "" 1) in
      len (tagged "TCP_SYN" batch) = 1000
      /\ distinct_sources (tagged "TCP_SYN" batch) = 1
      /\ (detectSYNFlood (F := float) NewDetector batch
            (calculateMetrics batch Examples.w0).1 Examples.w0).1 = None).
Proof.
  split.
  - intros metrics (a & Ha & _ & Hsev). subst metrics.
    vm_compute in Ha. injection Ha as <-. vm_compute in Hsev. discriminate.
  - repeat split; vm_compute; reflexivity.
Qed.

(** C1 (amended): run on the metrics of the batch, [detectSYNFlood] returns
    a finding when the number of TCP_SYN records is above the floor and
    they come from fewer than 10 distinct addresses, and returns none when
    that number is below the floor or the addresses are 10 or more; a
    finding has type SYN_FLOOD, confidence Min(synCount / (2 * floor), 1)
    and the severity of that confidence.  On binary64, 1500 TCP_SYN records
    from three addresses with floor 1000 give confidence 0.75 and severity
    HIGH. *)
Theorem detectSYNFlood_spec :
  (forall (F : Type) (FF : Float64 F) (d : Detector F) (requests : list TrafficRequest)
          (w w' : World),
     let metrics := (calculateMetrics requests w).1 in
     let floor := SYNFloodThreshold (thresholds d) in
     let synCount := len (tagged "TCP_SYN" requests) in
     let distinct := distinct_sources (tagged "TCP_SYN" requests) in
     - 2 ^ 62 <= floor < 2 ^ 62 ->
     (floor < synCount /\ distinct < 10 ->
        exists a,
          (detectSYNFlood d requests metrics w').1 = Some a
          /\ Attack_Type a = "SYN_FLOOD"
          /\ Confidence a = Min (ofInt synCount /! ofInt (2 * floor)) (ofInt 1)
          /\ Severity a = getSeverity (Confidence a))
     /\ (synCount < floor \/ 10 <= distinct ->
           (detectSYNFlood d requests metrics w').1 = None))
  /\ (exists a,
        (detectSYNFlood (F := float) NewDetector Examples.syn_1500
           (calculateMetrics Examples.syn_1500 Examples.w0).1 Examples.w0).1 = Some a
        /\ Confidence a = 0.75%float /\ Severity a = "HIGH").
Proof.
  split.
  - intros F FF d requests w w' metrics floor synCount distinct Hfloor.
    assert (Hs : SYNPacketCount metrics = synCount)
      by apply calculateMetrics_SYNPacketCount.
    pose proof (len_synIPs_of requests) as Hd. fold distinct in Hd.
    unfold detectSYNFlood. rewrite Hs, Hd. fold floor.
    split.
    + intros [Hc Hfew].
      destruct (Z.ltb_spec synCount floor); [lia |].
      destruct (Z.ltb_spec floor synCount); [| lia].
      destruct (Z.ltb_spec distinct 10); [| lia].
      cbn [andb]. rewrite !run_bind, run_ret. cbn [fst snd].
      eexists. split; [reflexivity |].
      cbn [Attack_Type Confidence Severity].
      rewrite (wrap64_twice floor Hfloor). auto.
    + intros Hno.
      destruct (Z.ltb_spec synCount floor); [reflexivity |].
      destruct (Z.ltb_spec floor synCount); [| reflexivity].
      destruct (Z.ltb_spec distinct 10); [lia | reflexivity].
  - eexists. split; [vm_compute; reflexivity |]. split; vm_compute; reflexivity.
Qed.

(** The general part of [detectSYNFlood_spec] at the seed detector and the
    batch of 1500 records. *)
Lemma detectSYNFlood_spec_witness :
  - 2 ^ 62 <= 1000 < 2 ^ 62
  /\ (1000 < len (tagged "TCP_SYN" Examples.syn_1500)
      /\ distinct_sources (tagged "TCP_SYN" Examples.syn_1500) < 10)
  /\ exists a,
       (detectSYNFlood (F := float) NewDetector Examples.syn_1500
          (calculateMetrics Examples.syn_1500 Examples.w0).1 Examples.w0).1 = Some a
       /\ Attack_Type a = "SYN_FLOOD"
       /\ Confidence a
          = Min (ofInt (len (tagged "TCP_SYN" Examples.syn_1500)) /! ofInt (2 * 1000)) (ofInt 1)
       /\ Severity a = getSeverity (Confidence a).
Proof.
  assert (Hfloor : - 2 ^ 62 <= 1000 < 2 ^ 62) by lia.
  assert (Hfires : 1000 < len (tagged "TCP_SYN" Examples.syn_1500)
                   /\ distinct_sources (tagged "TCP_SYN" Examples.syn_1500) < 10)
    by (split; vm_compute; reflexivity).
  split; [exact Hfloor |]. split; [exact Hfires |].
  exact (proj1 (proj1 detectSYNFlood_spec float binary64 NewDetector Examples.syn_1500
                  Examples.w0 Examples.w0 Hfloor) Hfires).
Defined.

(** ** The order of a [range] *)

Lemma insert_at_perm {A} (n : nat) (x : A) (l : list A) : insert_at n x l ≡ₚ x :: l.
Proof.
  unfold insert_at. rewrite <- Permutation_middle. by rewrite take_drop.
Qed.

Lemma shuffle_perm {A} (code : list nat) (l : list A) : shuffle code l ≡ₚ l.
Proof.
  revert code. induction l as [|x l IH]; intros code; simpl; [done |].
  rewrite insert_at_perm. by rewrite IH.
Qed.

(** Every order is the order of some world. *)
Lemma shuffle_complete {A} (l l' : list A) : l ≡ₚ l' -> exists code, shuffle code l = l'.
Proof.
  revert l'. induction l as [|x l IH]; intros l' Hp.
  - apply Permutation_nil_l in Hp. subst l'. by exists [].
  - assert (Hx : x ∈ l') by (rewrite <- Hp; left).
    apply list_elem_of_split in Hx as (l1 & l2 & ->).
    apply Permutation_cons_app_inv in Hp.
    destruct (IH _ Hp) as [code Hcode].
    exists (length l1 :: code). simpl. rewrite Hcode. unfold insert_at.
    by rewrite take_app_length, drop_app_length.
Qed.

Lemma range_map_perm {V} (m : gmap string V) (w : World) : (range_map m w).1 ≡ₚ map_to_list m.
Proof. apply shuffle_perm. Qed.

(** ** The selection of [getTopIPs] *)

(** A loop over [s, s+1, ..., s+m-1] keeps an invariant indexed by the next
    value of the loop variable. *)
Lemma foldl_seq_invariant {A} (P : nat -> A -> Prop) (f : A -> nat -> A) (a : A) (s m : nat) :
  P s a ->
  (forall j x, (s <= j < s + m)%nat -> P j x -> P (S j) (f x j)) ->
  P (s + m)%nat (foldl f a (seq s m)).
Proof.
  revert s a. induction m as [|m IH]; intros s a H0 Hstep; simpl.
  - by rewrite Nat.add_0_r.
  - replace (s + S m)%nat with (S s + m)%nat by lia. apply IH.
    + apply Hstep; [lia | done].
    + intros j x Hj. apply Hstep. lia.
Qed.

(** One comparison of the inner loop: the larger count ends at [i]. *)
Lemma getTopIPs_inner_swap (i j : nat) (l : list ipCount) (ci cj : ipCount) :
  i <> j -> l !! i = Some ci -> l !! j = Some cj ->
  let l' := getTopIPs_inner i l j in
  length l' = length l /\ l' ≡ₚ l
  /\ (forall k, k <> i -> k <> j -> l' !! k = l !! k)
  /\ ((l' !! i = Some ci /\ l' !! j = Some cj /\ cj.2 <= ci.2)
      \/ (l' !! i = Some cj /\ l' !! j = Some ci /\ ci.2 < cj.2)).
Proof.
  intros Hij Hi Hj l'. subst l'. unfold getTopIPs_inner. rewrite Hi, Hj.
  pose proof (lookup_lt_Some _ _ _ Hi) as Hli.
  pose proof (lookup_lt_Some _ _ _ Hj) as Hlj.
  destruct (Z.ltb_spec ci.2 cj.2) as [Hlt | Hge].
  - split; [by rewrite !length_insert |].
    split; [by apply Permutation_insert_swap |].
    split.
    + intros k Hki Hkj. by rewrite !list_lookup_insert_ne.
    + right. split; [| split; [| done]].
      * rewrite list_lookup_insert_ne by done. by apply list_lookup_insert_eq.
      * apply list_lookup_insert_eq. by rewrite length_insert.
  - split; [done |]. split; [done |]. split; [done |]. left. done.
Qed.

Lemma getTopIPs_outer_inv (i : nat) (l0 : list ipCount) :
  (i < length l0)%nat -> inner_inv i l0 (length l0) (getTopIPs_outer l0 i).
Proof.
  intros Hi. unfold getTopIPs_outer.
  replace (length l0) with (S i + (length l0 - S i))%nat at 1 by lia.
  apply foldl_seq_invariant.
  - repeat split; [done | eauto | intros; lia].
  - intros j l Hj (Hlen & Hperm & Hpre & Hsuf & Hmax).
    destruct (lookup_lt_is_Some_2 l i) as [ci Hci]; [lia |].
    destruct (lookup_lt_is_Some_2 l j) as [cj Hcj]; [lia |].
    destruct (getTopIPs_inner_swap i j l ci cj) as (Hlen' & Hperm' & Hrest & Hij);
      [lia | done | done |].
    split; [congruence |]. split; [by rewrite Hperm' |]. split; [| split].
    + intros k Hk. rewrite Hrest by lia. by apply Hpre.
    + intros k x Hk Hx.
      destruct (decide (k = i)) as [-> | Hki]; [| destruct (decide (k = j)) as [-> | Hkj]].
      * destruct Hij as [(E & _ & _) | (E & _ & _)]; rewrite E in Hx; simplify_eq.
        -- by apply (Hsuf i).
        -- apply (Hsuf j); [lia | done].
      * destruct Hij as [(_ & E & _) | (_ & E & _)]; rewrite E in Hx; simplify_eq.
        -- apply (Hsuf j); [lia | done].
        -- by apply (Hsuf i).
      * rewrite Hrest in Hx by done. by apply (Hsuf k).
    + intros k Hk x y Hx Hy.
      destruct (decide (k = j)) as [-> | Hkj].
      * destruct Hij as [(Ei & Ej & Hc) | (Ei & Ej & Hc)];
          rewrite Ei in Hx; rewrite Ej in Hy; simplify_eq; lia.
      * rewrite Hrest in Hy by lia.
        assert (y.2 <= ci.2) by (apply (Hmax k ltac:(lia) ci y); done).
        destruct Hij as [(Ei & _ & Hc) | (Ei & _ & Hc)];
          rewrite Ei in Hx; simplify_eq; lia.
Qed.

Lemma getTopIPs_sort_inv (l0 : list ipCount) (n : nat) :
  outer_inv l0 (Nat.min (length l0) n) (getTopIPs_sort l0 n).
Proof.
  unfold getTopIPs_sort.
  change (Nat.min (length l0) n) with (0 + Nat.min (length l0) n)%nat at 1.
  apply foldl_seq_invariant.
  - repeat split; [done | intros; lia].
  - intros i l Hi (Hlen & Hperm & Hsorted).
    destruct (getTopIPs_outer_inv i l) as (Hlen' & Hperm' & Hpre & Hsuf & Hmax); [lia |].
    split; [congruence |]. split; [by rewrite Hperm' |].
    intros a b Ha Hab x y Hx Hy.
    destruct (decide (a = i)) as [-> | Hai].
    + apply (Hmax b); [| done | done].
      split; [done |]. rewrite <- Hlen'. by eapply lookup_lt_Some.
    + rewrite Hpre in Hx by lia.
      destruct (decide (b < i)%nat) as [Hbi | Hbi].
      * rewrite Hpre in Hy by lia. by apply (Hsorted a b ltac:(lia) ltac:(lia) x y).
      * destruct (Hsuf b y ltac:(lia) Hy) as (b' & Hb' & Hy').
        by apply (Hsorted a b' ltac:(lia) ltac:(lia) x y).
Qed.

Lemma getTopIPs_top_of (counts : gmap string Z) (n : nat) (w : World) :
  top_of counts n (getTopIPs counts n w).1.
Proof.
  unfold getTopIPs. rewrite run_bind, run_ret. cbn [fst].
  set (es := (range_map counts w).1).
  assert (Hes : es ≡ₚ map_to_list counts) by apply range_map_perm.
  destruct (getTopIPs_sort_inv es n) as (Hlen & Hperm & Hsorted).
  set (ips := getTopIPs_sort es n) in *.
  assert (Hlimit : (if (length ips <? n)%nat then length ips else n) = Nat.min n (length ips)).
  { destruct (Nat.ltb_spec (length ips) n); lia. }
  rewrite Hlimit. clear Hlimit.
  assert (Hips : ips ≡ₚ map_to_list counts) by (by rewrite Hperm).
  assert (Hget : forall x, x ∈ ips -> counts !! x.1 = Some x.2).
  { intros [ip c] Hx. rewrite Hips in Hx. by apply elem_of_map_to_list in Hx. }
  assert (Hnodup : NoDup ips.*1).
  { rewrite Hips. apply NoDup_fst_map_to_list. }
  assert (Hsize : length ips = size counts).
  { rewrite Hips. apply length_map_to_list. }
  assert (Hval : forall k x, ips !! k = Some x -> get counts x.1 = x.2).
  { intros k x Hk. unfold get. rewrite (Hget x); [done |].
    apply list_elem_of_lookup. eauto. }
  repeat split.
  - rewrite fmap_take. eapply sublist_NoDup; [exact Hnodup | apply sublist_take].
  - rewrite length_fmap, length_take. lia.
  - intros ip Hip. apply list_elem_of_fmap in Hip as (x & -> & Hx).
    apply elem_of_take in Hx as (k & Hk & _).
    rewrite (Hget x); [done |]. apply list_elem_of_lookup. eauto.
  - intros a b ip ip' Hab Ha Hb.
    rewrite list_lookup_fmap in Ha, Hb.
    destruct (take _ ips !! a) as [x|] eqn:Hx; [| done].
    destruct (take _ ips !! b) as [y|] eqn:Hy; [| done].
    simpl in Ha, Hb. simplify_eq.
    apply lookup_take_Some in Hx as [Hx Hxa]. apply lookup_take_Some in Hy as [Hy Hyb].
    rewrite (Hval _ _ Hx), (Hval _ _ Hy).
    apply (Hsorted a b); [lia | done | done | done].
  - intros ip ip' [c Hc] Hout Hin.
    apply list_elem_of_fmap in Hin as (y & -> & Hy).
    apply elem_of_take in Hy as (a & Hy & Ha).
    assert (Hx : (ip, c) ∈ ips).
    { rewrite Hips. by apply elem_of_map_to_list. }
    apply list_elem_of_lookup in Hx as [k Hk].
    assert (Hka : (Nat.min n (length ips) <= k)%nat).
    { destruct (decide (Nat.min n (length ips) <= k)%nat) as [|Hlt]; [done |].
      exfalso. apply Hout. apply list_elem_of_fmap. exists (ip, c). split; [done |].
      apply elem_of_take. exists k. split; [done | lia]. }
    rewrite (Hval _ _ Hy). unfold get. rewrite Hc. simpl.
    apply (Hsorted a k ltac:(lia) ltac:(lia) y (ip, c)); done.
Qed.

(** ** Counting the records of an address *)

Lemma hits_cons (ip : string) (r : TrafficRequest) (l : list TrafficRequest) :
  hits ip (r :: l) = (if bool_decide (SourceIP r = ip) then 1 else 0) + hits ip l.
Proof.
  unfold hits, len. rewrite filter_cons. case_bool_decide; case_decide; try done; simpl; lia.
Qed.

Lemma hits_nonneg (ip : string) (l : list TrafficRequest) : 0 <= hits ip l.
Proof. unfold hits, len. lia. Qed.

Lemma hits_pos (ip : string) (l : list TrafficRequest) :
  0 < hits ip l <-> ip ∈ SourceIP <$> l.
Proof.
  induction l as [|r l IH].
  - unfold hits, len. simpl. split; [lia | by intros ?%elem_of_nil].
  - rewrite hits_cons, fmap_cons, elem_of_cons. pose proof (hits_nonneg ip l).
    case_bool_decide; split; intros; try lia; intuition (try congruence; try lia).
Qed.

Lemma get_incr (k k' : string) (m : gmap string Z) :
  get (incr k m) k' = (if bool_decide (k = k') then 1 else 0) + get m k'.
Proof.
  unfold incr, get. case_bool_decide as E.
  - subst. rewrite lookup_insert_eq. simpl. lia.
  - rewrite lookup_insert_ne by done. lia.
Qed.

Lemma dom_incr (k : string) (m : gmap string Z) : dom (incr k m) = {[k]} ∪ dom m.
Proof. unfold incr. apply dom_insert_L. Qed.

Lemma counts_sources_nil : counts_sources ∅ [].
Proof. split; [intros ip; reflexivity | by rewrite dom_empty_L]. Qed.

Lemma counts_sources_snoc (m : gmap string Z) (l : list TrafficRequest) (r : TrafficRequest) :
  counts_sources m l -> counts_sources (incr (SourceIP r) m) (l ++ [r]).
Proof.
  intros [Hget Hdom]. split.
  - intros ip. rewrite get_incr, Hget. unfold hits, len.
    rewrite filter_app, length_app, filter_cons, filter_nil.
    case_bool_decide; case_decide; try done; simpl; lia.
  - rewrite dom_incr, Hdom, fmap_app, list_to_set_app_L. simpl. set_solver.
Qed.

Lemma counts_sources_size (m : gmap string Z) (l : list TrafficRequest) :
  counts_sources m l -> Z.of_nat (size m) = distinct_sources l.
Proof. intros [_ Hdom]. unfold distinct_sources. by rewrite <- size_dom, Hdom. Qed.

Lemma counts_sources_is_Some (m : gmap string Z) (l : list TrafficRequest) (ip : string) :
  counts_sources m l -> is_Some (m !! ip) <-> 0 < hits ip l.
Proof.
  intros [_ Hdom]. rewrite hits_pos, <- elem_of_dom, Hdom. apply elem_of_list_to_set.
Qed.

Lemma top_of_top_sources (m : gmap string Z) (l : list TrafficRequest) (n : nat)
    (r : list string) :
  counts_sources m l -> top_of m n r -> top_sources n l r.
Proof.
  intros Hm (Hnd & Hlen & Hin & Hsorted & Hout).
  pose proof (counts_sources_size _ _ Hm) as Hsize.
  destruct Hm as [Hget Hdom]. repeat split.
  - done.
  - unfold len. rewrite Hlen, <- Hsize. lia.
  - intros ip Hip. apply (counts_sources_is_Some m l ip); [by split | by apply Hin].
  - intros a b ip ip' Hab Ha Hb. rewrite <- !Hget. by apply (Hsorted a b).
  - intros ip ip' Hip Hnot Hip'. rewrite <- !Hget. apply Hout; [| done | done].
    by apply (counts_sources_is_Some m l ip).
Qed.

(** A loop that tallies the selected records of a batch. *)
Lemma tally_foldl_snoc {A} (f : A -> TrafficRequest -> A) (a : A) (l : list TrafficRequest)
    (r : TrafficRequest) :
  foldl f a (l ++ [r]) = f (foldl f a l) r.
Proof. by rewrite foldl_app. Qed.

Lemma tagged_snoc (proto : string) (l : list TrafficRequest) (r : TrafficRequest) :
  tagged proto (l ++ [r]) = tagged proto l ++ (if bool_decide (Protocol r = proto) then [r] else []).
Proof.
  unfold tagged. rewrite filter_app, filter_cons, filter_nil.
  case_bool_decide; case_decide; done.
Qed.

Lemma http_tally_all (requests : list TrafficRequest) :
  let acc := foldl http_tally (0, ∅) requests in
  acc.1 = len (tagged "HTTP" requests) /\ counts_sources acc.2 (tagged "HTTP" requests).
Proof.
  induction requests as [|r requests IH] using rev_ind.
  - split; [reflexivity | apply counts_sources_nil].
  - cbv zeta in *. rewrite tally_foldl_snoc, tagged_snoc. destruct IH as [IH1 IH2].
    unfold http_tally at 1 3. case_bool_decide.
    + cbn [fst snd]. split.
      * rewrite IH1. unfold len. rewrite length_app. simpl. lia.
      * by apply counts_sources_snoc.
    + rewrite app_nil_r. done.
Qed.

(** ** The HTTP-flood detector *)

(** [detectHTTPFlood] on any metrics: the two tests, and the finding. *)
Lemma detectHTTPFlood_finding {F} `{Float64 F} (d : Detector F)
    (requests : list TrafficRequest) (metrics : TrafficMetrics F) (w : World) :
  let floor := HTTPFloodThreshold (thresholds d) in
  let http := tagged "HTTP" requests in
  let fires := (floor <=? len http) && (PathEntropy metrics <! ofInt 2) in
  - 2 ^ 62 <= floor < 2 ^ 62 ->
  match (detectHTTPFlood d requests metrics w).1 with
  | Some a =>
      fires = true
      /\ Attack_Type a = "HTTP_FLOOD"
      /\ Confidence a = Min (ofInt (len http) /! ofInt (2 * floor)) (ofInt 1)
      /\ Severity a = getSeverity (Confidence a)
      /\ top_sources 20 http (SourceIPs a)
  | None => fires = false
  end.
Proof.
  intros floor http fires Hfloor. subst fires.
  unfold detectHTTPFlood.
  destruct (http_tally_all requests) as [Hcount Hips].
  destruct (foldl http_tally (0, ∅) requests) as [httpCount httpIPs].
  cbn [fst snd] in Hcount, Hips. fold http in Hcount, Hips. subst httpCount. fold floor.
  destruct (Z.ltb_spec (len http) floor) as [Hlt | Hge].
  - rewrite run_ret. cbn [fst].
    destruct (Z.leb_spec floor (len http)); [lia | reflexivity].
  - destruct (Z.leb_spec floor (len http)); [| lia]. cbn [andb].
    destruct (PathEntropy metrics <! ofInt 2).
    + rewrite !run_bind, run_ret. cbn [fst snd Attack_Type Confidence Severity SourceIPs].
      rewrite (wrap64_twice floor Hfloor).
      repeat split.
      all: apply (top_of_top_sources httpIPs http 20 _ Hips), getTopIPs_top_of.
    + rewrite run_ret. reflexivity.
Qed.

(** The two HTTP examples of the specification, on binary64 with floor
    2000: 2500 records for a single path have path entropy 0 and give a
    finding; 2500 records spread evenly over 50 paths (entropy about 5.64)
    give none. *)
Lemma detectHTTPFlood_examples :
  (exists a,
     (detectHTTPFlood (F := float) NewDetector http_2500
        (calculateMetrics http_2500 Examples.w0).1 Examples.w0).1 = Some a
     /\ Confidence a = 0.625%float /\ length (SourceIPs a) = 20%nat)
  /\ PathEntropy (calculateMetrics (F := float) http_2500 Examples.w0).1 = 0%float
  /\ (detectHTTPFlood (F := float) NewDetector http_50_paths
        (calculateMetrics http_50_paths Examples.w0).1 Examples.w0).1 = None
  /\ (5.64 <? PathEntropy (calculateMetrics (F := float) http_50_paths Examples.w0).1)%float
     = true.
Proof.
  split; [| split; [| split]]; try (vm_compute; reflexivity).
  eexists. split; [vm_compute; reflexivity |]. split; vm_compute; reflexivity.
Qed.

(** ** The entropy estimator *)

Lemma sumZ_perm (l l' : list Z) : l ≡ₚ l' -> sumZ l = sumZ l'.
Proof. induction 1; simpl; lia. Qed.

Lemma sumR_perm (l l' : list R) : l ≡ₚ l' -> sumR l = sumR l'.
Proof. induction 1; simpl; lra. Qed.

Lemma sumR_replicate (n : nat) (x : R) : sumR (replicate n x) = (INR n * x)%R.
Proof.
  induction n as [|n IH]; [simpl; lra |].
  rewrite S_INR. cbn [replicate sumR foldr]. fold (sumR (replicate n x)). rewrite IH. lra.
Qed.

Lemma sumZ_replicate (n : nat) (x : Z) : sumZ (replicate n x) = Z.of_nat n * x.
Proof.
  induction n as [|n IH]; [reflexivity |].
  cbn [replicate sumZ foldr]. fold (sumZ (replicate n x)). rewrite IH. lia.
Qed.

Lemma wrap64_add_l (a b : Z) : wrap64 (wrap64 a + b) = wrap64 (a + b).
Proof.
  unfold wrap64. f_equal.
  replace ((a + 2 ^ 63) mod 2 ^ 64 - 2 ^ 63 + b + 2 ^ 63) with ((a + 2 ^ 63) mod 2 ^ 64 + b) by lia.
  rewrite Zplus_mod_idemp_l. f_equal. lia.
Qed.

Lemma entropy_total_from (es : list (string * Z)) (a : Z) :
  foldl (fun total e => wrap64 (total + e.2)) (wrap64 a) es = wrap64 (a + sumZ es.*2).
Proof.
  revert a. induction es as [|e es IH]; intros a.
  - simpl. by rewrite Z.add_0_r.
  - cbn [foldl]. rewrite wrap64_add_l, IH. rewrite fmap_cons. cbn [sumZ foldr].
    f_equal. fold (sumZ es.*2). lia.
Qed.

Lemma entropy_total_sum (es : list (string * Z)) : entropy_total es = wrap64 (sumZ es.*2).
Proof. unfold entropy_total. change 0 with (wrap64 0) at 1. apply entropy_total_from. Qed.

(** The total the first pass computes, whatever the order of the pass. *)
Lemma entropy_total_range (counts : gmap string Z) (w : World) :
  entropy_total (range_map counts w).1 = wrap64 (total_count counts).
Proof.
  rewrite entropy_total_sum. unfold total_count. f_equal. apply sumZ_perm.
  by rewrite range_map_perm.
Qed.

Lemma sumZ_nonneg (l : list Z) : Forall (fun c => 0 <= c) l -> 0 <= sumZ l.
Proof. induction 1; simpl; [lia | unfold sumZ in *; lia]. Qed.

(** In exact arithmetic the second pass subtracts the Shannon terms. *)
Lemma entropy_terms_exact (total : Z) (es : list (string * Z)) (a : R) :
  foldl (entropy_term (F := R) total) a es = (a - sumR (shannon_term total <$> es.*2))%R.
Proof.
  revert a. induction es as [|e es IH]; intros a.
  - simpl. lra.
  - cbn [foldl]. rewrite IH. rewrite !fmap_cons. cbn [sumR foldr].
    fold (sumR (shannon_term total <$> es.*2)).
    unfold entropy_term, shannon_term. destruct (0 <? e.2); cbn; unfold Exact.Log2; lra.
Qed.

Lemma nonneg_counts_values (counts : gmap string Z) :
  nonneg_counts counts -> Forall (fun c => 0 <= c) (map_to_list counts).*2.
Proof.
  intros Hc. apply Forall_forall. intros c Hin.
  apply list_elem_of_fmap in Hin as ([k c'] & -> & Hin).
  apply elem_of_map_to_list in Hin. by apply (Hc k).
Qed.

(** [calculateEntropy] computes [shannon], in any world. *)
Lemma calculateEntropy_exact (counts : gmap string Z) (w : World) :
  nonneg_counts counts -> total_count counts <= int_max ->
  (calculateEntropy (F := R) counts w).1 = shannon counts.
Proof.
  intros Hc Hmax. unfold calculateEntropy, shannon.
  rewrite run_bind. rewrite entropy_total_range.
  pose proof (sumZ_nonneg _ (nonneg_counts_values _ Hc)) as Hpos. fold (total_count counts) in Hpos.
  rewrite wrap64_id by (unfold in_int, int_min; lia).
  destruct (total_count counts =? 0); [reflexivity |].
  rewrite run_bind, run_ret. cbn [fst]. rewrite entropy_terms_exact.
  cbn [ofInt exact]. rewrite Rminus_0_l. f_equal.
  apply sumR_perm. by rewrite range_map_perm.
Qed.

Lemma values_kmap (f : string -> string) `{!Inj (=) (=) f} (counts : gmap string Z) :
  (map_to_list (kmap (M2 := gmap string) f counts)).*2 ≡ₚ (map_to_list counts).*2.
Proof.
  rewrite map_to_list_kmap by done. rewrite <- list_fmap_compose.
  assert (E : ((snd ∘ prod_map f (@Datatypes.id Z)) <$> map_to_list counts) = (map_to_list counts).*2)
    by (apply list_fmap_ext; by intros _ [k c] _).
  by rewrite E.
Qed.

Lemma shannon_values (counts counts' : gmap string Z) :
  (map_to_list counts).*2 ≡ₚ (map_to_list counts').*2 -> shannon counts = shannon counts'.
Proof.
  intros Hp. unfold shannon, total_count. rewrite (sumZ_perm _ _ Hp).
  destruct (_ =? 0); [reflexivity |]. f_equal. apply sumR_perm. by rewrite Hp.
Qed.

Lemma values_uniform (counts : gmap string Z) (c : Z) :
  map_Forall (fun _ v => v = c) counts ->
  (map_to_list counts).*2 = replicate (size counts) c.
Proof.
  intros Hall. symmetry. apply replicate_as_Forall. split.
  - by rewrite length_fmap, length_map_to_list.
  - apply Forall_forall. intros v Hin.
    apply list_elem_of_fmap in Hin as ([k v'] & -> & Hin).
    apply elem_of_map_to_list in Hin. symmetry. by apply (Hall k).
Qed.

(** The Shannon entropy of [k] equally likely categories is log2 k. *)
Lemma shannon_uniform (counts : gmap string Z) (c : Z) :
  0 < c -> size counts <> 0%nat -> map_Forall (fun _ v => v = c) counts ->
  shannon counts = (ln (INR (size counts)) / ln 2)%R.
Proof.
  intros Hc Hk Hall. unfold shannon, total_count.
  rewrite (values_uniform _ _ Hall), sumZ_replicate.
  set (k := size counts) in *.
  destruct (Z.eqb_spec (Z.of_nat k * c) 0) as [E | _]; [nia |].
  rewrite fmap_replicate, sumR_replicate. unfold shannon_term.
  destruct (Z.ltb_spec 0 c); [| lia].
  assert (Hk' : (0 < INR k)%R) by (apply lt_0_INR; lia).
  assert (Hc' : (0 < IZR c)%R) by (by apply IZR_lt).
  rewrite mult_IZR, <- INR_IZR_INZ.
  replace (IZR c / (INR k * IZR c))%R with (/ INR k)%R by (field; lra).
  rewrite ln_Rinv by done. field. split; [| lra].
  pose proof ln_lt_2. lra.
Qed.

Lemma shuffle_singleton {A} (code : list nat) (x : A) : shuffle code [x] = [x].
Proof. cbn [shuffle]. unfold insert_at. by rewrite take_nil, drop_nil. Qed.

Lemma range_map_singleton {V} (k : string) (v : V) (w : World) :
  (range_map {[k := v]} w).1 = [(k, v)].
Proof. unfold range_map. cbn [fst]. by rewrite map_to_list_singleton, shuffle_singleton. Qed.

(** [calculateEntropy] on a map with one key, for any [float64]. *)
Lemma calculateEntropy_singleton {F} `{Float64 F} (k : string) (c : Z) (w : World) :
  (calculateEntropy {[k := c]} w).1
  = if wrap64 c =? 0 then ofInt 0 else entropy_term (wrap64 c) (ofInt 0) (k, c).
Proof.
  unfold calculateEntropy. rewrite run_bind, range_map_singleton.
  assert (Ht : entropy_total [(k, c)] = wrap64 c) by reflexivity.
  rewrite Ht. destruct (wrap64 c =? 0); [reflexivity |].
  rewrite run_bind, run_ret, range_map_singleton. reflexivity.
Qed.

(** On binary64 the entropy of a single category is 0, bit for bit:
    c / c is 1, the logarithm of 1 is 0, and 0 - 1 * 0 is 0. *)
Lemma calculateEntropy_single_b64 (k : string) (c : Z) (w : World) :
  0 < c <= int_max -> (calculateEntropy (F := float) {[k := c]} w).1 = 0%float.
Proof.
  intros Hc. unfold int_max in Hc. rewrite calculateEntropy_singleton.
  rewrite wrap64_id by (unfold in_int, int_min, int_max; lia).
  destruct (Z.eqb_spec c 0) as [|_]; [lia |].
  unfold entropy_term. cbn [snd]. destruct (Z.ltb_spec 0 c); [| lia].
  cbv zeta. cbn [ofInt fdiv fsub fmul Log2 binary64].
  rewrite of_int_div_self by lia. vm_compute. reflexivity.
Qed.

(** The second pass is the sum of the specification, term by term: a count
    that is not above 0 adds nothing. *)
Lemma entropy_terms_in_order {F} `{Float64 F} (total : Z) (es : list (string * Z)) (a : F) :
  foldl (entropy_term total) a es
  = foldl (fun h c => h -! (ofInt c /! ofInt total) *! Log2 (ofInt c /! ofInt total)) a
      (filter (fun c => 0 < c) es.*2).
Proof.
  revert a. induction es as [|e es IH]; intros a; [reflexivity |].
  cbn [foldl fmap list_fmap]. rewrite filter_cons. unfold entropy_term at 2.
  destruct (Z.ltb_spec 0 e.2); case_decide; try lia; cbn [foldl]; apply IH.
Qed.

(** For any [float64]: [calculateEntropy] is that sum over the counts of the
    map, in the order of its second [range]. *)
Lemma calculateEntropy_in_order {F} `{Float64 F} (counts : gmap string Z) (w : World) :
  in_int (total_count counts) ->
  exists cs, cs ≡ₚ (map_to_list counts).*2
             /\ (calculateEntropy counts w).1 = shannon_in_order cs.
Proof.
  intros Hint. unfold calculateEntropy.
  rewrite run_bind, entropy_total_range, (wrap64_id _ Hint).
  destruct (total_count counts =? 0) eqn:E.
  - exists (map_to_list counts).*2. split; [done |].
    rewrite run_ret. unfold shannon_in_order. fold (total_count counts). by rewrite E.
  - rewrite run_bind, run_ret. cbn [fst].
    set (es := (range_map counts (range_map counts w).2).1).
    assert (Hp : es.*2 ≡ₚ (map_to_list counts).*2) by apply fmap_Permutation, range_map_perm.
    exists es.*2. split; [done |].
    unfold shannon_in_order. rewrite (sumZ_perm _ _ Hp). fold (total_count counts). rewrite E.
    apply entropy_terms_in_order.
Qed.

(** A count of that many out of a total beyond the ints. *)
Lemma overflowing_counts_total :
  nonneg_counts overflowing_counts /\ total_count overflowing_counts = int_max + 1.
Proof.
  split; [| vm_compute; reflexivity].
  apply (bool_decide_unpack _). vm_compute. exact I.
Qed.




(** On binary64 each subtraction of the second pass is rounded, so the last
    bits of the result depend on the order of the pass (computed with the
    portable [GoMath.Log2]): the same seven counts, visited in two orders. *)
Remark calculateEntropy_binary64_order :
  (calculateEntropy (F := float) seven_paths (Examples.world "" 0 [])).1
  = 2.2042837412355629%float
  /\ (calculateEntropy (F := float) seven_paths
        (Examples.world "" 0 [2; 2; 2; 2; 1; 1]%nat)).1
     = 2.2042837412355634%float.
Proof. split; vm_compute; reflexivity. Qed.

(** ** The counts of a batch *)

Lemma counts_by_nil (key : TrafficRequest -> string) : counts_by key ∅ [].
Proof. split; [intros k; reflexivity | by rewrite dom_empty_L]. Qed.

Lemma counts_by_snoc (key : TrafficRequest -> string) (m : gmap string Z)
    (l : list TrafficRequest) (r : TrafficRequest) :
  counts_by key m l -> counts_by key (incr (key r) m) (l ++ [r]).
Proof.
  intros [Hget Hdom]. split.
  - intros k. rewrite get_incr, Hget. unfold len.
    rewrite filter_app, length_app, filter_cons, filter_nil.
    case_bool_decide; case_decide; try done; simpl; lia.
  - rewrite dom_incr, Hdom, fmap_app, list_to_set_app_L. simpl. set_solver.
Qed.

Lemma counts_by_sources (m : gmap string Z) (l : list TrafficRequest) :
  counts_by SourceIP m l <-> counts_sources m l.
Proof. reflexivity. Qed.

(** A count map holds no entry for a value that does not occur, and every
    entry is at least 1. *)
Lemma counts_by_lookup (key : TrafficRequest -> string) (m : gmap string Z)
    (l : list TrafficRequest) (k : string) (c : Z) :
  counts_by key m l -> m !! k = Some c ->
  c = len (filter (fun r => key r = k) l) /\ 0 < c.
Proof.
  intros [Hget Hdom] Hk.
  assert (Hc : c = len (filter (fun r => key r = k) l)).
  { rewrite <- Hget. unfold get. by rewrite Hk. }
  split; [done |].
  assert (Hin : k ∈ dom m) by (apply elem_of_dom; eauto).
  rewrite Hdom in Hin. apply elem_of_list_to_set, list_elem_of_fmap in Hin as (r & -> & Hr).
  rewrite Hc. unfold len.
  assert (r ∈ filter (fun r' => key r' = key r) l) by (by apply list_elem_of_filter).
  destruct (filter _ l); [by apply elem_of_nil in H | simpl; lia].
Qed.

Lemma total_count_empty : total_count ∅ = 0.
Proof. unfold total_count. by rewrite map_to_list_empty. Qed.

Lemma total_count_insert (k : string) (v : Z) (m : gmap string Z) :
  m !! k = None -> total_count (<[k := v]> m) = v + total_count m.
Proof.
  intros Hk. unfold total_count.
  rewrite (sumZ_perm _ ((k, v) :: map_to_list m).*2).
  - rewrite fmap_cons. reflexivity.
  - apply fmap_Permutation. by apply map_to_list_insert.
Qed.

Lemma total_count_incr (k : string) (m : gmap string Z) :
  total_count (incr k m) = total_count m + 1.
Proof.
  unfold incr, get. destruct (m !! k) as [c|] eqn:E; cbn [default].
  - rewrite <- (insert_delete_eq m k (c + 1)).
    rewrite <- (insert_delete_id m k c E) at 2.
    rewrite !total_count_insert by apply lookup_delete_eq. lia.
  - rewrite total_count_insert by done. lia.
Qed.

(** What the loop of [calculateMetrics] has tallied after a batch. *)
Lemma tally_all_spec (requests : list TrafficRequest) :
  let t := tally_all requests in
  counts_by SourceIP (ipCounts t) requests
  /\ counts_by Protocol (protocolCounts t) requests
  /\ counts_by RequestPath (pathCounts t) requests
  /\ totalDuration t = wrap64 (durations requests)
  /\ synCount t = len (tagged "TCP_SYN" requests)
  /\ total_count (ipCounts t) = len requests
  /\ total_count (protocolCounts t) = len requests
  /\ total_count (pathCounts t) = len requests.
Proof.
  induction requests as [|r requests IH] using rev_ind.
  - cbv zeta. unfold tally_all. cbn [foldl ipCounts protocolCounts pathCounts].
    repeat split; try apply counts_by_nil; try (intros k; reflexivity);
      try apply dom_empty_L; try apply total_count_empty.
  - cbv zeta in *. unfold tally_all in *. rewrite foldl_app. cbn [foldl].
    destruct IH as (H1 & H2 & H3 & H4 & H5 & H6 & H7 & H8).
    cbn [tally ipCounts protocolCounts pathCounts totalDuration synCount].
    split; [by apply counts_by_snoc |]. split; [by apply counts_by_snoc |].
    split; [by apply counts_by_snoc |].
    split; [| split; [| split; [| split]]].
    + rewrite H4, wrap64_add_l. unfold durations. rewrite fmap_app.
      f_equal. unfold sumZ. rewrite foldr_app. cbn [fmap list_fmap foldr].
      generalize (Duration <$> requests). intros l. induction l; simpl; lia.
    + rewrite H5, tagged_snoc. unfold len. case_bool_decide.
      * rewrite length_app. simpl. lia.
      * by rewrite app_nil_r.
    + rewrite total_count_incr, H6. unfold len. rewrite length_app. simpl. lia.
    + rewrite total_count_incr, H7. unfold len. rewrite length_app. simpl. lia.
    + rewrite total_count_incr, H8. unfold len. rewrite length_app. simpl. lia.
Qed.

(** ** The HTTP-flood detector on the metrics of a batch *)

(** The path counts of the metrics count the records of the batch by path,
    and the path entropy is [calculateEntropy] of them. *)
Lemma calculateMetrics_paths {F} `{Float64 F} (requests : list TrafficRequest) (w : World) :
  let metrics := (calculateMetrics requests w).1 in
  counts_by RequestPath (PathCounts metrics) requests
  /\ total_count (PathCounts metrics) = len requests
  /\ exists w1, PathEntropy metrics = (calculateEntropy (PathCounts metrics) w1).1.
Proof.
  destruct (tally_all_spec requests) as (_ & _ & Hpath & _ & _ & _ & _ & T3).
  cbv zeta in *. unfold calculateMetrics. rewrite !run_bind, run_ret.
  cbn [fst PathEntropy PathCounts]. split; [done |]. split; [done |]. by eexists.
Qed.

(** A count map of records that all carry one value. *)
Lemma counts_by_single (key : TrafficRequest -> string) (m : gmap string Z)
    (l : list TrafficRequest) (k : string) :
  counts_by key m l -> l <> [] -> Forall (fun r => key r = k) l -> m = {[k := len l]}.
Proof.
  intros [Hget Hdom] Hne Hall. apply map_eq. intros k'.
  destruct (decide (k' = k)) as [-> | Hk].
  - rewrite lookup_singleton_eq.
    assert (Hin : k ∈ dom m).
    { rewrite Hdom. apply elem_of_list_to_set, list_elem_of_fmap.
      destruct l as [|r l]; [done |]. exists r. split; [| left].
      symmetry. by apply (Forall_inv Hall). }
    apply elem_of_dom in Hin as [c Hc]. rewrite Hc. f_equal.
    specialize (Hget k). unfold get in Hget. rewrite Hc in Hget. simpl in Hget.
    rewrite Hget. f_equal. f_equal.
    clear -Hall. induction Hall as [|r l Hr Hall IH]; [done |].
    rewrite filter_cons. case_decide; [by f_equal | done].
  - rewrite lookup_singleton_ne by done. apply not_elem_of_dom. rewrite Hdom.
    intros Hin. apply elem_of_list_to_set, list_elem_of_fmap in Hin as (r & -> & Hr).
    apply Hk. by apply (proj1 (Forall_forall _ _) Hall).
Qed.

(** C4, a counterexample: with the floor -2^62 - 1 the doubled floor wraps
    to 2^63 - 2, so on three HTTP records for one path the finding has the
    confidence 3 / (2^63 - 2), above 0, while Min(httpCount / (2 * floor), 1)
    is 3 / (-2^63 - 2), below 0 (binary64). *)
Lemma detectHTTPFlood_floor_wraps :
  let d := wrapping_floor (F := float) in
  let metrics := (calculateMetrics (F := float) http_3 Examples.w0).1 in
  HTTPFloodThreshold (thresholds d) = - 2 ^ 62 - 1
  /\ len (tagged "HTTP" http_3) = 3
  /\ exists a,
       (detectHTTPFlood d http_3 metrics Examples.w0).1 = Some a
       /\ Confidence a = 3.2526065174565133e-19%float
       /\ Min (ofInt (len (tagged "HTTP" http_3)) /! ofInt (2 * HTTPFloodThreshold (thresholds d)))
            (ofInt 1)
          = (-3.2526065174565133e-19)%float
       /\ Confidence a
          <> Min (ofInt (len (tagged "HTTP" http_3))
                    /! ofInt (2 * HTTPFloodThreshold (thresholds d))) (ofInt 1).
Proof.
  cbv zeta. split; [reflexivity |]. split; [vm_compute; reflexivity |].
  eexists. split; [vm_compute; reflexivity |].
  split; [vm_compute; reflexivity |]. split; [vm_compute; reflexivity |].
  intros E. apply (f_equal (fun x => (x <? 0)%float)) in E. vm_compute in E. discriminate E.
Qed.

(** C4 (amended): for an HTTP floor of at least -2^62 and below 2^62, so
    that its double is an int, [detectHTTPFlood] returns a finding exactly
    when the number of HTTP records of the batch is at least the floor and
    the path entropy of the metrics is below 2.0; the finding then has type
    HTTP_FLOOD, confidence Min(httpCount / (2 * floor), 1), the severity of
    that confidence, and as source list the 20 source addresses of the HTTP
    records with the most HTTP records, by that number descending (all of
    them, in that order, when fewer than 20 addresses sent HTTP records).
    The path entropy of the metrics of a batch (a slice, whose length is an
    int) is the Shannon sum over the numbers of records of the batch per
    request path, evaluated in the arithmetic of the program in the order
    the path map is visited.  In exact arithmetic it is the Shannon entropy
    in bits of these numbers, so that a finding is returned exactly when the
    HTTP records are at least the floor and that entropy is below 2.  On
    binary64, when all records of a batch carry the same path, the path
    entropy is 0 bit for bit, and a finding is returned exactly when the
    HTTP records are at least the floor. *)
Theorem detectHTTPFlood_spec :
  (forall (F : Type) (FF : Float64 F) (d : Detector F) (requests : list TrafficRequest)
          (w w' : World),
     let metrics := (calculateMetrics requests w).1 in
     let floor := HTTPFloodThreshold (thresholds d) in
     let http := tagged "HTTP" requests in
     let fires := (floor <=? len http) && (PathEntropy metrics <! ofInt 2) in
     - 2 ^ 62 <= floor < 2 ^ 62 ->
     match (detectHTTPFlood d requests metrics w').1 with
     | Some a =>
         fires = true
         /\ Attack_Type a = "HTTP_FLOOD"
         /\ Confidence a = Min (ofInt (len http) /! ofInt (2 * floor)) (ofInt 1)
         /\ Severity a = getSeverity (Confidence a)
         /\ top_sources 20 http (SourceIPs a)
     | None => fires = false
     end)
  /\ (forall (F : Type) (FF : Float64 F) (requests : list TrafficRequest) (w : World),
        len requests <= int_max ->
        exists (paths : gmap string Z) (order : list Z),
          counts_by RequestPath paths requests
          /\ order ≡ₚ (map_to_list paths).*2
          /\ PathEntropy (calculateMetrics requests w).1 = shannon_in_order order)
  /\ (forall (d : Detector R) (requests : list TrafficRequest) (w w' : World),
        let metrics := (calculateMetrics requests w).1 in
        let floor := HTTPFloodThreshold (thresholds d) in
        - 2 ^ 62 <= floor < 2 ^ 62 -> len requests <= int_max ->
        exists paths : gmap string Z,
          counts_by RequestPath paths requests
          /\ PathEntropy metrics = shannon paths
          /\ (is_Some (detectHTTPFlood d requests metrics w').1
              <-> floor <= len (tagged "HTTP" requests) /\ (shannon paths < 2)%R))
  /\ (forall (d : Detector float) (requests : list TrafficRequest) (path : string)
             (w w' : World),
        let metrics := (calculateMetrics requests w).1 in
        let floor := HTTPFloodThreshold (thresholds d) in
        - 2 ^ 62 <= floor < 2 ^ 62 -> 0 < len requests <= int_max ->
        Forall (fun r => RequestPath r = path) requests ->
        PathEntropy metrics = 0%float
        /\ (is_Some (detectHTTPFlood d requests metrics w').1
            <-> floor <= len (tagged "HTTP" requests))).
Proof.
  split; [| split; [| split]].
  - intros F FF d requests w w' metrics floor http fires Hfloor.
    apply (detectHTTPFlood_finding d requests metrics w' Hfloor).
  - intros F FF requests w Hlen.
    destruct (calculateMetrics_paths requests w) as (Hby & Htotal & w1 & Hent).
    cbv zeta in *.
    destruct (calculateEntropy_in_order (PathCounts (calculateMetrics requests w).1) w1)
      as (order & Hp & Hsum).
    { rewrite Htotal. unfold in_int, int_min, len in *. lia. }
    exists (PathCounts (calculateMetrics requests w).1), order.
    split; [done |]. split; [done |]. by rewrite Hent.
  - intros d requests w w' metrics floor Hfloor Hlen.
    destruct (calculateMetrics_paths (F := R) requests w) as (Hby & Htotal & w1 & Hent).
    cbv zeta in Hby, Htotal, Hent. fold metrics in Hby, Htotal, Hent.
    exists (PathCounts metrics).
    assert (Hsh : PathEntropy metrics = shannon (PathCounts metrics)).
    { rewrite Hent. apply calculateEntropy_exact; [| by rewrite Htotal].
      intros k c Hk. destruct (counts_by_lookup _ _ _ _ _ Hby Hk). lia. }
    split; [done |]. split; [done |].
    pose proof (detectHTTPFlood_finding d requests metrics w' Hfloor) as Hd.
    cbv zeta in Hd. fold floor in Hd. rewrite Hsh in Hd.
    change (shannon (PathCounts metrics) <! ofInt 2)
      with (Exact.ltb (shannon (PathCounts metrics)) 2) in Hd.
    unfold Exact.ltb in Hd.
    destruct (detectHTTPFlood d requests metrics w').1 as [a |].
    + destruct Hd as (Hf & _). apply andb_true_iff in Hf as [Hf1 Hf2].
      split; [intros _ | by eauto]. split; [lia |]. by destruct (Rlt_dec _ _).
    + split; [by intros [a Ha] |]. intros [H1 H2].
      apply andb_false_iff in Hd as [Hd | Hd]; [lia |]. by destruct (Rlt_dec _ _).
  - intros d requests path w w' metrics floor Hfloor Hlen Hall.
    destruct (calculateMetrics_paths (F := float) requests w) as (Hby & Htotal & w1 & Hent).
    cbv zeta in Hby, Htotal, Hent. fold metrics in Hby, Htotal, Hent.
    assert (Hne : requests <> []) by (intros ->; unfold len in Hlen; simpl in Hlen; lia).
    assert (Hzero : PathEntropy metrics = 0%float).
    { rewrite Hent, (counts_by_single _ _ _ _ Hby Hne Hall).
      by apply calculateEntropy_single_b64. }
    split; [done |].
    pose proof (detectHTTPFlood_finding d requests metrics w' Hfloor) as Hd.
    cbv zeta in Hd. fold floor in Hd. rewrite Hzero in Hd.
    change ((0%float <! ofInt 2)) with true in Hd. rewrite andb_true_r in Hd.
    destruct (detectHTTPFlood d requests metrics w').1 as [a |].
    + destruct Hd as (Hf & _). split; [intros _; lia | by eauto].
    + split; [by intros [a Ha] | lia].
Qed.

(** [detectHTTPFlood_spec] at a floor of two records, on three HTTP records
    for one path (binary64). *)
Lemma detectHTTPFlood_spec_witness :
  - 2 ^ 62 <= 2 < 2 ^ 62
  /\ 0 < len http_3 <= int_max
  /\ Forall (fun r => RequestPath r = "/login") http_3
  /\ PathEntropy (calculateMetrics (F := float) http_3 Examples.w0).1 = 0%float
  /\ (is_Some (detectHTTPFlood (F := float) low_floor http_3
                 (calculateMetrics http_3 Examples.w0).1 Examples.w0).1
      <-> 2 <= len (tagged "HTTP" http_3)).
Proof.
  assert (Hfloor : - 2 ^ 62 <= 2 < 2 ^ 62) by lia.
  assert (Hlen : 0 < len http_3 <= int_max) by (vm_compute; split; [reflexivity | discriminate]).
  assert (Hall : Forall (fun r => RequestPath r = "/login") http_3)
    by (repeat constructor).
  split; [exact Hfloor |]. split; [exact Hlen |]. split; [exact Hall |].
  exact (proj2 (proj2 (proj2 detectHTTPFlood_spec)) low_floor http_3 "/login"
           Examples.w0 Examples.w0 Hfloor Hlen Hall).
Defined.

(** ** Running the analysis twice *)

Lemma agree_ret {A} (R : A -> A -> Prop) (x y : A) : R x y -> agree R (mret x) (mret y).
Proof. intros HR w1 w2 Hw. by split. Qed.

Lemma agree_bind {A B} (R : A -> A -> Prop) (S : B -> B -> Prop) (c1 c2 : M A)
    (f g : A -> M B) :
  agree R c1 c2 -> (forall x y, R x y -> agree S (f x) (g y)) ->
  agree S (c1 ≫= f) (c2 ≫= g).
Proof.
  intros Hc Hf w1 w2 Hw. rewrite !run_bind.
  destruct (Hc w1 w2 Hw) as [HR Hw']. by apply Hf.
Qed.

Lemma agree_range_map {V} (m : gmap string V) : agree eq (range_map m) (range_map m).
Proof.
  intros w1 w2 [Hn Hsrc]. unfold range_map, same_orders. cbn.
  rewrite Hn, Hsrc. split; [done |]. split; [done | exact Hsrc].
Qed.

Lemma agree_uuid_New : agree (fun _ _ => True) uuid_New uuid_New.
Proof. intros w1 w2 [Hn Hsrc]. unfold uuid_New, same_orders. cbn. done. Qed.

Lemma agree_time_Now : agree (fun _ _ => True) time_Now time_Now.
Proof. intros w1 w2 [Hn Hsrc]. unfold time_Now, same_orders. cbn. done. Qed.

Lemma agree_same {A} (c : M A) :
  agree eq c c -> forall w1 w2, same_orders w1 w2 -> (c w1).1 = (c w2).1.
Proof. intros Hc w1 w2 Hw. by destruct (Hc w1 w2 Hw). Qed.

Section rerun.

Context {F : Type} `{Float64 F}.

Ltac agree_step :=
  first
    [ apply agree_ret
    | eapply agree_bind; [apply agree_range_map | intros ? ? <-]
    | eapply agree_bind; [apply agree_uuid_New | intros ? ? _]
    | eapply agree_bind; [apply agree_time_Now | intros ? ? _] ].

Lemma agree_calculateEntropy (counts : gmap string Z) :
  agree eq (calculateEntropy counts) (calculateEntropy counts).
Proof.
  unfold calculateEntropy. agree_step.
  destruct (_ =? 0); repeat agree_step; reflexivity.
Qed.

Lemma agree_getTopIPs (counts : gmap string Z) (n : nat) :
  agree eq (getTopIPs counts n) (getTopIPs counts n).
Proof. unfold getTopIPs. repeat agree_step. reflexivity. Qed.

Lemma agree_calculateMetrics (requests : list TrafficRequest) :
  agree eq (calculateMetrics requests) (calculateMetrics requests).
Proof.
  unfold calculateMetrics.
  eapply agree_bind; [apply agree_calculateEntropy | intros ? ? <-].
  eapply agree_bind; [apply agree_calculateEntropy | intros ? ? <-].
  apply agree_ret. reflexivity.
Qed.

Ltac agree_finding :=
  repeat agree_step;
  first [ by constructor | constructor; repeat split ].

Lemma agree_detectSYNFlood d requests metrics :
  agree same_result (detectSYNFlood d requests metrics) (detectSYNFlood d requests metrics).
Proof.
  unfold detectSYNFlood.
  destruct (_ <? _); [agree_finding |]. destruct (_ && _); agree_finding.
Qed.

Lemma agree_detectHTTPFlood d requests metrics :
  agree same_result (detectHTTPFlood d requests metrics) (detectHTTPFlood d requests metrics).
Proof.
  unfold detectHTTPFlood. destruct (foldl _ _ _) as [httpCount httpIPs].
  destruct (_ <? _); [agree_finding |]. destruct (_ <! _); [| agree_finding].
  eapply agree_bind; [apply agree_getTopIPs | intros ? ? <-]. agree_finding.
Qed.

Lemma agree_detectSlowloris d requests metrics :
  agree same_result (detectSlowloris d requests metrics) (detectSlowloris d requests metrics).
Proof.
  unfold detectSlowloris. destruct (foldl _ _ _) as [slowConnections slowIPs].
  destruct (_ && _); agree_finding.
Qed.

Lemma agree_detectUDPFlood d requests metrics :
  agree same_result (detectUDPFlood d requests metrics) (detectUDPFlood d requests metrics).
Proof.
  unfold detectUDPFlood. destruct (_ <? _); [agree_finding |].
  eapply agree_bind; [apply agree_getTopIPs | intros ? ? <-]. agree_finding.
Qed.

Lemma agree_detectRateAnomaly d metrics :
  agree same_result (detectRateAnomaly d metrics) (detectRateAnomaly d metrics).
Proof.
  unfold detectRateAnomaly. destruct (_ >! _); [| agree_finding].
  destruct (_ <! _); [| agree_finding].
  eapply agree_bind; [apply agree_getTopIPs | intros ? ? <-]. agree_finding.
Qed.

Lemma append_found_same (l1 l2 : list (Attack F)) (o1 o2 : option (Attack F)) :
  Forall2 same_finding l1 l2 -> same_result o1 o2 ->
  Forall2 same_finding (append_found l1 o1) (append_found l2 o2).
Proof.
  intros Hl Ho. destruct Ho as [a b Hab |]; simpl; [| done].
  apply Forall2_app; [done | by constructor].
Qed.

Lemma agree_AnalyzeTraffic d requests :
  agree (Forall2 same_finding) (AnalyzeTraffic d requests) (AnalyzeTraffic d requests).
Proof.
  unfold AnalyzeTraffic. destruct (_ =? 0); [by apply agree_ret |].
  eapply agree_bind; [apply agree_calculateMetrics | intros metrics ? <-].
  eapply agree_bind; [apply agree_detectSYNFlood | intros a1 b1 H1].
  eapply agree_bind; [apply agree_detectHTTPFlood | intros a2 b2 H2].
  eapply agree_bind; [apply agree_detectSlowloris | intros a3 b3 H3].
  eapply agree_bind; [apply agree_detectUDPFlood | intros a4 b4 H4].
  eapply agree_bind; [apply agree_detectRateAnomaly | intros a5 b5 H5].
  apply agree_ret. repeat apply append_found_same; done.
Qed.

End rerun.

(** C2, a counterexample: on the batch of 1500 TCP_SYN records and
    the seed detector (binary64), two runs that differ only in what the UUID
    generator hands out return different lists (the identifiers differ), and
    two runs that differ only in the order in which [range] visits the maps
    return different lists too (the source addresses come in another
    order). *)
Lemma AnalyzeTraffic_rerun_differs :
  (AnalyzeTraffic (F := float) NewDetector Examples.syn_1500
     (Examples.world "f47ac10b" 1700000000 [])).1
  <> (AnalyzeTraffic (F := float) NewDetector Examples.syn_1500
        (Examples.world "9c858901" 1700000000 [])).1
  /\ (AnalyzeTraffic (F := float) NewDetector Examples.syn_1500
        (Examples.world "f47ac10b" 1700000000 [])).1
     <> (AnalyzeTraffic (F := float) NewDetector Examples.syn_1500
           (Examples.world "f47ac10b" 1700000000 [1%nat])).1.
Proof.
  split; intros E.
  - apply (f_equal (fmap Attack_ID)) in E. vm_compute in E. discriminate.
  - apply (f_equal (fmap SourceIPs)) in E. vm_compute in E. discriminate.
Qed.

(** C2 (amended): for a fixed batch, baseline and thresholds, two runs of
    the aggregator and the five detectors in which [range] visits the maps
    in the same orders return lists of the same length whose findings agree,
    position by position, on every field except the identifier and the start
    time (those are a fresh UUID and the clock reading of each run); in
    particular the top-N selection returns the same addresses in the same
    order. *)
Theorem AnalyzeTraffic_rerun {F} `{Float64 F} (d : Detector F)
    (requests : list TrafficRequest) (w1 w2 : World) :
  same_orders w1 w2 ->
  Forall2 same_finding (AnalyzeTraffic d requests w1).1 (AnalyzeTraffic d requests w2).1
  /\ (forall (counts : gmap string Z) (n : nat),
        (getTopIPs counts n w1).1 = (getTopIPs counts n w2).1).
Proof.
  intros Hw. split.
  - by destruct (agree_AnalyzeTraffic d requests w1 w2 Hw).
  - intros counts n. by apply (agree_same _ (agree_getTopIPs counts n)).
Qed.

(** [AnalyzeTraffic_rerun] on the batch of 1500 records, in two worlds with
    different identifiers and clocks. *)
Lemma AnalyzeTraffic_rerun_witness :
  same_orders (Examples.world "f47ac10b" 1700000000 [1%nat])
              (Examples.world "9c858901" 1700000060 [1%nat])
  /\ Forall2 same_finding
       (AnalyzeTraffic (F := float) NewDetector Examples.syn_1500
          (Examples.world "f47ac10b" 1700000000 [1%nat])).1
       (AnalyzeTraffic (F := float) NewDetector Examples.syn_1500
          (Examples.world "9c858901" 1700000060 [1%nat])).1.
Proof.
  assert (Hw : same_orders (Examples.world "f47ac10b" 1700000000 [1%nat])
                           (Examples.world "9c858901" 1700000060 [1%nat]))
    by (split; reflexivity).
  split; [exact Hw |].
  exact (proj1 (AnalyzeTraffic_rerun NewDetector Examples.syn_1500 _ _ Hw)).
Defined.

(** ** Confidence and severity *)

Section scored.

Context {F : Type} `{Float64 F}.

Ltac open_detector :=
  intros w a; rewrite ?run_bind, ?run_ret; cbn [fst snd];
  intros E; inversion E; subst; clear E.

Lemma detectSYNFlood_scored d requests metrics :
  all_findings severity_scored (detectSYNFlood d requests metrics).
Proof.
  unfold detectSYNFlood. destruct (_ <? _); [by intros w a |].
  destruct (_ && _); [| by intros w a]. open_detector. reflexivity.
Qed.

Lemma detectHTTPFlood_scored d requests metrics :
  all_findings severity_scored (detectHTTPFlood d requests metrics).
Proof.
  unfold detectHTTPFlood. destruct (foldl _ _ _) as [httpCount httpIPs].
  destruct (_ <? _); [by intros w a |].
  destruct (_ <! _); [| by intros w a]. open_detector. reflexivity.
Qed.

Lemma detectSlowloris_scored d requests metrics :
  all_findings severity_scored (detectSlowloris d requests metrics).
Proof.
  unfold detectSlowloris. destruct (foldl _ _ _) as [slowConnections slowIPs].
  destruct (_ && _); [| by intros w a]. open_detector. reflexivity.
Qed.

Lemma detectUDPFlood_scored d requests metrics :
  all_findings severity_scored (detectUDPFlood d requests metrics).
Proof.
  unfold detectUDPFlood. destruct (_ <? _); [by intros w a |].
  open_detector. reflexivity.
Qed.

Lemma detectRateAnomaly_scored d metrics :
  all_findings severity_scored (detectRateAnomaly d metrics).
Proof.
  unfold detectRateAnomaly. destruct (_ >! _); [| by intros w a].
  destruct (_ <! _); [| by intros w a]. open_detector. reflexivity.
Qed.

(** A property of the findings of each detector, run on the metrics of the
    batch, is a property of every finding [AnalyzeTraffic] returns. *)
Lemma AnalyzeTraffic_all (P : Attack F -> Prop) d requests w :
  (forall metrics, metrics = (calculateMetrics requests w).1 ->
     all_findings P (detectSYNFlood d requests metrics)
     /\ all_findings P (detectHTTPFlood d requests metrics)
     /\ all_findings P (detectSlowloris d requests metrics)
     /\ all_findings P (detectUDPFlood d requests metrics)
     /\ all_findings P (detectRateAnomaly d metrics)) ->
  Forall P (AnalyzeTraffic d requests w).1.
Proof.
  intros Hall. destruct requests as [|r requests]; [constructor |].
  destruct (AnalyzeTraffic_unfold d (r :: requests) w) as
    (metrics & w1 & w2 & w3 & w4 & w5 & -> & Hmetrics); [done |].
  destruct (Hall metrics Hmetrics) as (H1 & H2 & H3 & H4 & H5).
  assert (Happ : forall l o, Forall P l -> (forall a, o = Some a -> P a) ->
                             Forall P (append_found l o)).
  { intros l [a|] Hl Ho; simpl; [| done]. apply Forall_app. split; [done |].
    constructor; [by apply Ho | constructor]. }
  repeat apply Happ; [constructor | ..]; intros a Ha.
  - by apply (H1 w1).
  - by apply (H2 w2).
  - by apply (H3 w3).
  - by apply (H4 w4).
  - by apply (H5 w5).
Qed.

End scored.

(** *** Bounds in exact arithmetic *)

Lemma Rmin_unit (x : R) : (0 <= x)%R -> (0 <= Rmin x 1 <= 1)%R.
Proof.
  intros Hx. split; [apply Rmin_glb; lra | apply Rmin_r].
Qed.

Lemma ratio_nonneg (a b : Z) : 0 <= a -> 0 <= b -> (0 <= IZR a / IZR b)%R.
Proof.
  intros Ha Hb. apply IZR_le in Ha. apply IZR_le in Hb.
  destruct (Req_dec (IZR b) 0) as [-> | Hne].
  - rewrite Rdiv_0_r. lra.
  - apply Rmult_le_pos; [done |]. apply Rlt_le, Rinv_0_lt_compat. lra.
Qed.

Lemma exact_ltb_true (x y : R) : Exact.ltb x y = true -> (x < y)%R.
Proof. unfold Exact.ltb. by destruct (Rlt_dec x y). Qed.

Lemma exact_leb_true (x y : R) : Exact.leb x y = true <-> (x <= y)%R.
Proof. unfold Exact.leb. destruct (Rle_dec x y); split; intros; try done; lra. Qed.

Section exact_bounds.

Variable d : Detector R.
Hypothesis Hsane : sane_thresholds (thresholds d).

Ltac open_exact :=
  intros w a; rewrite ?run_bind, ?run_ret; cbn [fst snd];
  intros E; inversion E; subst; clear E;
  unfold exact_unit; cbn [Confidence Min ofInt fdiv exact]; apply Rmin_unit.

Lemma detectSYNFlood_exact_unit requests metrics :
  all_findings exact_unit (detectSYNFlood d requests metrics).
Proof.
  destruct Hsane as (Hsyn & _ & _).
  unfold detectSYNFlood. destruct (Z.ltb_spec (SYNPacketCount metrics) (SYNFloodThreshold (thresholds d)));
    [by intros w a |].
  destruct (_ && _); [| by intros w a]. open_exact.
  rewrite wrap64_twice by lia. apply ratio_nonneg; lia.
Qed.

Lemma detectHTTPFlood_exact_unit requests metrics :
  all_findings exact_unit (detectHTTPFlood d requests metrics).
Proof.
  destruct Hsane as (_ & Hhttp & _).
  unfold detectHTTPFlood. destruct (foldl _ _ _) as [httpCount httpIPs].
  destruct (Z.ltb_spec httpCount (HTTPFloodThreshold (thresholds d))); [by intros w a |].
  destruct (_ <! _); [| by intros w a]. open_exact.
  rewrite wrap64_twice by lia. apply ratio_nonneg; lia.
Qed.

Lemma detectSlowloris_exact_unit requests metrics :
  all_findings exact_unit (detectSlowloris d requests metrics).
Proof.
  unfold detectSlowloris. destruct (foldl _ _ _) as [slowConnections slowIPs].
  destruct (Z.ltb_spec 100 slowConnections); cbn [andb]; [| by intros w a].
  destruct (_ <? 10); [| by intros w a]. open_exact.
  apply ratio_nonneg; lia.
Qed.

Lemma detectUDPFlood_exact_unit requests metrics :
  all_findings exact_unit (detectUDPFlood d requests metrics).
Proof.
  unfold detectUDPFlood.
  destruct (Z.ltb_spec (get (ProtocolCounts metrics) "UDP") 2000); [by intros w a |].
  open_exact. apply ratio_nonneg; lia.
Qed.

Lemma detectRateAnomaly_exact_unit metrics :
  all_findings exact_unit (detectRateAnomaly d metrics).
Proof.
  destruct Hsane as (_ & _ & Hz). apply exact_leb_true in Hz.
  unfold detectRateAnomaly.
  destruct (flt (RequestRateZScore (thresholds d)) _) eqn:Hfires; [| by intros w a].
  destruct (flt (IPEntropy metrics) _); [| by intros w a]. open_exact.
  apply exact_ltb_true in Hfires. cbn [fsub fdiv ofInt exact] in *.
  assert (0 < 6)%R by lra.
  apply Rmult_le_pos; [lra |]. apply Rlt_le, Rinv_0_lt_compat. lra.
Qed.

End exact_bounds.

(** *** The counters never exceed the length of the batch *)

Lemma tagged_len (proto : string) (requests : list TrafficRequest) :
  len (tagged proto requests) <= len requests.
Proof. unfold tagged, len. pose proof (length_filter (fun r => Protocol r = proto) requests). lia. Qed.

Lemma slow_tally_count (slow : Z) (requests : list TrafficRequest) (acc : Z * gmap string Z) :
  (foldl (slow_tally slow) acc requests).1 <= acc.1 + len requests.
Proof.
  revert acc. induction requests as [|r requests IH]; intros acc.
  - unfold len. simpl. lia.
  - cbn [foldl]. etransitivity; [apply IH |]. unfold slow_tally, len.
    destruct (_ && _); cbn [fst length]; lia.
Qed.

Lemma protocolCounts_bound (requests : list TrafficRequest) (t : tallies) (k : string) :
  get (protocolCounts (foldl tally t requests)) k <= get (protocolCounts t) k + len requests.
Proof.
  revert t. induction requests as [|r requests IH]; intros t.
  - unfold len. simpl. lia.
  - cbn [foldl]. etransitivity; [apply IH |]. cbn [tally protocolCounts].
    rewrite get_incr. unfold len. cbn [length]. case_bool_decide; lia.
Qed.

Lemma calculateMetrics_ProtocolCounts {F} `{Float64 F} (requests : list TrafficRequest)
    (w : World) (k : string) :
  get (ProtocolCounts (calculateMetrics requests w).1) k <= len requests.
Proof.
  unfold calculateMetrics. rewrite !run_bind, run_ret. cbn [fst ProtocolCounts].
  unfold tally_all. etransitivity; [apply protocolCounts_bound |].
  cbn [protocolCounts]. unfold get. rewrite lookup_empty. cbn [default]. lia.
Qed.

(** *** The confidence of a finding on binary64 *)

Lemma of_int_1 : GoMath.of_int 1 = 1%float.
Proof. vm_compute. reflexivity. Qed.

Lemma of_int_0 : GoMath.of_int 0 = 0%float.
Proof. vm_compute. reflexivity. Qed.

(** The clamp of a quotient of two converted ints, the first positive. *)
Lemma Min_ratio_unit (a b : Z) :
  0 < a < 2 ^ 63 -> 0 <= b < 2 ^ 63 ->
  let c := GoMath.Min (GoMath.of_int a / GoMath.of_int b)%float (GoMath.of_int 1) in
  (0 <=? c)%float = true /\ (c <=? 1)%float = true.
Proof.
  intros Ha Hb c. subst c. rewrite of_int_1. apply Min_unit_b64.
  rewrite div_spec. apply SFdiv_nn.
  - by apply sf_posfin_nn, of_int_posfin.
  - by apply of_int_nn.
  - left. by apply of_int_posfin.
Qed.

Section b64_bounds.

Variable d : Detector float.
Variable requests : list TrafficRequest.
Hypothesis Hsane : sane_thresholds (thresholds d).
Hypothesis Hlen : len requests <= int_max.

Ltac open_b64 :=
  intros w a; rewrite ?run_bind, ?run_ret; cbn [fst snd];
  intros E; inversion E; subst; clear E;
  unfold unit_b64; cbn [Confidence Min ofInt fdiv binary64].

Lemma detectSYNFlood_unit_b64 w0 :
  all_findings unit_b64 (detectSYNFlood d requests (calculateMetrics requests w0).1).
Proof.
  destruct Hsane as (Hsyn & _ & _). unfold detectSYNFlood.
  rewrite calculateMetrics_SYNPacketCount.
  pose proof (tagged_len "TCP_SYN" requests) as Hcount. unfold int_max in Hlen.
  destruct (Z.ltb_spec (len (tagged "TCP_SYN" requests)) (SYNFloodThreshold (thresholds d)));
    [by intros w a |].
  destruct (Z.ltb_spec (SYNFloodThreshold (thresholds d)) (len (tagged "TCP_SYN" requests)));
    cbn [andb]; [| by intros w a].
  destruct (_ <? 10); [| by intros w a]. open_b64.
  rewrite wrap64_twice by lia. apply Min_ratio_unit; lia.
Qed.

Lemma detectHTTPFlood_unit_b64 metrics :
  all_findings unit_b64 (detectHTTPFlood d requests metrics).
Proof.
  destruct Hsane as (_ & Hhttp & _). unfold detectHTTPFlood.
  destruct (http_tally_all requests) as [Hcount _].
  pose proof (tagged_len "HTTP" requests) as Hbound. unfold int_max in Hlen.
  destruct (foldl http_tally (0, ∅) requests) as [httpCount httpIPs].
  cbn [fst] in Hcount. subst httpCount.
  destruct (Z.ltb_spec (len (tagged "HTTP" requests)) (HTTPFloodThreshold (thresholds d)));
    [by intros w a |].
  destruct (_ <! _); [| by intros w a]. open_b64.
  rewrite wrap64_twice by lia. apply Min_ratio_unit; lia.
Qed.

Lemma detectSlowloris_unit_b64 metrics :
  all_findings unit_b64 (detectSlowloris d requests metrics).
Proof.
  unfold detectSlowloris.
  pose proof (slow_tally_count (SlowConnectionTime (thresholds d)) requests (0, ∅)) as Hcount.
  unfold int_max in Hlen.
  destruct (foldl _ _ _) as [slowConnections slowIPs]. cbn [fst] in Hcount.
  destruct (Z.ltb_spec 100 slowConnections); cbn [andb]; [| by intros w a].
  destruct (_ <? 10); [| by intros w a]. open_b64.
  apply Min_ratio_unit; lia.
Qed.

Lemma detectUDPFlood_unit_b64 w0 :
  all_findings unit_b64 (detectUDPFlood d requests (calculateMetrics requests w0).1).
Proof.
  unfold detectUDPFlood. cbv zeta.
  pose proof (calculateMetrics_ProtocolCounts (F := float) requests w0 "UDP") as Hcount.
  unfold int_max in Hlen.
  set (udpCount := get (ProtocolCounts (calculateMetrics (F := float) requests w0).1) "UDP")
    in *.
  clearbody udpCount.
  destruct (Z.ltb_spec udpCount 2000); [by intros w a |].
  open_b64. apply Min_ratio_unit; lia.
Qed.

Lemma detectRateAnomaly_unit_b64 metrics :
  all_findings unit_b64 (detectRateAnomaly d metrics).
Proof.
  destruct Hsane as (_ & _ & Hz). cbn [ofInt fle binary64] in Hz.
  rewrite of_int_0, leb_spec in Hz.
  unfold detectRateAnomaly.
  destruct (flt (RequestRateZScore (thresholds d)) _) eqn:Hfires; [| by intros w a].
  destruct (flt (IPEntropy metrics) _); [| by intros w a]. open_b64.
  cbn [flt fsub fdiv ofInt binary64] in Hfires. rewrite ltb_spec in Hfires.
  pose proof (SFltb_above_nonneg _ _ Hz Hfires) as Hpos.
  rewrite of_int_1. apply Min_unit_b64. rewrite div_spec. apply SFdiv_nn.
  - by apply sf_pos_nn.
  - apply of_int_nn. lia.
  - right. apply of_int_posfin. lia.
Qed.

End b64_bounds.

(** C6, counterexamples (binary64).  With an HTTP floor of 0, a batch
    of one UDP record gives an HTTP_FLOOD finding whose confidence is 0/0,
    not a number.  With a SYN floor of -1, one TCP_SYN record gives a
    SYN_FLOOD finding of confidence 1/(-2) = -0.5.  With a z-score threshold
    of -1, a batch of 95 records from one address (z = -1/3) gives a
    RATE_ANOMALY finding of negative confidence. *)
Lemma confidence_out_of_unit :
  Exists out_of_unit
    (AnalyzeTraffic (detector_with 1000 0 3%float)
       [Examples.request "10.9.0.1" "UDP" "" 5] Examples.w0).1
  /\ Exists out_of_unit
       (AnalyzeTraffic (detector_with (-1) 2000 3%float)
          [Examples.request "10.9.0.1" "TCP_SYN" "" 5] Examples.w0).1
  /\ Exists out_of_unit
       (AnalyzeTraffic (detector_with 1000 2000 (-1)%float)
          (replicate 95 (Examples.request "10.9.0.1" "UDP" "" 5)) Examples.w0).1.
Proof.
  unfold out_of_unit.
  repeat split; apply (bool_decide_unpack _); vm_compute; exact I.
Qed.

(** C6 (amended): every detector labels its finding with the severity of
    its confidence, by the one function [getSeverity]: CRITICAL from 0.9,
    HIGH from 0.7, MEDIUM from 0.5, LOW below.  When the SYN floor is not
    negative, the HTTP floor is positive (both below 2^62) and the z-score
    threshold is not negative, every finding [AnalyzeTraffic] returns has a
    confidence between 0 and 1: on binary64 for every batch (a slice, so of
    length at most the largest int), however large its counts, and in exact
    arithmetic. *)
Theorem confidence_in_unit :
  (forall (F : Type) (FF : Float64 F) (d : Detector F) (requests : list TrafficRequest)
          (w : World),
     Forall severity_scored (AnalyzeTraffic d requests w).1)
  /\ (forall c : float,
        getSeverity c = if (0.9 <=? c)%float then "CRITICAL"
                        else if (0.7 <=? c)%float then "HIGH"
                        else if (0.5 <=? c)%float then "MEDIUM" else "LOW")
  /\ (forall (d : Detector float) (requests : list TrafficRequest) (w : World),
        sane_thresholds (thresholds d) -> len requests <= int_max ->
        Forall unit_b64 (AnalyzeTraffic d requests w).1)
  /\ (forall (d : Detector R) (requests : list TrafficRequest) (w : World),
        sane_thresholds (thresholds d) ->
        Forall exact_unit (AnalyzeTraffic d requests w).1).
Proof.
  split; [| split; [| split]].
  - intros F FF d requests w. apply AnalyzeTraffic_all. intros metrics _.
    split; [apply detectSYNFlood_scored |]. split; [apply detectHTTPFlood_scored |].
    split; [apply detectSlowloris_scored |]. split; [apply detectUDPFlood_scored |].
    apply detectRateAnomaly_scored.
  - intros c. unfold getSeverity. cbn [fle binary64].
    destruct lit_is_literal as (-> & -> & -> & _). reflexivity.
  - intros d requests w Hsane Hlen. apply AnalyzeTraffic_all. intros metrics ->.
    split; [by apply detectSYNFlood_unit_b64 |].
    split; [by apply detectHTTPFlood_unit_b64 |].
    split; [by apply detectSlowloris_unit_b64 |].
    split; [by apply detectUDPFlood_unit_b64 |].
    by apply detectRateAnomaly_unit_b64.
  - intros d requests w Hsane. apply AnalyzeTraffic_all. intros metrics _.
    split; [by apply detectSYNFlood_exact_unit |].
    split; [by apply detectHTTPFlood_exact_unit |].
    split; [by apply detectSlowloris_exact_unit |].
    split; [by apply detectUDPFlood_exact_unit |].
    by apply detectRateAnomaly_exact_unit.
Qed.

(** [confidence_in_unit] at the seed detector and the batch of 1500
    TCP_SYN records, on binary64. *)
Lemma confidence_in_unit_witness :
  sane_thresholds (thresholds (NewDetector (F := float)))
  /\ len Examples.syn_1500 <= int_max
  /\ Forall unit_b64 (AnalyzeTraffic NewDetector Examples.syn_1500 Examples.w0).1.
Proof.
  assert (Hsane : sane_thresholds (thresholds (NewDetector (F := float)))).
  { split; [cbn; lia |]. split; [cbn; lia |]. vm_compute. reflexivity. }
  assert (Hlen : len Examples.syn_1500 <= int_max) by (vm_compute; discriminate).
  split; [exact Hsane |]. split; [exact Hlen |].
  exact (proj1 (proj2 (proj2 confidence_in_unit)) NewDetector Examples.syn_1500
           Examples.w0 Hsane Hlen).
Defined.

(** * The rest of the detector, the simulator and the metrics of a minute *)

(** ** The aggregator *)

(** X1: whatever the batch and the world, the metrics [calculateMetrics]
    returns hold: the number of records; the number of distinct source
    addresses; for every address, protocol tag and path the number of
    records that carry it (0 for one that does not occur), with an entry in
    the address map exactly for the addresses that occur; as SYN count the
    count of the tag TCP_SYN; three count maps that each total the length of
    the batch; as average duration the sum of the durations (wrapped to 64
    bits) over the number of records, and 0 for the empty batch; and as
    requests per address the number of records over the number of distinct
    addresses.  In exact arithmetic, for a batch whose length is an int, the
    two entropies are the Shannon entropies of the address counts and of the
    path counts.  On binary64 the requests per address of the empty batch
    are 0/0, not a number. *)
Theorem calculateMetrics_spec :
  (forall (F : Type) (FF : Float64 F) (requests : list TrafficRequest) (w : World),
     let m := (calculateMetrics requests w).1 in
     TotalRequests m = len requests
     /\ UniqueIPs m = distinct_sources requests
     /\ (forall ip, get (IPCounts m) ip = hits ip requests)
     /\ (forall proto, get (ProtocolCounts m) proto = len (tagged proto requests))
     /\ (forall path, get (PathCounts m) path = len (on_path path requests))
     /\ (forall ip, is_Some (IPCounts m !! ip) <-> ip ∈ SourceIP <$> requests)
     /\ SYNPacketCount m = get (ProtocolCounts m) "TCP_SYN"
     /\ total_count (IPCounts m) = len requests
     /\ total_count (ProtocolCounts m) = len requests
     /\ total_count (PathCounts m) = len requests
     /\ AvgConnDuration m
        = (if decide (requests = []) then ofInt 0
           else ofInt (wrap64 (durations requests)) /! ofInt (len requests))
     /\ RequestsPerIP m = ofInt (len requests) /! ofInt (distinct_sources requests))
  /\ (forall (requests : list TrafficRequest) (w : World),
        len requests <= int_max ->
        let m := (calculateMetrics (F := R) requests w).1 in
        IPEntropy m = shannon (IPCounts m) /\ PathEntropy m = shannon (PathCounts m))
  /\ (forall w : World,
        is_nan (RequestsPerIP (calculateMetrics (F := float) [] w).1) = true).
Proof.
  split; [| split].
  - intros F FF requests w m. subst m.
    destruct (tally_all_spec requests) as (Hip & Hproto & Hpath & Hdur & Hsyn & T1 & T2 & T3).
    cbv zeta in *. unfold calculateMetrics. rewrite !run_bind, run_ret.
    cbn [fst TotalRequests UniqueIPs IPCounts ProtocolCounts PathCounts SYNPacketCount
         AvgConnDuration RequestsPerIP].
    pose proof (counts_sources_size _ _ (proj1 (counts_by_sources _ _) Hip)) as Hsize.
    repeat split; try done.
    + apply Hip.
    + apply Hproto.
    + apply Hpath.
    + intros Hsome. apply hits_pos.
      by apply (counts_sources_is_Some _ _ ip (proj1 (counts_by_sources _ _) Hip)).
    + intros Hin. apply (counts_sources_is_Some _ _ ip (proj1 (counts_by_sources _ _) Hip)).
      by apply hits_pos.
    + rewrite Hsyn. symmetry. apply Hproto.
    + rewrite Hdur. destruct requests as [|r requests]; [reflexivity |].
      destruct (decide (r :: requests = [])); [done |].
      destruct (Z.ltb_spec 0 (len (r :: requests))); [done |].
      unfold len in *. simpl in *. lia.
    + unfold len_map. by rewrite Hsize.
  - intros requests w Hlen m. subst m.
    destruct (tally_all_spec requests) as (Hip & _ & Hpath & _ & _ & T1 & _ & T3).
    cbv zeta in *. unfold calculateMetrics. rewrite !run_bind, run_ret.
    cbn [fst IPEntropy PathEntropy IPCounts PathCounts].
    split; apply calculateEntropy_exact.
    + intros k c Hk. destruct (counts_by_lookup _ _ _ _ _ Hip Hk). lia.
    + by rewrite T1.
    + intros k c Hk. destruct (counts_by_lookup _ _ _ _ _ Hpath Hk). lia.
    + by rewrite T3.
  - intros w. vm_compute. reflexivity.
Qed.

(** [calculateMetrics_spec] on the batch of three HTTP records. *)
Lemma calculateMetrics_spec_witness :
  len http_3 <= int_max
  /\ IPEntropy (calculateMetrics (F := R) http_3 Examples.w0).1
     = shannon (IPCounts (calculateMetrics (F := R) http_3 Examples.w0).1)
  /\ PathEntropy (calculateMetrics (F := R) http_3 Examples.w0).1
     = shannon (PathCounts (calculateMetrics (F := R) http_3 Examples.w0).1).
Proof.
  assert (Hlen : len http_3 <= int_max) by (vm_compute; discriminate).
  split; [exact Hlen |].
  exact (proj1 (proj2 calculateMetrics_spec) http_3 Examples.w0 Hlen).
Defined.

(** ** The Slowloris and UDP-flood detectors *)

Lemma slow_snoc (limit : Z) (l : list TrafficRequest) (r : TrafficRequest) :
  slow limit (l ++ [r])
  = slow limit l ++ (if bool_decide (Protocol r = "HTTP") && (limit <? Duration r)
                     then [r] else []).
Proof.
  unfold slow. rewrite filter_app, filter_cons, filter_nil.
  case_bool_decide; destruct (Z.ltb_spec limit (Duration r)); cbn [andb];
    case_decide; try done; intuition lia.
Qed.

Lemma slow_tally_all (limit : Z) (requests : list TrafficRequest) :
  let acc := foldl (slow_tally limit) (0, ∅) requests in
  acc.1 = len (slow limit requests) /\ counts_sources acc.2 (slow limit requests).
Proof.
  induction requests as [|r requests IH] using rev_ind.
  - split; [reflexivity | apply counts_sources_nil].
  - cbv zeta in *. rewrite tally_foldl_snoc, slow_snoc. destruct IH as [IH1 IH2].
    unfold slow_tally at 1 3. destruct (_ && _).
    + cbn [fst snd]. split.
      * rewrite IH1. unfold len. rewrite length_app. simpl. lia.
      * by apply counts_sources_snoc.
    + rewrite app_nil_r. done.
Qed.

Lemma udpIPs_of_spec (requests : list TrafficRequest) :
  counts_sources (udpIPs_of requests) (tagged "UDP" requests).
Proof.
  unfold udpIPs_of. induction requests as [|r requests IH] using rev_ind.
  - apply counts_sources_nil.
  - rewrite tally_foldl_snoc, tagged_snoc. case_bool_decide.
    + by apply counts_sources_snoc.
    + by rewrite app_nil_r.
Qed.

(** The keys of a map, in the order of a [range]: each key once. *)
Lemma range_map_keys {V} (m : gmap string V) (w : World) :
  NoDup (range_map m w).1.*1 /\ forall k, k ∈ (range_map m w).1.*1 <-> k ∈ dom m.
Proof.
  pose proof (range_map_perm m w) as Hp.
  assert (Hk : (range_map m w).1.*1 ≡ₚ (map_to_list m).*1) by (by apply fmap_Permutation).
  split.
  - rewrite Hk. apply NoDup_fst_map_to_list.
  - intros k. rewrite Hk, (dom_alt (D := gset string) m). by rewrite elem_of_list_to_set.
Qed.

(** X2: [detectSlowloris] looks at the HTTP records of the batch that
    lasted longer than the configured slow-connection time, and at nothing
    else (not at the metrics).  It returns a finding exactly when there are
    more than 100 of them and they come from fewer than 10 distinct
    addresses; the finding has type SLOWLORIS, confidence
    Min(count / 300, 1), the severity of that confidence, a source list that
    names each address of these records once and no other address, and a
    description with the count and the number of addresses. *)
Theorem detectSlowloris_spec {F} `{Float64 F} (d : Detector F)
    (requests : list TrafficRequest) (metrics : TrafficMetrics F) (w : World) :
  let s := slow (SlowConnectionTime (thresholds d)) requests in
  let fires := (100 <? len s) && (distinct_sources s <? 10) in
  match (detectSlowloris d requests metrics w).1 with
  | Some a =>
      fires = true
      /\ Attack_Type a = "SLOWLORIS"
      /\ Confidence a = Min (ofInt (len s) /! ofInt 300) (ofInt 1)
      /\ Severity a = getSeverity (Confidence a)
      /\ NoDup (SourceIPs a)
      /\ (forall ip, ip ∈ SourceIPs a <-> ip ∈ SourceIP <$> s)
      /\ Description a = mkSprintf "Slowloris detected: %d slow connections from %d IPs"
                           [ArgInt (len s); ArgInt (distinct_sources s)]
  | None => fires = false
  end.
Proof.
  intros s fires. subst fires. unfold detectSlowloris.
  destruct (slow_tally_all (SlowConnectionTime (thresholds d)) requests) as [Hcount Hips].
  destruct (foldl _ (0, ∅) requests) as [slowConnections slowIPs].
  cbn [fst snd] in Hcount, Hips. fold s in Hcount, Hips. subst slowConnections.
  pose proof (counts_sources_size _ _ Hips) as Hsize. unfold len_map. rewrite Hsize.
  destruct (_ && _); [| by rewrite run_ret].
  rewrite !run_bind, run_ret.
  cbn [fst snd Attack_Type Confidence Severity SourceIPs Description].
  destruct (range_map_keys slowIPs w) as [Hnd Hkeys].
  repeat split; try done.
  - intros Hin. apply Hkeys in Hin. destruct Hips as [_ Hdom]. rewrite Hdom in Hin.
    by apply elem_of_list_to_set in Hin.
  - intros Hin. apply Hkeys. destruct Hips as [_ Hdom]. rewrite Hdom.
    by apply elem_of_list_to_set.
Qed.

(** X3: run on the metrics of the batch, [detectUDPFlood] returns a finding
    exactly when the batch has at least 2000 UDP records, whatever the
    thresholds of the detector are and from however many addresses the
    records come; the finding has type UDP_FLOOD, confidence
    Min(count / 5000, 1), the severity of that confidence, as source list
    the 20 source addresses with the most UDP records by that number
    descending (all of them when there are fewer), and a description with
    the count and the number of distinct addresses. *)
Theorem detectUDPFlood_spec {F} `{Float64 F} (d : Detector F)
    (requests : list TrafficRequest) (w w' : World) :
  let metrics := (calculateMetrics requests w).1 in
  let udp := tagged "UDP" requests in
  match (detectUDPFlood d requests metrics w').1 with
  | Some a =>
      2000 <= len udp
      /\ Attack_Type a = "UDP_FLOOD"
      /\ Confidence a = Min (ofInt (len udp) /! ofInt 5000) (ofInt 1)
      /\ Severity a = getSeverity (Confidence a)
      /\ top_sources 20 udp (SourceIPs a)
      /\ Description a = mkSprintf "UDP flood detected: %d UDP packets from %d IPs"
                           [ArgInt (len udp); ArgInt (distinct_sources udp)]
  | None => len udp < 2000
  end.
Proof.
  intros metrics udp. unfold detectUDPFlood. cbv zeta.
  assert (Hcount : get (ProtocolCounts metrics) "UDP" = len udp).
  { subst metrics. unfold calculateMetrics. rewrite !run_bind, run_ret.
    cbn [fst ProtocolCounts].
    destruct (tally_all_spec requests) as (_ & Hproto & _). apply Hproto. }
  rewrite Hcount.
  destruct (Z.ltb_spec (len udp) 2000) as [Hlt | Hge]; [by rewrite run_ret |].
  rewrite !run_bind, run_ret.
  cbn [fst snd Attack_Type Confidence Severity SourceIPs Description].
  pose proof (udpIPs_of_spec requests) as Hips. fold udp in Hips.
  split; [done |]. split; [done |]. split; [done |]. split; [done |]. split.
  - apply (top_of_top_sources _ udp 20 _ Hips), getTopIPs_top_of.
  - unfold len_map. by rewrite (counts_sources_size _ _ Hips).
Qed.

(** ** The ranking of [getTopIPs] *)

(** With no two equal counts there is one ranking only. *)
Lemma top_of_unique (counts : gmap string Z) (n : nat) (r r' : list string) :
  distinct_counts counts -> top_of counts n r -> top_of counts n r' -> r = r'.
Proof.
  intros Hd (Hnd & Hlen & Hin & Hsorted & Hout) (Hnd' & Hlen' & Hin' & Hsorted' & Hout').
  assert (Hstep : forall (a b : list string),
            NoDup b ->
            (forall ip, ip ∈ a -> is_Some (counts !! ip)) ->
            (forall ip, ip ∈ b -> is_Some (counts !! ip)) ->
            (forall i j ip ip', (i < j)%nat -> a !! i = Some ip -> a !! j = Some ip' ->
               get counts ip' <= get counts ip) ->
            (forall ip ip', is_Some (counts !! ip) -> ip ∉ a -> ip' ∈ a ->
               get counts ip <= get counts ip') ->
            forall i ip ip',
              (forall j, (j < i)%nat -> a !! j = b !! j) ->
              a !! i = Some ip -> b !! i = Some ip' ->
              get counts ip' <= get counts ip).
  { intros a b Hndb Hina Hinb Hsa Houta i ip ip' Hpre Ha Hb.
    destruct (decide (ip' ∈ a)) as [Hmem | Hnot].
    - apply list_elem_of_lookup in Hmem as [j Hj].
      destruct (decide (j < i)%nat) as [Hlt | Hge].
      + exfalso. rewrite (Hpre j Hlt) in Hj.
        pose proof (NoDup_lookup _ _ _ _ Hndb Hj Hb). lia.
      + destruct (decide (j = i)) as [-> | Hne]; [by simplify_eq |].
        apply (Hsa i j); [lia | done | done].
    - apply Houta; [| done |].
      + apply Hinb. apply list_elem_of_lookup. eauto.
      + apply list_elem_of_lookup. eauto. }
  assert (Hall : forall i, r !! i = r' !! i).
  { intros i. induction i as [i IH] using lt_wf_ind.
    destruct (r !! i) as [ip|] eqn:Ha, (r' !! i) as [ip'|] eqn:Hb; [| | | done].
    - f_equal.
      pose proof (Hstep r r' Hnd' Hin Hin' Hsorted Hout i ip ip' IH Ha Hb) as H1.
      pose proof (Hstep r' r Hnd Hin' Hin Hsorted' Hout' i ip' ip
                    (fun j Hj => eq_sym (IH j Hj)) Hb Ha) as H2.
      destruct (Hin ip) as [c Hc]; [apply list_elem_of_lookup; eauto |].
      destruct (Hin' ip') as [c' Hc']; [apply list_elem_of_lookup; eauto |].
      unfold get in H1, H2. rewrite Hc, Hc' in H1, H2. simpl in H1, H2.
      assert (c = c') by lia. subst c'. by apply (Hd ip ip' c).
    - apply lookup_lt_Some in Ha. apply lookup_ge_None in Hb. lia.
    - apply lookup_lt_Some in Hb. apply lookup_ge_None in Ha. lia. }
  by apply list_eq.
Qed.

(** X4: for every count map, every [n] and every order of the [range],
    [getTopIPs] returns [n] keys of the map (all of them when the map has
    fewer), each once, by count descending, and no key it leaves out has a
    larger count than a key it returns; for [n] = 0 it returns the empty
    list; when the map has at most [n] keys it returns a rearrangement of all
    its keys; and when no two keys have the same count the result does not
    depend on the order of the [range]: ties alone make it depend on it. *)
Theorem getTopIPs_spec (counts : gmap string Z) (n : nat) (w : World) :
  let r := (getTopIPs counts n w).1 in
  top_of counts n r
  /\ (n = 0%nat -> r = [])
  /\ ((size counts <= n)%nat -> r ≡ₚ (map_to_list counts).*1)
  /\ (distinct_counts counts -> forall w', (getTopIPs counts n w').1 = r).
Proof.
  intros r. pose proof (getTopIPs_top_of counts n w) as Htop. fold r in Htop.
  split; [exact Htop |]. split; [| split].
  - intros ->. destruct Htop as (_ & Hlen & _). by destruct r.
  - intros Hn. destruct Htop as (Hnd & Hlen & Hin & _).
    apply submseteq_length_Permutation.
    + apply NoDup_submseteq; [done |]. intros ip Hip.
      destruct (Hin ip Hip) as [c Hc].
      apply list_elem_of_fmap. exists (ip, c). split; [done |].
      by apply elem_of_map_to_list.
    + rewrite length_fmap, length_map_to_list, Hlen. lia.
  - intros Hd w'. apply (top_of_unique counts n); [done | apply getTopIPs_top_of | done].
Qed.

(** [getTopIPs_spec] on three addresses with different counts: two of them,
    the same two in any world. *)
Lemma getTopIPs_spec_witness :
  distinct_counts three_sources
  /\ forall w', (getTopIPs three_sources 2 w').1 = (getTopIPs three_sources 2 Examples.w0).1.
Proof.
  assert (Hd : distinct_counts three_sources).
  { intros k k' c Hk Hk'.
    apply elem_of_map_to_list in Hk, Hk'.
    assert (Hl : map_to_list three_sources
                 ≡ₚ [("10.0.0.1", 7); ("10.0.0.2", 3); ("10.0.0.3", 5)]).
    { unfold three_sources. apply map_to_list_to_map.
      apply (bool_decide_unpack _). vm_compute. exact I. }
    rewrite Hl in Hk, Hk'.
    set_unfold. naive_solver. }
  split; [exact Hd |].
  exact (proj2 (proj2 (proj2 (getTopIPs_spec three_sources 2 Examples.w0))) Hd).
Defined.

(** ** The severity of a confidence *)

(** Comparisons of binary64 values chain through a finite positive value. *)
Lemma SFleb_trans_posfin (x y z : spec_float) :
  sf_posfin x -> SFleb x y = true -> SFleb y z = true -> SFleb x z = true.
Proof.
  destruct x as [| | |[] mx ex]; simpl; try done. intros _.
  destruct y as [[]|[]| |[] my ey], z as [[]|[]| |[] mz ez];
    unfold SFleb, SFcompare; try done.
  change (Pcompare ?a ?b Eq) with (Pos.compare a b).
  destruct (Z.compare_spec ex ey), (Z.compare_spec ey ez), (Z.compare_spec ex ez);
    try done; try lia; subst;
    destruct (Pos.compare_spec mx my), (Pos.compare_spec my mz), (Pos.compare_spec mx mz);
    try done; lia.
Qed.

Lemma leb_trans_posfin (t x y : float) :
  sf_posfin (Prim2SF t) ->
  (t <=? x)%float = true -> (x <=? y)%float = true -> (t <=? y)%float = true.
Proof. rewrite !leb_spec. apply SFleb_trans_posfin. Qed.

(** A value that is not a number fails every comparison. *)
Lemma leb_nan (t c : float) : is_nan c = true -> (t <=? c)%float = false.
Proof.
  unfold is_nan. rewrite FloatAxioms.eqb_spec, leb_spec. intros Hnan.
  destruct (Prim2SF c) as [[]|[]| |[] m e]; unfold SFeqb, SFcompare in Hnan;
    try discriminate.
  - by destruct (Prim2SF t) as [[]|[]| |[] ? ?].
  - rewrite Z.compare_refl in Hnan. change (Pcompare ?a ?b Eq) with (Pos.compare a b) in Hnan.
    rewrite Pos.compare_refl in Hnan. discriminate.
  - rewrite Z.compare_refl in Hnan. change (Pcompare ?a ?b Eq) with (Pos.compare a b) in Hnan.
    rewrite Pos.compare_refl in Hnan. discriminate.
Qed.

(** X5: [getSeverity] is monotone: of two confidences the larger one never
    gets the lower severity (LOW < MEDIUM < HIGH < CRITICAL), on binary64
    and in exact arithmetic; and on binary64 a confidence that is not a
    number gets LOW. *)
Theorem getSeverity_monotone :
  (forall c1 c2 : float,
     (c1 <=? c2)%float = true ->
     (severity_rank (getSeverity c1) <= severity_rank (getSeverity c2))%nat)
  /\ (forall c : float, is_nan c = true -> getSeverity c = "LOW")
  /\ (forall c1 c2 : R,
        (c1 <= c2)%R ->
        (severity_rank (getSeverity c1) <= severity_rank (getSeverity c2))%nat).
Proof.
  split; [| split].
  - intros c1 c2 Hle. unfold getSeverity. cbn [fle binary64].
    destruct lit_is_literal as (-> & -> & -> & _).
    assert (Hup : forall t : float, sf_posfin (Prim2SF t) ->
              (t <=? c1)%float = true -> (t <=? c2)%float = true).
    { intros t Ht H1. by apply (leb_trans_posfin t c1 c2). }
    destruct (0.9 <=? c1)%float eqn:E9.
    { rewrite (Hup 0.9%float) by done. done. }
    destruct (0.7 <=? c1)%float eqn:E7.
    { rewrite (Hup 0.7%float) by done. destruct (0.9 <=? c2)%float; vm_compute; lia. }
    destruct (0.5 <=? c1)%float eqn:E5.
    { rewrite (Hup 0.5%float) by done.
      destruct (0.9 <=? c2)%float; [vm_compute; lia |].
      destruct (0.7 <=? c2)%float; vm_compute; lia. }
    change (severity_rank "LOW") with 0%nat. lia.
  - intros c Hnan. unfold getSeverity. cbn [fle binary64].
    by rewrite !leb_nan.
  - intros c1 c2 Hle. unfold getSeverity. rewrite !exact_lit. cbn [fle exact].
    unfold Exact.leb.
    destruct (Rle_dec (9 / 10) c1), (Rle_dec (9 / 10) c2),
      (Rle_dec (7 / 10) c1), (Rle_dec (7 / 10) c2),
      (Rle_dec (5 / 10) c1), (Rle_dec (5 / 10) c2);
      try lra; vm_compute; lia.
Qed.

(** [getSeverity_monotone] at 0.6 and 0.95: MEDIUM and CRITICAL. *)
Lemma getSeverity_monotone_witness :
  (0.6 <=? 0.95)%float = true
  /\ (severity_rank (getSeverity 0.6%float) <= severity_rank (getSeverity 0.95%float))%nat.
Proof.
  assert (Hle : (0.6 <=? 0.95)%float = true) by (vm_compute; reflexivity).
  split; [exact Hle |].
  exact (proj1 getSeverity_monotone 0.6%float 0.95%float Hle).
Defined.

(** ** Identifiers and start times *)

Lemma quiet_ret {A} (x : A) : quiet (mret x).
Proof. intros w. by rewrite run_ret. Qed.

Lemma quiet_bind {A B} (c : M A) (f : A -> M B) :
  quiet c -> (forall x, quiet (f x)) -> quiet (c ≫= f).
Proof.
  intros Hc Hf w. rewrite run_bind.
  destruct (Hc w) as (Hus & Hun & Hcs & Hcn).
  destruct (Hf (c w).1 (c w).2) as (Hus' & Hun' & Hcs' & Hcn').
  repeat split; congruence.
Qed.

Lemma quiet_range_map {V} (m : gmap string V) : quiet (range_map m).
Proof. intros w. by unfold range_map. Qed.

Lemma stamps_none {F} : stamps (F := F) (mret None).
Proof. intros w. rewrite run_ret. unfold stamped. cbn. by rewrite !Nat.add_0_r. Qed.

(** The shape of a detector that has decided to report: some quiet work,
    then one identifier, then one clock reading. *)
Lemma stamps_some {F A} (c : M A) (mk : A -> string -> Z -> Attack F) :
  quiet c ->
  (forall x id now, Attack_ID (mk x id now) = id /\ StartTime (mk x id now) = now) ->
  stamps (x ← c; id ← uuid_New; now ← time_Now; mret (Some (mk x id now))).
Proof.
  intros Hc Hmk w. rewrite !run_bind, run_ret. cbn [fst snd].
  destruct (Hc w) as (Hus & Hun & Hcs & Hcn).
  unfold stamped, uuid_New, time_Now. cbn.
  destruct (Hmk (c w).1 (uuid_src (c w).2 (uuid_n (c w).2))
              (clock_src (c w).2 (clock_n (c w).2))) as [-> ->].
  rewrite Hus, Hun, Hcs, Hcn. repeat split; lia.
Qed.

Lemma stamped_refl {F} (w : World) : stamped (F := F) w [] w.
Proof. unfold stamped. cbn. by rewrite !Nat.add_0_r. Qed.

(** One more detector after a list of stamped findings. *)
Lemma stamped_append {F} (w w1 : World) (l : list (Attack F)) (c : M (option (Attack F))) :
  stamped w l w1 -> stamps c -> stamped w (append_found l (c w1).1) (c w1).2.
Proof.
  intros (Hus & Hcs & Hun & Hcn & Hid & Ht) Hc.
  destruct (Hc w1) as (Hus' & Hcs' & Hun' & Hcn' & Hid' & Ht').
  destruct (c w1).1 as [a|]; cbn [option_list append_found length] in *.
  - unfold stamped. rewrite length_app, !fmap_app. cbn [length].
    rewrite !seq_app, !fmap_app, <- Hid, <- Ht. cbn [seq fmap list_fmap] in *.
    injection Hid' as Hid'. injection Ht' as Ht'.
    rewrite Hid', Ht', Hus, Hcs, Hun, Hcn. simpl in Hun', Hcn'.
    repeat split; try congruence; lia.
  - unfold stamped. rewrite !Nat.add_0_r in *.
    repeat split; congruence.
Qed.

Section stamping.

Context {F : Type} `{Float64 F}.

Lemma quiet_calculateEntropy (counts : gmap string Z) : quiet (calculateEntropy counts).
Proof.
  unfold calculateEntropy. apply quiet_bind; [apply quiet_range_map |]. intros es.
  destruct (_ =? 0); [apply quiet_ret |].
  apply quiet_bind; [apply quiet_range_map |]. intros es'. apply quiet_ret.
Qed.

Lemma quiet_getTopIPs (counts : gmap string Z) (n : nat) : quiet (getTopIPs counts n).
Proof.
  unfold getTopIPs. apply quiet_bind; [apply quiet_range_map |]. intros es. apply quiet_ret.
Qed.

Lemma quiet_calculateMetrics (requests : list TrafficRequest) :
  quiet (calculateMetrics requests).
Proof.
  unfold calculateMetrics. apply quiet_bind; [apply quiet_calculateEntropy |]. intros e.
  apply quiet_bind; [apply quiet_calculateEntropy |]. intros e'. apply quiet_ret.
Qed.

Lemma stamps_detectSYNFlood d requests metrics : stamps (detectSYNFlood d requests metrics).
Proof.
  unfold detectSYNFlood. destruct (_ <? _); [apply stamps_none |].
  destruct (_ && _); [| apply stamps_none].
  apply (stamps_some (range_map _)
           (fun es id now => mkAttack id _ _ _ now _ _ _ _ _)); [apply quiet_range_map | done].
Qed.

Lemma stamps_detectHTTPFlood d requests metrics : stamps (detectHTTPFlood d requests metrics).
Proof.
  unfold detectHTTPFlood. destruct (foldl _ _ _) as [httpCount httpIPs].
  destruct (_ <? _); [apply stamps_none |].
  destruct (_ <! _); [| apply stamps_none].
  apply (stamps_some (getTopIPs _ _)
           (fun ips id now => mkAttack id _ _ _ now _ _ _ _ _)); [apply quiet_getTopIPs | done].
Qed.

Lemma stamps_detectSlowloris d requests metrics : stamps (detectSlowloris d requests metrics).
Proof.
  unfold detectSlowloris. destruct (foldl _ _ _) as [slowConnections slowIPs].
  destruct (_ && _); [| apply stamps_none].
  apply (stamps_some (range_map _)
           (fun es id now => mkAttack id _ _ _ now _ _ _ _ _)); [apply quiet_range_map | done].
Qed.

Lemma stamps_detectUDPFlood d requests metrics : stamps (detectUDPFlood d requests metrics).
Proof.
  unfold detectUDPFlood. destruct (_ <? _); [apply stamps_none |].
  apply (stamps_some (getTopIPs _ _)
           (fun ips id now => mkAttack id _ _ _ now _ _ _ _ _)); [apply quiet_getTopIPs | done].
Qed.

Lemma stamps_detectRateAnomaly d metrics : stamps (detectRateAnomaly d metrics).
Proof.
  unfold detectRateAnomaly. destruct (_ >! _); [| apply stamps_none].
  destruct (_ <! _); [| apply stamps_none].
  apply (stamps_some (getTopIPs _ _)
           (fun ips id now => mkAttack id _ _ _ now _ _ _ _ _)); [apply quiet_getTopIPs | done].
Qed.

Lemma stamped_AnalyzeTraffic d requests w :
  stamped w (AnalyzeTraffic d requests w).1 (AnalyzeTraffic d requests w).2.
Proof.
  unfold AnalyzeTraffic. destruct (_ =? 0); [rewrite run_ret; apply stamped_refl |].
  rewrite !run_bind, run_ret. cbn [fst snd].
  set (w0 := (calculateMetrics requests w).2).
  set (metrics := (calculateMetrics requests w).1).
  assert (H0 : stamped (F := F) w [] w0).
  { destruct (quiet_calculateMetrics requests w) as (Hus & Hun & Hcs & Hcn).
    unfold stamped. cbn. fold w0 in Hus, Hun, Hcs, Hcn. rewrite Hus, Hun, Hcs, Hcn.
    by rewrite !Nat.add_0_r. }
  pose proof (stamped_append _ _ _ _ H0 (stamps_detectSYNFlood d requests metrics)) as H1.
  pose proof (stamped_append _ _ _ _ H1 (stamps_detectHTTPFlood d requests metrics)) as H2.
  pose proof (stamped_append _ _ _ _ H2 (stamps_detectSlowloris d requests metrics)) as H3.
  pose proof (stamped_append _ _ _ _ H3 (stamps_detectUDPFlood d requests metrics)) as H4.
  exact (stamped_append _ _ _ _ H4 (stamps_detectRateAnomaly d metrics)).
Qed.

End stamping.

(** X6: [AnalyzeTraffic] draws one identifier and reads the clock once for
    each finding it returns, and never otherwise: the identifiers (start
    times) of the findings are, in the order of the list, the next values
    the generator (the clock) hands out, and the two cursors have advanced by
    the number of findings.  So with a generator that never repeats itself
    the findings of one run have pairwise different identifiers. *)
Theorem AnalyzeTraffic_stamps {F} `{Float64 F} (d : Detector F)
    (requests : list TrafficRequest) (w : World) :
  let findings := (AnalyzeTraffic d requests w).1 in
  let w' := (AnalyzeTraffic d requests w).2 in
  Attack_ID <$> findings = uuid_src w <$> seq (uuid_n w) (length findings)
  /\ StartTime <$> findings = clock_src w <$> seq (clock_n w) (length findings)
  /\ uuid_n w' = (uuid_n w + length findings)%nat
  /\ clock_n w' = (clock_n w + length findings)%nat
  /\ (fresh_ids w -> NoDup (Attack_ID <$> findings)).
Proof.
  intros findings w'.
  destruct (stamped_AnalyzeTraffic d requests w) as (_ & _ & Hun & Hcn & Hid & Ht).
  fold findings in Hun, Hcn, Hid, Ht. fold w' in Hun, Hcn.
  repeat split; try done.
  intros Hfresh. rewrite Hid. apply NoDup_fmap_2; [| apply NoDup_seq].
  intros i j. apply Hfresh.
Qed.

(** [AnalyzeTraffic_stamps] on the batch of 1500 TCP_SYN records, in a world
    that numbers its identifiers. *)
Lemma AnalyzeTraffic_stamps_witness :
  fresh_ids counting_world
  /\ NoDup (Attack_ID <$> (AnalyzeTraffic (F := float) NewDetector Examples.syn_1500
                             counting_world).1).
Proof.
  assert (Hfresh : fresh_ids counting_world).
  { intros i j E. cbn in E. by apply (inj pretty) in E. }
  split; [exact Hfresh |].
  exact (proj2 (proj2 (proj2 (proj2
           (AnalyzeTraffic_stamps NewDetector Examples.syn_1500 counting_world)))) Hfresh).
Defined.

(** ** The source list of a finding *)

Lemma tagged_sources (proto ip : string) (requests : list TrafficRequest) :
  ip ∈ SourceIP <$> tagged proto requests -> ip ∈ SourceIP <$> requests.
Proof.
  intros Hin. apply list_elem_of_fmap in Hin as (r & -> & Hr).
  apply list_elem_of_filter in Hr as [_ Hr]. apply list_elem_of_fmap. eauto.
Qed.

Lemma slow_sources (limit : Z) (ip : string) (requests : list TrafficRequest) :
  ip ∈ SourceIP <$> slow limit requests -> ip ∈ SourceIP <$> requests.
Proof.
  intros Hin. apply list_elem_of_fmap in Hin as (r & -> & Hr).
  apply list_elem_of_filter in Hr as [_ Hr]. apply list_elem_of_fmap. eauto.
Qed.

(** The keys of a map in the order of a [range], as a source list. *)
Lemma range_map_names {V} (m : gmap string V) (l : list TrafficRequest) (w : World) :
  dom m = list_to_set (C := gset string) (SourceIP <$> l) ->
  NoDup (range_map m w).1.*1
  /\ length (range_map m w).1.*1 = size m
  /\ forall ip, ip ∈ (range_map m w).1.*1 -> ip ∈ SourceIP <$> l.
Proof.
  intros Hdom. destruct (range_map_keys m w) as [Hnd Hkeys].
  split; [done |]. split.
  - rewrite length_fmap, (range_map_perm m w). apply length_map_to_list.
  - intros ip Hip. apply Hkeys in Hip. rewrite Hdom in Hip.
    by apply elem_of_list_to_set in Hip.
Qed.

(** A ranking of the senders of [l], as a source list. *)
Lemma top_sources_names (n : nat) (l : list TrafficRequest) (r : list string) :
  top_sources n l r ->
  NoDup r /\ (length r <= n)%nat /\ forall ip, ip ∈ r -> ip ∈ SourceIP <$> l.
Proof.
  intros (Hnd & Hlen & Hin & _). split; [done |]. split.
  - unfold len in Hlen. lia.
  - intros ip Hip. by apply hits_pos, Hin.
Qed.

Section senders.

Context {F : Type} `{Float64 F}.
Variable d : Detector F.
Variable requests : list TrafficRequest.

Ltac open_finding :=
  intros w a; rewrite ?run_bind, ?run_ret; cbn [fst snd];
  intros E; inversion E; subst; clear E;
  unfold names_senders;
  cbn [SourceIPs Attack_Type EndTime TargetIPs Mitigated].

Lemma detectSYNFlood_names metrics :
  all_findings (names_senders requests) (detectSYNFlood d requests metrics).
Proof.
  unfold detectSYNFlood. destruct (_ <? _); [by intros w a |].
  destruct (SYNFloodThreshold (thresholds d) <? SYNPacketCount metrics); cbn [andb];
    [| by intros w a].
  destruct (Z.ltb_spec (len_map (synIPs_of requests)) 10) as [Hfew |]; [| by intros w a].
  open_finding.
  assert (Hdom : dom (synIPs_of requests)
                 = list_to_set (C := gset string) (SourceIP <$> tagged "TCP_SYN" requests)).
  { unfold synIPs_of. rewrite synIPs_foldl, dom_empty_L. set_solver. }
  destruct (range_map_names _ _ w Hdom) as (Hnd & Hlen & Hin).
  unfold len_map in Hfew. unfold range_map in Hnd, Hlen, Hin. cbn [fst] in Hnd, Hlen, Hin.
  repeat split; try done; try lia.
  intros ip Hip. by apply (tagged_sources "TCP_SYN"), Hin.
Qed.

Lemma detectHTTPFlood_names metrics :
  all_findings (names_senders requests) (detectHTTPFlood d requests metrics).
Proof.
  unfold detectHTTPFlood.
  destruct (http_tally_all requests) as [_ Hips].
  destruct (foldl http_tally (0, ∅) requests) as [httpCount httpIPs]. cbn [snd] in Hips.
  destruct (_ <? _); [by intros w a |].
  destruct (_ <! _); [| by intros w a]. open_finding.
  destruct (top_sources_names 20 _ _
              (top_of_top_sources _ _ 20 _ Hips (getTopIPs_top_of httpIPs 20 w)))
    as (Hnd & Hlen & Hin).
  repeat split; try done; try (intros [|]; discriminate).
  intros ip Hip. by apply (tagged_sources "HTTP"), Hin.
Qed.

Lemma detectSlowloris_names metrics :
  all_findings (names_senders requests) (detectSlowloris d requests metrics).
Proof.
  unfold detectSlowloris.
  destruct (slow_tally_all (SlowConnectionTime (thresholds d)) requests) as [_ Hips].
  destruct (foldl _ (0, ∅) requests) as [slowConnections slowIPs]. cbn [snd] in Hips.
  destruct (100 <? slowConnections); cbn [andb]; [| by intros w a].
  destruct (Z.ltb_spec (len_map slowIPs) 10) as [Hfew |]; [| by intros w a].
  open_finding.
  destruct (range_map_names _ _ w (proj2 Hips)) as (Hnd & Hlen & Hin).
  unfold len_map in Hfew. unfold range_map in Hnd, Hlen, Hin. cbn [fst] in Hnd, Hlen, Hin.
  repeat split; try done; try lia.
  intros ip Hip. by apply (slow_sources (SlowConnectionTime (thresholds d))), Hin.
Qed.

Lemma detectUDPFlood_names metrics :
  all_findings (names_senders requests) (detectUDPFlood d requests metrics).
Proof.
  unfold detectUDPFlood. destruct (_ <? _); [by intros w a |]. open_finding.
  destruct (top_sources_names 20 _ _
              (top_of_top_sources _ _ 20 _ (udpIPs_of_spec requests)
                 (getTopIPs_top_of (udpIPs_of requests) 20 w)))
    as (Hnd & Hlen & Hin).
  repeat split; try done; try (intros [|]; discriminate).
  intros ip Hip. by apply (tagged_sources "UDP"), Hin.
Qed.

Lemma detectRateAnomaly_names w0 :
  all_findings (names_senders requests)
    (detectRateAnomaly d (calculateMetrics requests w0).1).
Proof.
  unfold detectRateAnomaly. destruct (_ >! _); [| by intros w a].
  destruct (_ <! _); [| by intros w a]. open_finding.
  assert (Hips : counts_sources (IPCounts (calculateMetrics requests w0).1) requests).
  { unfold calculateMetrics. rewrite !run_bind, run_ret. cbn [fst IPCounts].
    apply counts_by_sources, tally_all_spec. }
  destruct (top_sources_names 20 _ _
              (top_of_top_sources _ _ 20 _ Hips (getTopIPs_top_of _ 20 w)))
    as (Hnd & Hlen & Hin).
  repeat split; try done; intros [|]; discriminate.
Qed.

End senders.

(** X7: every finding [AnalyzeTraffic] returns names each source address at
    most once, names at most 20 addresses (fewer than 10 in a SYN_FLOOD or
    SLOWLORIS finding), names only addresses that sent a record of the
    batch, and has no end time, no target addresses and the mitigation flag
    unset. *)
Theorem AnalyzeTraffic_names_senders {F} `{Float64 F} (d : Detector F)
    (requests : list TrafficRequest) (w : World) :
  Forall (names_senders requests) (AnalyzeTraffic d requests w).1.
Proof.
  apply AnalyzeTraffic_all. intros metrics ->.
  split; [apply detectSYNFlood_names |]. split; [apply detectHTTPFlood_names |].
  split; [apply detectSlowloris_names |]. split; [apply detectUDPFlood_names |].
  apply detectRateAnomaly_names.
Qed.

(** ** What the analysis reads of a batch *)

(** A loop over a batch whose steps commute, and whose step reads a record
    through [view] only, computes the same from two batches with the same
    views up to order. *)
Lemma foldl_view {A} (f : A -> TrafficRequest -> A) (g : A -> string * string * string * Z -> A)
    (a : A) (l1 l2 : list TrafficRequest) :
  (forall x r, f x r = g x (view r)) ->
  (forall x v v', g (g x v) v' = g (g x v') v) ->
  view <$> l1 ≡ₚ view <$> l2 ->
  foldl f a l1 = foldl f a l2.
Proof.
  intros Hfg Hcomm Hp.
  assert (Hf : forall l x, foldl f x l = foldl g x (view <$> l)).
  { intros l. induction l as [|r l IH]; intros x; [done |].
    cbn [foldl fmap list_fmap]. by rewrite IH, Hfg. }
  rewrite !Hf. clear Hf. revert a.
  induction Hp as [| v k k' _ IH | v v' k | k k' k'' _ IH1 _ IH2]; intros a.
  - done.
  - cbn [foldl]. apply IH.
  - cbn [foldl]. by rewrite Hcomm.
  - by rewrite IH1.
Qed.

Lemma incr_comm (k k' : string) (m : gmap string Z) :
  incr k (incr k' m) = incr k' (incr k m).
Proof.
  apply map_eq. intros i. unfold incr.
  destruct (decide (k = k')) as [-> | Hne]; [done |].
  rewrite (insert_insert_ne _ k k') by done.
  f_equal. unfold get. by rewrite !lookup_insert_ne.
Qed.

Lemma len_view (l1 l2 : list TrafficRequest) :
  view <$> l1 ≡ₚ view <$> l2 -> len l1 = len l2.
Proof.
  intros Hp. apply Permutation_length in Hp. rewrite !length_fmap in Hp.
  unfold len. by rewrite Hp.
Qed.

Section reads.

Context {F : Type} `{Float64 F}.
Variables l1 l2 : list TrafficRequest.
Hypothesis Hview : view <$> l1 ≡ₚ view <$> l2.

Lemma tally_all_view : tally_all l1 = tally_all l2.
Proof.
  unfold tally_all.
  apply (foldl_view tally
           (fun t v => {| ipCounts := incr v.1.1.1 (ipCounts t);
                          protocolCounts := incr v.1.1.2 (protocolCounts t);
                          pathCounts := incr v.1.2 (pathCounts t);
                          totalDuration := wrap64 (totalDuration t + v.2);
                          synCount := if bool_decide (v.1.1.2 = "TCP_SYN")
                                      then synCount t + 1 else synCount t |}));
    [done | | done].
  intros t v v'. cbn [ipCounts protocolCounts pathCounts totalDuration synCount]. f_equal.
  - apply incr_comm.
  - apply incr_comm.
  - apply incr_comm.
  - rewrite !wrap64_add_l. f_equal. lia.
  - repeat case_bool_decide; lia.
Qed.

Lemma synIPs_of_view : synIPs_of l1 = synIPs_of l2.
Proof.
  unfold synIPs_of.
  apply (foldl_view _
           (fun (m : gmap string bool) v =>
              if bool_decide (v.1.1.2 = "TCP_SYN") then <[v.1.1.1 := true]> m else m));
    [done | | done].
  intros m v v'. repeat case_bool_decide; try done.
  destruct (decide (v.1.1.1 = v'.1.1.1)) as [-> | Hne]; [done |].
  by apply insert_insert_ne.
Qed.

Lemma http_tally_view : foldl http_tally (0, ∅) l1 = foldl http_tally (0, ∅) l2.
Proof.
  apply (foldl_view _
           (fun (acc : Z * gmap string Z) v =>
              if bool_decide (v.1.1.2 = "HTTP") then (acc.1 + 1, incr v.1.1.1 acc.2) else acc));
    [done | | done].
  intros acc v v'. repeat case_bool_decide; try done. cbn [fst snd].
  f_equal; try lia; apply incr_comm.
Qed.

Lemma slow_tally_view (limit : Z) :
  foldl (slow_tally limit) (0, ∅) l1 = foldl (slow_tally limit) (0, ∅) l2.
Proof.
  apply (foldl_view _
           (fun (acc : Z * gmap string Z) v =>
              if bool_decide (v.1.1.2 = "HTTP") && (limit <? v.2)
              then (acc.1 + 1, incr v.1.1.1 acc.2) else acc));
    [done | | done].
  intros acc v v'.
  destruct (_ && _), (_ && _); try done. cbn [fst snd].
  f_equal; try lia; apply incr_comm.
Qed.

Lemma udpIPs_of_view : udpIPs_of l1 = udpIPs_of l2.
Proof.
  unfold udpIPs_of.
  apply (foldl_view _
           (fun (m : gmap string Z) v =>
              if bool_decide (v.1.1.2 = "UDP") then incr v.1.1.1 m else m));
    [done | | done].
  intros m v v'. repeat case_bool_decide; try done. apply incr_comm.
Qed.

Lemma AnalyzeTraffic_view (d : Detector F) : AnalyzeTraffic d l1 = AnalyzeTraffic d l2.
Proof.
  unfold AnalyzeTraffic, calculateMetrics, detectSYNFlood, detectHTTPFlood,
    detectSlowloris, detectUDPFlood.
  by rewrite tally_all_view, synIPs_of_view, http_tally_view, slow_tally_view,
    udpIPs_of_view, (len_view _ _ Hview).
Qed.

End reads.

(** X8: [AnalyzeTraffic] reads four fields of a record, the source address,
    the protocol tag, the path and the duration, and does not depend on the
    order of the records: two batches whose records agree on these four
    fields, up to a rearrangement, give the same result in the same world
    (same identifiers, clock readings and orders of the [range]s),
    whatever their identifiers, timestamps, destinations, ports, user
    agents, byte counts and status codes are. *)
Theorem AnalyzeTraffic_reads {F} `{Float64 F} (d : Detector F)
    (requests requests' : list TrafficRequest) (w : World) :
  view <$> requests ≡ₚ view <$> requests' ->
  AnalyzeTraffic d requests w = AnalyzeTraffic d requests' w.
Proof. intros Hview. by rewrite (AnalyzeTraffic_view requests requests' Hview). Qed.

(** [AnalyzeTraffic_reads] on [batch_a] and [batch_b]. *)
Lemma AnalyzeTraffic_reads_witness :
  view <$> batch_a ≡ₚ view <$> batch_b
  /\ AnalyzeTraffic (F := float) NewDetector batch_a Examples.w0
     = AnalyzeTraffic NewDetector batch_b Examples.w0.
Proof.
  assert (Hview : view <$> batch_a ≡ₚ view <$> batch_b) by apply perm_swap.
  split; [exact Hview |].
  exact (AnalyzeTraffic_reads NewDetector batch_a batch_b Examples.w0 Hview).
Defined.

(** ** Bounds of the entropy *)

Lemma ln_le_sub1 (x : R) : (0 < x)%R -> (ln x <= x - 1)%R.
Proof.
  intros Hx. pose proof (exp_ineq1_le (ln x)) as Hexp.
  rewrite exp_ln in Hexp by done. lra.
Qed.

(** One term of the sum, against the uniform distribution on [N] categories. *)
Lemma shannon_term_gibbs (total c : Z) (N : R) :
  0 < total -> 0 <= c -> (0 < N)%R ->
  (- shannon_term total c * ln 2
   <= ln N * (IZR c / IZR total) + / N - IZR c / IZR total)%R.
Proof.
  intros Ht Hc HN. unfold shannon_term.
  assert (HT : (0 < IZR total)%R) by (by apply IZR_lt).
  assert (Hln2 : (0 < ln 2)%R) by (pose proof ln_lt_2; lra).
  assert (HNi : (0 < / N)%R) by (by apply Rinv_0_lt_compat).
  destruct (Z.ltb_spec 0 c) as [Hpos | Hzero].
  - set (p := (IZR c / IZR total)%R).
    assert (Hp : (0 < p)%R).
    { unfold p. apply Rdiv_lt_0_compat; [by apply IZR_lt | done]. }
    replace (- (p * (ln p / ln 2)) * ln 2)%R with (- (p * ln p))%R by (field; lra).
    assert (Hq : (0 < / (N * p))%R) by (apply Rinv_0_lt_compat; nra).
    pose proof (ln_le_sub1 _ Hq) as Hg.
    rewrite ln_Rinv, ln_mult in Hg by nra.
    assert (E : (p * (/ (N * p) - 1) = / N - p)%R) by (field; lra).
    nra.
  - assert (c = 0) as -> by lia. unfold Rdiv. rewrite !Rmult_0_l. lra.
Qed.

Lemma shannon_sum_gibbs (total : Z) (N : R) (l : list Z) :
  0 < total -> (0 < N)%R -> Forall (fun c => 0 <= c) l ->
  (- sumR (shannon_term total <$> l) * ln 2
   <= ln N * (IZR (sumZ l) / IZR total) + INR (length l) / N - IZR (sumZ l) / IZR total)%R.
Proof.
  intros Ht HN Hl. induction Hl as [|c l Hc Hl IH].
  - simpl. unfold Rdiv. rewrite !Rmult_0_l, Rmult_0_r. lra.
  - rewrite fmap_cons. cbn [sumR sumZ foldr length].
    fold (sumR (shannon_term total <$> l)). fold (sumZ l).
    rewrite S_INR, plus_IZR.
    pose proof (shannon_term_gibbs total c N Ht Hc HN) as Hterm.
    unfold Rdiv in *. lra.
Qed.

Lemma shannon_term_nonpos (total c : Z) :
  0 < total -> c <= total -> (shannon_term total c <= 0)%R.
Proof.
  intros Ht Hc. unfold shannon_term.
  destruct (Z.ltb_spec 0 c) as [Hpos | _]; [| lra].
  assert (HT : (0 < IZR total)%R) by (by apply IZR_lt).
  assert (HC : (0 < IZR c <= IZR total)%R) by (split; [by apply IZR_lt | by apply IZR_le]).
  assert (Hln2 : (0 < ln 2)%R) by (pose proof ln_lt_2; lra).
  set (p := (IZR c / IZR total)%R).
  assert (Hp : (0 < p <= 1)%R).
  { unfold p. split; [apply Rdiv_lt_0_compat; lra |].
    apply (Rmult_le_reg_r (IZR total)); [done |].
    replace (IZR c / IZR total * IZR total)%R with (IZR c) by (field; lra). lra. }
  assert (Hln : (ln p <= 0)%R).
  { pose proof (ln_le_sub1 p ltac:(lra)). lra. }
  assert ((ln p / ln 2 <= 0)%R).
  { unfold Rdiv. pose proof (Rinv_0_lt_compat _ Hln2). nra. }
  nra.
Qed.

Lemma sumZ_member (l : list Z) (c : Z) :
  Forall (fun c => 0 <= c) l -> c ∈ l -> c <= sumZ l.
Proof.
  intros Hl. induction Hl as [|x l Hx Hl IH]; [by intros ?%elem_of_nil |].
  pose proof (sumZ_nonneg l Hl). cbn [sumZ foldr]. fold (sumZ l).
  intros [-> | Hin]%elem_of_cons; [lia |]. specialize (IH Hin). lia.
Qed.

Lemma shannon_sum_nonpos (total : Z) (l : list Z) :
  0 < total -> Forall (fun c => c <= total) l ->
  (sumR (shannon_term total <$> l) <= 0)%R.
Proof.
  intros Ht Hl. induction Hl as [|c l Hc Hl IH]; [simpl; lra |].
  rewrite fmap_cons. cbn [sumR foldr]. fold (sumR (shannon_term total <$> l)).
  pose proof (shannon_term_nonpos total c Ht Hc). lra.
Qed.

(** The Shannon entropy of a distribution over [size counts] categories
    lies between 0 and the logarithm of that number. *)
Lemma shannon_bounds (counts : gmap string Z) :
  nonneg_counts counts ->
  (0 <= shannon counts)%R
  /\ (size counts <> 0%nat -> (shannon counts * ln 2 <= ln (INR (size counts)))%R).
Proof.
  intros Hc. unfold shannon.
  pose proof (nonneg_counts_values _ Hc) as Hl.
  pose proof (sumZ_nonneg _ Hl) as Hpos. fold (total_count counts) in Hpos.
  destruct (Z.eqb_spec (total_count counts) 0) as [E | Hne].
  - split; [lra |]. intros Hk. rewrite Rmult_0_l.
    assert (H1 : (1 <= INR (size counts))%R).
    { change 1%R with (INR 1). apply le_INR. lia. }
    destruct (Req_dec (INR (size counts)) 1) as [-> | Hk1]; [rewrite ln_1; lra |].
    rewrite <- ln_1. apply Rlt_le, ln_increasing; lra.
  - assert (Ht : 0 < total_count counts) by lia.
    split.
    + assert (sumR (shannon_term (total_count counts) <$> (map_to_list counts).*2) <= 0)%R;
        [| lra].
      apply shannon_sum_nonpos; [done |].
      apply Forall_forall. intros c Hin. by apply sumZ_member.
    + intros Hk.
      assert (Hsize : length (map_to_list counts).*2 = size counts)
        by (by rewrite length_fmap, length_map_to_list).
      assert (HN : (0 < INR (size counts))%R) by (apply lt_0_INR; lia).
      pose proof (shannon_sum_gibbs (total_count counts) (INR (size counts)) _ Ht HN Hl) as Hg.
      rewrite Hsize in Hg. fold (total_count counts) in Hg.
      assert (HT : (0 < IZR (total_count counts))%R) by (by apply IZR_lt).
      replace (IZR (total_count counts) / IZR (total_count counts))%R with 1%R in Hg
        by (field; lra).
      replace (INR (size counts) / INR (size counts))%R with 1%R in Hg by (field; lra).
      lra.
Qed.

(** Fewer than 2^t categories give less than t bits. *)
Lemma shannon_below (counts : gmap string Z) (t : nat) :
  nonneg_counts counts -> (0 < t)%nat -> (size counts < 2 ^ t)%nat ->
  (shannon counts < INR t)%R.
Proof.
  intros Hc Ht Hsize. destruct (shannon_bounds counts Hc) as [_ Hhi].
  assert (Hln2 : (0 < ln 2)%R) by (pose proof ln_lt_2; lra).
  destruct (size counts) as [|k] eqn:Hk.
  - apply map_size_empty_inv in Hk. subst counts.
    unfold shannon. rewrite total_count_empty. cbn. by apply lt_0_INR.
  - specialize (Hhi ltac:(lia)).
    assert (Hlt : (ln (INR (S k)) < INR t * ln 2)%R).
    { rewrite <- ln_pow by lra. apply ln_increasing; [apply lt_0_INR; lia |].
      change 2%R with (INR 2). rewrite <- pow_INR. by apply lt_INR. }
    nra.
Qed.

(** The entropies of the metrics of a batch, in exact arithmetic: fewer
    than 2^t distinct sources (distinct paths) give a source entropy (path
    entropy) below t. *)
Lemma metrics_entropy_below (requests : list TrafficRequest) (w : World) (t : nat) :
  len requests <= int_max -> (0 < t)%nat ->
  let m := (calculateMetrics (F := R) requests w).1 in
  ((size (list_to_set (C := gset string) (SourceIP <$> requests)) < 2 ^ t)%nat ->
   (IPEntropy m < INR t)%R)
  /\ ((size (list_to_set (C := gset string) (RequestPath <$> requests)) < 2 ^ t)%nat ->
      (PathEntropy m < INR t)%R).
Proof.
  intros Hlen Ht m. subst m.
  destruct (tally_all_spec requests) as (Hip & _ & Hpath & _ & _ & T1 & _ & T3).
  cbv zeta in *. unfold calculateMetrics. rewrite !run_bind, run_ret.
  cbn [fst IPEntropy PathEntropy].
  assert (N1 : nonneg_counts (ipCounts (tally_all requests))).
  { intros k c Hk. destruct (counts_by_lookup _ _ _ _ _ Hip Hk). lia. }
  assert (N3 : nonneg_counts (pathCounts (tally_all requests))).
  { intros k c Hk. destruct (counts_by_lookup _ _ _ _ _ Hpath Hk). lia. }
  split; intros Hsize; rewrite calculateEntropy_exact by (done || by rewrite ?T1, ?T3);
    apply shannon_below; try done.
  - destruct Hip as [_ Hdom]. by rewrite <- size_dom, Hdom.
  - destruct Hpath as [_ Hdom]. by rewrite <- size_dom, Hdom.
Qed.

(** X9: in exact arithmetic, on a map of non-negative counts whose total is
    an int, [calculateEntropy] returns a value that is at least 0, at most
    log2 of the number of keys, and so below [t] whenever the map has fewer
    than 2^t keys (below the 2.0 of the HTTP-flood test with fewer than 4
    paths, below a floor of 3.0 with fewer than 8 addresses). *)
Theorem calculateEntropy_bounds (counts : gmap string Z) (w : World) :
  nonneg_counts counts -> total_count counts <= int_max ->
  let h := (calculateEntropy (F := R) counts w).1 in
  (0 <= h)%R
  /\ (size counts <> 0%nat -> (h <= Log2 (ofInt (Z.of_nat (size counts))))%R)
  /\ (forall t : nat, (0 < t)%nat -> (size counts < 2 ^ t)%nat -> (h < INR t)%R).
Proof.
  intros Hc Hmax h. subst h. rewrite calculateEntropy_exact by done.
  destruct (shannon_bounds counts Hc) as [Hlo Hhi].
  assert (Hln2 : (0 < ln 2)%R) by (pose proof ln_lt_2; lra).
  split; [done |]. split.
  - intros Hk. specialize (Hhi Hk).
    cbn [Log2 ofInt exact]. unfold Exact.Log2. rewrite <- INR_IZR_INZ.
    apply (Rmult_le_reg_r (ln 2)); [done |].
    replace (ln (INR (size counts)) / ln 2 * ln 2)%R with (ln (INR (size counts)))
      by (field; lra).
    done.
  - intros t Ht Hsize. by apply shannon_below.
Qed.

(** [calculateEntropy_bounds] on [four_paths]: at most two bits, so below
    three. *)
Lemma calculateEntropy_bounds_witness :
  nonneg_counts four_paths /\ total_count four_paths <= int_max
  /\ (0 <= (calculateEntropy (F := R) four_paths Examples.w0).1)%R
  /\ ((calculateEntropy (F := R) four_paths Examples.w0).1 < INR 3)%R.
Proof.
  assert (Hc : nonneg_counts four_paths).
  { apply (map_Forall_impl (fun _ v => v = 5)); [| intros k v ->; lia].
    apply (bool_decide_unpack _). vm_compute. exact I. }
  assert (Hmax : total_count four_paths <= int_max) by (vm_compute; discriminate).
  assert (Hsize : (size four_paths < 2 ^ 3)%nat) by (vm_compute; lia).
  split; [exact Hc |]. split; [exact Hmax |].
  pose (B := calculateEntropy_bounds four_paths Examples.w0 Hc Hmax).
  split; [exact (proj1 B) |].
  exact (proj2 (proj2 B) 3%nat ltac:(lia) Hsize).
Defined.

(** ** The least confidence of a finding *)

Lemma getSeverity_half (c : R) : (1 / 2 <= c)%R -> getSeverity c <> "LOW".
Proof.
  intros Hc. unfold getSeverity. rewrite !exact_lit. cbn [fle exact]. unfold Exact.leb.
  destruct (Rle_dec (9 / 10) c); [done |]. destruct (Rle_dec (7 / 10) c); [done |].
  destruct (Rle_dec (5 / 10) c); [done | lra].
Qed.

Lemma ratio_half (a b : Z) : 0 < b -> b <= a -> (1 / 2 <= Rmin (IZR a / IZR (2 * b)) 1)%R.
Proof.
  intros Hb Hab. apply Rmin_glb; [| lra].
  assert (HB : (0 < IZR b)%R) by (by apply IZR_lt).
  assert (HA : (IZR b <= IZR a)%R) by (by apply IZR_le).
  rewrite mult_IZR.
  apply (Rmult_le_reg_r (2 * IZR b)); [lra |].
  replace (IZR a / (2 * IZR b) * (2 * IZR b))%R with (IZR a) by (field; lra). lra.
Qed.

Section floors.

Variable d : Detector R.
Variable requests : list TrafficRequest.
Hypothesis Hfirm : firm_thresholds (thresholds d).

Ltac open_floor :=
  intros w a; rewrite ?run_bind, ?run_ret; cbn [fst snd];
  intros E; inversion E; subst; clear E;
  unfold confidence_floor; cbn [Attack_Type Confidence Severity Min ofInt fdiv exact];
  (split; [intros [E | [E | E]]; try discriminate E; clear E;
             (split; [| apply getSeverity_half])
          | split; intros E; try discriminate E; clear E]).

Lemma detectSYNFlood_floor metrics :
  all_findings confidence_floor (detectSYNFlood d requests metrics).
Proof.
  destruct Hfirm as (Hsyn & _ & _). unfold detectSYNFlood.
  destruct (_ <? _); [by intros w a |].
  destruct (Z.ltb_spec (SYNFloodThreshold (thresholds d)) (SYNPacketCount metrics));
    cbn [andb]; [| by intros w a].
  destruct (_ <? 10); [| by intros w a].
  open_floor; rewrite wrap64_twice by lia; apply ratio_half; lia.
Qed.

Lemma detectHTTPFlood_floor metrics :
  all_findings confidence_floor (detectHTTPFlood d requests metrics).
Proof.
  destruct Hfirm as (_ & Hhttp & _). unfold detectHTTPFlood.
  destruct (foldl _ _ _) as [httpCount httpIPs].
  destruct (Z.ltb_spec httpCount (HTTPFloodThreshold (thresholds d))); [by intros w a |].
  destruct (_ <! _); [| by intros w a].
  open_floor; rewrite wrap64_twice by lia; apply ratio_half; lia.
Qed.

Lemma detectSlowloris_floor metrics :
  all_findings confidence_floor (detectSlowloris d requests metrics).
Proof.
  unfold detectSlowloris. destruct (foldl _ _ _) as [slowConnections slowIPs].
  destruct (Z.ltb_spec 100 slowConnections); cbn [andb]; [| by intros w a].
  destruct (_ <? 10); [| by intros w a].
  open_floor.
  assert (101 <= IZR slowConnections)%R by (apply IZR_le; lia).
  apply Rmin_glb_lt; lra.
Qed.

Lemma detectUDPFlood_floor metrics :
  all_findings confidence_floor (detectUDPFlood d requests metrics).
Proof.
  unfold detectUDPFlood.
  destruct (Z.ltb_spec (get (ProtocolCounts metrics) "UDP") 2000); [by intros w a |].
  open_floor.
  assert (2000 <= IZR (get (ProtocolCounts metrics) "UDP"))%R by (apply IZR_le; lia).
  apply Rmin_glb; lra.
Qed.

Lemma detectRateAnomaly_floor metrics :
  all_findings confidence_floor (detectRateAnomaly d metrics).
Proof.
  destruct Hfirm as (_ & _ & Hz). unfold detectRateAnomaly.
  destruct (flt (RequestRateZScore (thresholds d)) _) eqn:Hfires; [| by intros w a].
  destruct (flt (IPEntropy metrics) _); [| by intros w a].
  apply exact_ltb_true in Hfires. cbn [fsub fdiv ofInt exact] in Hfires.
  open_floor; cbn [fsub]; apply Rmin_glb; lra.
Qed.

End floors.



(** ** Which findings a batch gives *)

Section fires.

Context {F : Type} `{Float64 F}.
Variable d : Detector F.
Variable requests : list TrafficRequest.

Lemma detectSYNFlood_fires w0 w :
  match (detectSYNFlood d requests (calculateMetrics requests w0).1 w).1 with
  | Some _ => syn_fires d requests = true
  | None => syn_fires d requests = false
  end.
Proof.
  unfold detectSYNFlood, syn_fires.
  rewrite calculateMetrics_SYNPacketCount, len_synIPs_of.
  destruct (Z.ltb_spec (len (tagged "TCP_SYN" requests)) (SYNFloodThreshold (thresholds d))).
  - rewrite run_ret. cbn [fst].
    destruct (Z.ltb_spec (SYNFloodThreshold (thresholds d)) (len (tagged "TCP_SYN" requests)));
      [lia | done].
  - destruct (_ && _); [| by rewrite run_ret].
    by rewrite !run_bind, run_ret.
Qed.

Lemma detectHTTPFlood_fires metrics w :
  match (detectHTTPFlood d requests metrics w).1 with
  | Some _ => http_fires d requests metrics = true
  | None => http_fires d requests metrics = false
  end.
Proof.
  unfold detectHTTPFlood, http_fires.
  destruct (http_tally_all requests) as [Hcount _].
  destruct (foldl http_tally (0, ∅) requests) as [httpCount httpIPs].
  cbn [fst] in Hcount. subst httpCount.
  destruct (Z.ltb_spec (len (tagged "HTTP" requests)) (HTTPFloodThreshold (thresholds d))).
  - rewrite run_ret. cbn [fst].
    destruct (Z.leb_spec (HTTPFloodThreshold (thresholds d)) (len (tagged "HTTP" requests)));
      [lia | done].
  - destruct (Z.leb_spec (HTTPFloodThreshold (thresholds d)) (len (tagged "HTTP" requests)));
      [| lia].
    cbn [andb]. destruct (_ <! _); [| by rewrite run_ret].
    by rewrite !run_bind, run_ret.
Qed.

Lemma detectSlowloris_fires metrics w :
  match (detectSlowloris d requests metrics w).1 with
  | Some _ => slow_fires d requests = true
  | None => slow_fires d requests = false
  end.
Proof.
  unfold detectSlowloris, slow_fires.
  destruct (slow_tally_all (SlowConnectionTime (thresholds d)) requests) as [Hcount Hips].
  destruct (foldl _ (0, ∅) requests) as [slowConnections slowIPs].
  cbn [fst snd] in Hcount, Hips. subst slowConnections.
  unfold len_map. rewrite (counts_sources_size _ _ Hips).
  destruct (_ && _); [| by rewrite run_ret].
  by rewrite !run_bind, run_ret.
Qed.

Lemma detectUDPFlood_fires w0 w :
  match (detectUDPFlood d requests (calculateMetrics requests w0).1 w).1 with
  | Some _ => udp_fires requests = true
  | None => udp_fires requests = false
  end.
Proof.
  unfold detectUDPFlood, udp_fires. cbv zeta.
  assert (Hcount : get (ProtocolCounts (calculateMetrics requests w0).1) "UDP"
                   = len (tagged "UDP" requests)).
  { unfold calculateMetrics. rewrite !run_bind, run_ret. cbn [fst ProtocolCounts].
    destruct (tally_all_spec requests) as (_ & Hproto & _). apply Hproto. }
  rewrite Hcount.
  destruct (Z.ltb_spec (len (tagged "UDP" requests)) 2000).
  - rewrite run_ret. cbn [fst]. destruct (Z.leb_spec 2000 (len (tagged "UDP" requests))); [lia | done].
  - rewrite !run_bind, run_ret. cbn [fst].
    destruct (Z.leb_spec 2000 (len (tagged "UDP" requests))); [done | lia].
Qed.

Lemma detectRateAnomaly_fires metrics w :
  match (detectRateAnomaly d metrics w).1 with
  | Some _ => rate_fires d metrics = true
  | None => rate_fires d metrics = false
  end.
Proof.
  unfold detectRateAnomaly, rate_fires.
  destruct (_ >! RequestRateZScore _); cbn [andb]; [| by rewrite run_ret].
  destruct (IPEntropy metrics <! _); [| by rewrite run_ret].
  by rewrite !run_bind, run_ret.
Qed.

Lemma tag_of_finding (o : option (Attack F)) (b : bool) (tag : string) :
  match o with Some _ => b = true | None => b = false end ->
  match o with Some _ => [tag] | None => [] end = tag_if b tag.
Proof. destruct o; intros ->; reflexivity. Qed.

(** The type tags of the findings of a batch that is not empty. *)
Lemma AnalyzeTraffic_tags w :
  requests <> [] ->
  Attack_Type <$> (AnalyzeTraffic d requests w).1
  = tag_if (syn_fires d requests) "SYN_FLOOD"
    ++ tag_if (http_fires d requests (calculateMetrics requests w).1) "HTTP_FLOOD"
    ++ tag_if (slow_fires d requests) "SLOWLORIS"
    ++ tag_if (udp_fires requests) "UDP_FLOOD"
    ++ tag_if (rate_fires d (calculateMetrics requests w).1) "RATE_ANOMALY".
Proof.
  intros Hne.
  destruct (AnalyzeTraffic_unfold d requests w Hne) as
    (metrics & w1 & w2 & w3 & w4 & w5 & -> & ->).
  rewrite (append_found_types _ _ "RATE_ANOMALY") by apply detectRateAnomaly_type.
  rewrite (append_found_types _ _ "UDP_FLOOD") by apply detectUDPFlood_type.
  rewrite (append_found_types _ _ "SLOWLORIS") by apply detectSlowloris_type.
  rewrite (append_found_types _ _ "HTTP_FLOOD") by apply detectHTTPFlood_type.
  rewrite (append_found_types _ _ "SYN_FLOOD") by apply detectSYNFlood_type.
  rewrite (tag_of_finding _ _ _ (detectSYNFlood_fires w w1)).
  rewrite (tag_of_finding _ _ _ (detectHTTPFlood_fires _ w2)).
  rewrite (tag_of_finding _ _ _ (detectSlowloris_fires _ w3)).
  rewrite (tag_of_finding _ _ _ (detectUDPFlood_fires w w4)).
  rewrite (tag_of_finding _ _ _ (detectRateAnomaly_fires _ w5)).
  cbn [fmap list_fmap app]. by rewrite <- !app_assoc.
Qed.

End fires.

(** X11: the type tags of the list [AnalyzeTraffic] returns are exactly the
    tags of the detectors whose tests hold, in the order of the calls, each
    test on its own: SYN_FLOOD when the TCP_SYN records are more than the
    floor and come from fewer than 10 addresses; HTTP_FLOOD when the HTTP
    records are at least the floor and the path entropy of the metrics is
    below 2.0; SLOWLORIS when more than 100 slow HTTP records come from
    fewer than 10 addresses; UDP_FLOOD when the UDP records are at least
    2000; RATE_ANOMALY when the z-score of the number of records is above
    its threshold and the source entropy below its floor; and no tag at all
    for the empty batch.  No finding of one detector suppresses another. *)
Theorem AnalyzeTraffic_types {F} `{Float64 F} (d : Detector F)
    (requests : list TrafficRequest) (w : World) :
  let metrics := (calculateMetrics requests w).1 in
  Attack_Type <$> (AnalyzeTraffic d requests w).1
  = if decide (requests = []) then []
    else tag_if (syn_fires d requests) "SYN_FLOOD"
         ++ tag_if (http_fires d requests metrics) "HTTP_FLOOD"
         ++ tag_if (slow_fires d requests) "SLOWLORIS"
         ++ tag_if (udp_fires requests) "UDP_FLOOD"
         ++ tag_if (rate_fires d metrics) "RATE_ANOMALY".
Proof.
  intros metrics. destruct (decide (requests = [])) as [-> | Hne]; [reflexivity |].
  by apply AnalyzeTraffic_tags.
Qed.

(** ** The integer average of the baseline *)

(** In exact arithmetic the new average of distinct sources is the
    truncating quotient of current + 9 * old by 10. *)
Lemma UpdateBaseline_unique_exact (d : Detector R) (metrics : TrafficMetrics R) :
  AverageUniqueIPs (baseline (UpdateBaseline d metrics))
  = (UniqueIPs metrics + 9 * AverageUniqueIPs (baseline d)) ÷ 10.
Proof.
  cbn [UpdateBaseline baseline AverageUniqueIPs].
  rewrite exact_lit. cbn [ofInt toInt fadd fsub fmul exact].
  rewrite <- exact_to_int_tenth. f_equal.
  rewrite plus_IZR, mult_IZR. lra.
Qed.

(** X12: in exact arithmetic, for a non-negative average [a] of distinct
    sources and a window with [u] >= 0 distinct sources, [UpdateBaseline]
    moves the average down when [u] is smaller (to a value from [u] up to
    [a - 1]) and keeps it between [a] and [u] otherwise; and it does not
    move it at all while [u] exceeds it by less than 10: after any number of
    such windows the average is still [a], because the conversion to int
    drops the fraction each time. *)
Theorem UpdateBaseline_unique_ips_drift (d : Detector R) (metrics : TrafficMetrics R) :
  let a := AverageUniqueIPs (baseline d) in
  let u := UniqueIPs metrics in
  let a' := AverageUniqueIPs (baseline (UpdateBaseline d metrics)) in
  0 <= a -> 0 <= u ->
  (u < a -> u <= a' < a)
  /\ (a <= u -> a <= a' <= u)
  /\ (a <= u < a + 10 ->
      forall n, AverageUniqueIPs (baseline (UpdateBaseline_n n d metrics)) = a).
Proof.
  intros a u a' Ha Hu. subst a'. rewrite UpdateBaseline_unique_exact. fold a u.
  rewrite Z.quot_div_nonneg by lia.
  split; [| split].
  - intros Hlt. Z.div_mod_to_equations. lia.
  - intros Hle. Z.div_mod_to_equations. lia.
  - intros Hnear n. induction n as [|n IH]; [done |].
    unfold UpdateBaseline_n in *. rewrite Nat.iter_succ.
    rewrite UpdateBaseline_unique_exact, IH. fold a u.
    rewrite Z.quot_div_nonneg by lia. Z.div_mod_to_equations. lia.
Qed.

(** [UpdateBaseline_unique_ips_drift] at the seed detector (50 distinct
    sources on average) and windows of 55 distinct sources. *)
Lemma UpdateBaseline_unique_ips_drift_witness :
  0 <= 50 /\ 0 <= 55 /\ 50 <= 55 < 50 + 10
  /\ forall n,
       AverageUniqueIPs
         (baseline (UpdateBaseline_n n (NewDetector (F := R)) (Examples.window 200 55 1%R)))
       = 50.
Proof.
  assert (Ha : 0 <= 50) by lia. assert (Hu : 0 <= 55) by lia.
  assert (Hnear : 50 <= 55 < 50 + 10) by lia.
  split; [exact Ha |]. split; [exact Hu |]. split; [exact Hnear |].
  exact (proj2 (proj2 (UpdateBaseline_unique_ips_drift NewDetector
                         (Examples.window 200 55 1%R) Ha Hu)) Hnear).
Defined.

(** ** The source lists of the SYN-flood and rate-anomaly findings *)

(** X13: the source list of a finding of [detectSYNFlood] names each source
    address of the TCP_SYN records of the batch once and no other address,
    so its length is the number of distinct addresses of these records; the
    description carries the SYN count of the metrics and that number. *)
Theorem detectSYNFlood_sources {F} `{Float64 F} (d : Detector F)
    (requests : list TrafficRequest) (metrics : TrafficMetrics F) (w : World) (a : Attack F) :
  (detectSYNFlood d requests metrics w).1 = Some a ->
  let syn := tagged "TCP_SYN" requests in
  NoDup (SourceIPs a)
  /\ (forall ip, ip ∈ SourceIPs a <-> ip ∈ SourceIP <$> syn)
  /\ len (SourceIPs a) = distinct_sources syn
  /\ Description a = mkSprintf "SYN flood detected: %d SYN packets from %d IPs"
                       [ArgInt (SYNPacketCount metrics); ArgInt (distinct_sources syn)].
Proof.
  unfold detectSYNFlood. destruct (_ <? _); [by rewrite run_ret |].
  destruct (_ && _); [| by rewrite run_ret].
  rewrite !run_bind, run_ret. cbn [fst snd]. intros E. injection E as <-.
  cbn [SourceIPs Description]. set (syn := tagged "TCP_SYN" requests).
  assert (Hdom : dom (synIPs_of requests)
                 = list_to_set (C := gset string) (SourceIP <$> syn)).
  { unfold synIPs_of. rewrite synIPs_foldl, dom_empty_L. set_solver. }
  destruct (range_map_keys (synIPs_of requests) w) as [Hnd Hkeys].
  destruct (range_map_names _ _ w Hdom) as (_ & Hlen & _).
  unfold range_map in Hnd, Hkeys, Hlen. cbn [fst] in Hnd, Hkeys, Hlen.
  split; [done |]. split; [| split].
  - intros ip. rewrite Hkeys, Hdom. apply elem_of_list_to_set.
  - unfold len. rewrite Hlen. apply len_synIPs_of.
  - by rewrite len_synIPs_of.
Qed.

(** [detectSYNFlood_sources] on the batch of 1500 TCP_SYN records. *)
Lemma detectSYNFlood_sources_witness :
  exists a,
    (detectSYNFlood (F := float) NewDetector Examples.syn_1500
       (calculateMetrics Examples.syn_1500 Examples.w0).1 Examples.w0).1 = Some a
    /\ NoDup (SourceIPs a)
    /\ len (SourceIPs a) = distinct_sources (tagged "TCP_SYN" Examples.syn_1500).
Proof.
  destruct (detectSYNFlood (F := float) NewDetector Examples.syn_1500
              (calculateMetrics Examples.syn_1500 Examples.w0).1 Examples.w0).1
    as [a|] eqn:E; [| by vm_compute in E].
  exists a. split; [reflexivity |].
  destruct (detectSYNFlood_sources NewDetector Examples.syn_1500 _ Examples.w0 a E)
    as (Hnd & _ & Hlen & _).
  split; [exact Hnd | exact Hlen].
Defined.

(** X14: run on the metrics of the batch, a finding of [detectRateAnomaly]
    lists the 20 source addresses with the most records of the batch, by
    number of records descending (all the addresses when there are fewer
    than 20). *)
Theorem detectRateAnomaly_sources {F} `{Float64 F} (d : Detector F)
    (requests : list TrafficRequest) (w w' : World) (a : Attack F) :
  (detectRateAnomaly d (calculateMetrics requests w).1 w').1 = Some a ->
  top_sources 20 requests (SourceIPs a).
Proof.
  unfold detectRateAnomaly. destruct (_ >! _); [| by rewrite run_ret].
  destruct (_ <! _); [| by rewrite run_ret].
  rewrite !run_bind, run_ret. cbn [fst snd]. intros E. injection E as <-.
  cbn [SourceIPs].
  assert (Hips : counts_sources (IPCounts (calculateMetrics requests w).1) requests).
  { unfold calculateMetrics. rewrite !run_bind, run_ret. cbn [fst IPCounts].
    apply counts_by_sources, tally_all_spec. }
  apply (top_of_top_sources _ _ 20 _ Hips), getTopIPs_top_of.
Qed.

(** [detectRateAnomaly_sources] on the batch of 1500 records from three
    addresses. *)
Lemma detectRateAnomaly_sources_witness :
  exists a,
    (detectRateAnomaly (F := float) NewDetector
       (calculateMetrics Examples.syn_1500 Examples.w0).1 Examples.w0).1 = Some a
    /\ top_sources 20 Examples.syn_1500 (SourceIPs a).
Proof.
  destruct (detectRateAnomaly (F := float) NewDetector
              (calculateMetrics Examples.syn_1500 Examples.w0).1 Examples.w0).1
    as [a|] eqn:E; [| by vm_compute in E].
  exists a. split; [reflexivity |].
  exact (detectRateAnomaly_sources NewDetector Examples.syn_1500 Examples.w0 Examples.w0 a E).
Defined.

(** ** Running the simulator *)

Lemma returns_ret {A} (x : A) (e : Env) (P : A -> Env -> Prop) :
  P x e -> returns (mret x) e P.
Proof. intros HP. by exists x, e. Qed.

Lemma returns_bind {A B} (c : G A) (f : A -> G B) (e : Env) (Q : A -> Env -> Prop)
    (P : B -> Env -> Prop) :
  returns c e Q -> (forall a e', Q a e' -> returns (f a) e' P) -> returns (c ≫= f) e P.
Proof.
  intros (a & e' & Hc & HQ) Hf. destruct (Hf a e' HQ) as (b & e'' & Hb & HP).
  exists b, e''. split; [| done]. unfold mbind, G_bind. by rewrite Hc.
Qed.

Lemma returns_weaken {A} (c : G A) (e : Env) (P Q : A -> Env -> Prop) :
  returns c e P -> (forall a e', P a e' -> Q a e') -> returns c e Q.
Proof. intros (a & e' & Hc & HP) HPQ. exists a, e'. auto. Qed.

Lemma returns_rand_Intn (n : Z) (e : Env) :
  0 < n ->
  returns (rand_Intn n) e
    (fun a e' => a = rand_src e (rand_n e) `mod` n /\ 0 <= a < n
                 /\ e' = mkEnv (env_world e) (rand_src e) (S (rand_n e))).
Proof.
  intros Hn. unfold returns, rand_Intn. destruct (Z.leb_spec n 0); [lia |].
  eexists _, _. split; [reflexivity |]. split; [done |]. split; [| done].
  by apply Z.mod_pos_bound.
Qed.

Lemma returns_rand (n : Z) (e : Env) :
  0 < n -> returns (rand_Intn n) e (fun a _ => 0 <= a < n).
Proof.
  intros Hn. eapply returns_weaken; [by apply returns_rand_Intn |].
  by intros a e' (_ & Ha & _).
Qed.

Lemma returns_lift {A} (c : M A) (e : Env) : returns (lift c) e (fun _ _ => True).
Proof. unfold returns, lift. destruct (c (env_world e)) as [a w']. eauto. Qed.

Lemma returns_at_index {A} (s : list A) (i : Z) (e : Env) :
  0 <= i < len s -> returns (at_index s i) e (fun x _ => x ∈ s).
Proof.
  intros Hi. unfold at_index, len in *. destruct (Z.ltb_spec i 0); [lia |].
  destruct (lookup_lt_is_Some_2 s (Z.to_nat i)) as [x Hx]; [lia |].
  rewrite Hx. apply returns_ret. apply list_elem_of_lookup. eauto.
Qed.

Lemma returns_for_loop {T} (I : Z -> T -> Prop) (body : Z -> T -> G T) (n : nat) (i : Z)
    (s : T) (e : Env) :
  I i s ->
  (forall j s e, i <= j < i + Z.of_nat n -> I j s ->
     returns (body j s) e (fun s' _ => I (j + 1) s')) ->
  returns (for_loop n i body s) e (fun s' _ => I (i + Z.of_nat n) s').
Proof.
  revert i s e. induction n as [|n IH]; intros i s e H0 Hbody.
  - cbn [for_loop]. apply returns_ret. by rewrite Z.add_0_r.
  - cbn [for_loop]. eapply returns_bind; [apply Hbody; [lia | done] |].
    intros s' e' Hs'. cbv beta in Hs'.
    replace (i + Z.of_nat (S n)) with (i + 1 + Z.of_nat n) by lia.
    apply IH; [done |]. intros j s0 e0 Hj. apply Hbody. lia.
Qed.

Lemma returns_for_to {T} (I : Z -> T -> Prop) (body : Z -> T -> G T) (count : Z)
    (s : T) (e : Env) :
  0 <= count -> I 0 s ->
  (forall j s e, 0 <= j < count -> I j s ->
     returns (body j s) e (fun s' _ => I (j + 1) s')) ->
  returns (for_to count body s) e (fun s' _ => I count s').
Proof.
  intros Hc H0 Hbody. unfold for_to.
  eapply returns_weaken.
  - apply (returns_for_loop I body (Z.to_nat count) 0 s e); [done |].
    intros j s0 e0 Hj. apply Hbody. lia.
  - intros s' e'. cbv beta. by replace (0 + Z.of_nat (Z.to_nat count)) with count by lia.
Qed.

(** A loop that appends one record per round. *)
Lemma returns_append (P : TrafficRequest -> Prop) (gen : G TrafficRequest) (count : Z)
    (e : Env) :
  0 <= count ->
  (forall e, returns gen e (fun r _ => P r)) ->
  returns (for_to count (fun _ requests => r ← gen; mret (requests ++ [r])) []) e
    (fun requests _ => len requests = count /\ Forall P requests).
Proof.
  intros Hc Hgen.
  apply (returns_for_to (fun j requests => len requests = j /\ Forall P requests)); [done | done |].
  intros j requests e0 Hj [Hlen Hall].
  eapply returns_bind; [apply Hgen |]. intros r e1 Hr. apply returns_ret.
  split.
  - unfold len in *. rewrite length_app. simpl. lia.
  - apply Forall_app. split; [done |]. by constructor.
Qed.

Ltac g_side := solve [assumption | lia | vm_compute; reflexivity].
Ltac g_rand := eapply returns_bind; [apply returns_rand; g_side | intros ? ? ?; cbv beta in *].
Ltac g_lift := eapply returns_bind; [apply returns_lift | intros ? ? _].
Ltac g_index := eapply returns_bind; [apply returns_at_index; g_side | intros ? ? ?; cbv beta in *].

Lemma random_address_returns (e : Env) :
  returns random_address e (fun ip _ => dotted_quad ip).
Proof.
  unfold random_address. g_rand. g_rand. g_rand. g_rand.
  apply returns_ret. unfold dotted_quad. eauto 10.
Qed.

Lemma GenerateNormalTraffic_returns (s : Simulator) (e : Env) :
  returns (GenerateNormalTraffic s) e (fun r _ => normal_record r).
Proof.
  unfold GenerateNormalTraffic.
  eapply returns_bind; [apply random_address_returns | intros ip ? Hip].
  g_lift. g_lift. g_rand. g_rand. g_index. g_rand. g_index. g_rand. g_rand. g_rand.
  apply returns_ret. unfold normal_record.
  cbn [SourceIP DestIP SourcePort DestPort Protocol RequestPath UserAgent BytesSent
       BytesRecv StatusCode Duration].
  repeat split; try done; lia.
Qed.

Lemma generateBotnet_returns (size : Z) (e : Env) :
  0 <= size ->
  returns (generateBotnet size) e
    (fun ips _ => len ips = size /\ Forall dotted_quad ips).
Proof.
  intros Hsize. unfold generateBotnet. destruct (Z.ltb_spec size 0); [lia |].
  eapply returns_weaken.
  - apply (returns_for_to
             (fun j ips => length ips = Z.to_nat size
                           /\ Forall dotted_quad (take (Z.to_nat j) ips))); [done | |].
    + split; [by rewrite length_replicate | by rewrite take_0].
    + intros j ips e0 Hj [Hlen Hall].
      eapply returns_bind; [apply random_address_returns | intros ip ? Hip].
      apply returns_ret. split; [by rewrite length_insert |].
      replace (Z.to_nat (j + 1)) with (S (Z.to_nat j)) by lia.
      rewrite (take_S_r _ _ ip) by (apply list_lookup_insert_eq; lia).
      rewrite take_insert_ge by lia.
      apply Forall_app. split; [done | by constructor].
  - intros ips _ [Hlen Hall]. cbv beta. split; [unfold len; lia |].
    by rewrite <- Hlen, firstn_all in Hall.
Qed.

Lemma GenerateSYNFlood_returns (s : Simulator) (e : Env) :
  returns (GenerateSYNFlood s) e
    (fun requests _ =>
       len requests = rand_src e (rand_n e) `mod` 4000 + 1000 /\ Forall syn_record requests).
Proof.
  unfold GenerateSYNFlood. cbv zeta.
  eapply returns_bind; [apply returns_rand_Intn; lia | intros k ? (<- & Hk & _)].
  apply returns_append; [lia |]. intros e0.
  g_lift. g_lift. g_rand. g_index. g_rand.
  apply returns_ret. unfold syn_record.
  cbn [SourceIP DestIP SourcePort DestPort Protocol BytesSent Duration].
  repeat split; try done; lia.
Qed.

Lemma GenerateHTTPFlood_returns (s : Simulator) (e : Env) :
  returns (GenerateHTTPFlood s) e
    (fun requests _ =>
       2000 <= len requests < 5000
       /\ exists botnet, len botnet = 50 /\ Forall dotted_quad botnet
                         /\ Forall (http_flood_record botnet) requests).
Proof.
  unfold GenerateHTTPFlood. cbv zeta.
  eapply returns_bind; [apply generateBotnet_returns; lia | intros botnet ? [Hlen Hquads]].
  eapply returns_bind; [apply returns_rand; lia | intros k ? Hk; cbv beta in Hk].
  eapply returns_weaken.
  - apply (returns_append (http_flood_record botnet)); [lia |]. intros e0.
    g_lift. g_lift. g_rand. g_index. g_rand. g_rand. g_index. g_rand. g_rand. g_rand.
    apply returns_ret. unfold http_flood_record.
    cbn [SourceIP DestIP SourcePort DestPort Protocol RequestPath UserAgent BytesSent
         BytesRecv StatusCode Duration].
    repeat split; try done; lia.
  - intros requests _ [Hcount Hall]. cbv beta. split; [lia |]. eauto.
Qed.

Lemma GenerateSlowloris_returns (s : Simulator) (e : Env) :
  returns (GenerateSlowloris s) e
    (fun requests _ => 200 <= len requests < 700 /\ Forall slowloris_record requests).
Proof.
  unfold GenerateSlowloris. cbv zeta.
  eapply returns_bind; [apply returns_rand; lia | intros k ? Hk; cbv beta in Hk].
  eapply returns_weaken.
  - apply (returns_append slowloris_record); [lia |]. intros e0.
    g_lift. g_lift. g_rand. g_index. g_rand. g_rand.
    apply returns_ret. unfold slowloris_record.
    cbn [SourceIP DestIP SourcePort DestPort Protocol BytesSent Duration].
    repeat split; try done; lia.
  - intros requests _ [Hcount Hall]. cbv beta. split; [lia | done].
Qed.

Lemma GenerateUDPFlood_returns (s : Simulator) (e : Env) :
  returns (GenerateUDPFlood s) e
    (fun requests _ =>
       3000 <= len requests < 8000
       /\ exists botnet, len botnet = 30 /\ Forall dotted_quad botnet
                         /\ Forall (udp_record botnet) requests).
Proof.
  unfold GenerateUDPFlood. cbv zeta.
  eapply returns_bind; [apply generateBotnet_returns; lia | intros botnet ? [Hlen Hquads]].
  eapply returns_bind; [apply returns_rand; lia | intros k ? Hk; cbv beta in Hk].
  eapply returns_weaken.
  - apply (returns_append (udp_record botnet)); [lia |]. intros e0.
    g_lift. g_lift. g_rand. g_index. g_rand. g_rand. g_rand.
    apply returns_ret. unfold udp_record.
    cbn [SourceIP DestIP SourcePort DestPort Protocol BytesSent Duration].
    repeat split; try done; lia.
  - intros requests _ [Hcount Hall]. cbv beta. split; [lia |]. eauto.
Qed.

(** ** Simulated traffic under the seed detector *)

Lemma tagged_all (proto : string) (l : list TrafficRequest) :
  Forall (fun r => Protocol r = proto) l -> tagged proto l = l.
Proof.
  intros Hall. unfold tagged. induction Hall as [|r l Hr Hl IH]; [done |].
  rewrite filter_cons. by rewrite decide_True, IH.
Qed.

Lemma tagged_none (proto proto' : string) (l : list TrafficRequest) :
  proto <> proto' -> Forall (fun r => Protocol r = proto) l -> tagged proto' l = [].
Proof.
  intros Hne Hall. unfold tagged. induction Hall as [|r l Hr Hl IH]; [done |].
  rewrite filter_cons. rewrite decide_False by congruence. done.
Qed.

Lemma slow_none (limit : Z) (l : list TrafficRequest) :
  Forall (fun r => Protocol r <> "HTTP" \/ Duration r <= limit) l -> slow limit l = [].
Proof.
  intros Hall. unfold slow. induction Hall as [|r l Hr Hl IH]; [done |].
  rewrite filter_cons. rewrite decide_False by (intros [? ?]; destruct Hr; [done | lia]). done.
Qed.

Lemma slow_all (limit : Z) (l : list TrafficRequest) :
  Forall (fun r => Protocol r = "HTTP" /\ limit < Duration r) l -> slow limit l = l.
Proof.
  intros Hall. unfold slow. induction Hall as [|r l Hr Hl IH]; [done |].
  rewrite filter_cons. by rewrite decide_True, IH.
Qed.

Lemma size_list_to_set_le (values : list string) :
  (size (list_to_set (C := gset string) values) <= length values)%nat.
Proof.
  induction values as [|v values IH]; [by rewrite list_to_set_nil, size_empty |].
  rewrite list_to_set_cons, size_union_alt, size_singleton. cbn [length].
  pose proof (subseteq_size (list_to_set values ∖ {[v]}) (list_to_set (C := gset string) values)
                ltac:(set_solver)).
  lia.
Qed.

(** A batch whose records take a field from a list has at most as many
    distinct values of the field as the list is long. *)
Lemma distinct_bound (key : TrafficRequest -> string) (values : list string)
    (l : list TrafficRequest) :
  Forall (fun r => key r ∈ values) l ->
  (size (list_to_set (C := gset string) (key <$> l)) <= length values)%nat.
Proof.
  intros Hall. etransitivity; [| apply size_list_to_set_le].
  apply subseteq_size. intros k Hk.
  apply elem_of_list_to_set, list_elem_of_fmap in Hk as (r & -> & Hr).
  apply elem_of_list_to_set. rewrite Forall_forall in Hall. by apply Hall.
Qed.

Lemma distinct_sources_bound (ips : list string) (l : list TrafficRequest) :
  Forall (fun r => SourceIP r ∈ ips) l -> distinct_sources l <= len ips.
Proof.
  intros Hall. unfold distinct_sources, len.
  pose proof (distinct_bound SourceIP ips l Hall). lia.
Qed.

Lemma elem_of_tag_if (t tag : string) (b : bool) : t ∈ tag_if b tag <-> b = true /\ t = tag.
Proof.
  destruct b; cbn [tag_if].
  - rewrite list_elem_of_singleton. naive_solver.
  - split; [by intros ?%elem_of_nil | by intros [? _]].
Qed.

Lemma len_nonempty {A} (l : list A) : 0 < len l -> l <> [].
Proof. intros Hl ->. unfold len in Hl. simpl in Hl. lia. Qed.

(** The z-score of a batch of at least 146 records is above 3, in exact
    arithmetic, with the seed baseline. *)
Lemma seed_rate_fires (requests : list TrafficRequest) (w : World) :
  146 <= len requests <= int_max ->
  (size (list_to_set (C := gset string) (SourceIP <$> requests)) < 2 ^ 3)%nat ->
  rate_fires (F := R) NewDetector (calculateMetrics requests w).1 = true.
Proof.
  intros Hlen Hsize. unfold rate_fires.
  destruct (metrics_entropy_below requests w 3 ltac:(lia) ltac:(lia)) as [Hip _].
  specialize (Hip Hsize).
  assert (Htotal : TotalRequests (calculateMetrics (F := R) requests w).1 = len requests).
  { unfold calculateMetrics. by rewrite !run_bind, run_ret. }
  rewrite Htotal. cbn [NewDetector baseline thresholds AverageRequestRate StandardDeviation
                       RequestRateZScore IPEntropyMin ofInt fsub fdiv flt exact].
  assert (146 <= IZR (len requests))%R by (apply IZR_le; lia).
  unfold Exact.ltb.
  destruct (Rlt_dec 3 ((IZR (len requests) - 100) / 15)) as [_ | Hno]; [| lra].
  cbn [andb]. destruct (Rlt_dec _ 3) as [_ | Hno]; [done |].
  simpl in Hip. lra.
Qed.

Section seed.

Context {F : Type} `{Float64 F}.

Lemma seed_syn_fires (requests : list TrafficRequest) :
  syn_fires (F := F) NewDetector requests
  = (1000 <? len (tagged "TCP_SYN" requests))
    && (distinct_sources (tagged "TCP_SYN" requests) <? 10).
Proof. reflexivity. Qed.

Lemma seed_http_quiet (requests : list TrafficRequest) metrics :
  len (tagged "HTTP" requests) < 2000 -> http_fires (F := F) NewDetector requests metrics = false.
Proof.
  intros Hlen. unfold http_fires. cbn [NewDetector thresholds HTTPFloodThreshold].
  by destruct (Z.leb_spec 2000 (len (tagged "HTTP" requests))); [lia |].
Qed.

Lemma seed_slow_quiet (requests : list TrafficRequest) :
  Forall (fun r => Protocol r <> "HTTP" \/ Duration r <= 30000) requests ->
  slow_fires (F := F) NewDetector requests = false.
Proof.
  intros Hall. unfold slow_fires. cbn [NewDetector thresholds SlowConnectionTime].
  by rewrite slow_none.
Qed.

Lemma udp_quiet (requests : list TrafficRequest) :
  len (tagged "UDP" requests) < 2000 -> udp_fires requests = false.
Proof.
  intros Hlen. unfold udp_fires.
  by destruct (Z.leb_spec 2000 (len (tagged "UDP" requests))); [lia |].
Qed.

End seed.

Section batches.

Context {F : Type} `{Float64 F}.
Variable requests : list TrafficRequest.
Variable w : World.

Lemma syn_batch_types :
  Forall syn_record requests -> 1000 <= len requests ->
  Attack_Type <$> (AnalyzeTraffic (F := F) NewDetector requests w).1
  = tag_if (1000 <? len requests) "SYN_FLOOD"
    ++ tag_if (rate_fires NewDetector (calculateMetrics requests w).1) "RATE_ANOMALY".
Proof.
  intros Hall Hlen.
  assert (Hproto : Forall (fun r => Protocol r = "TCP_SYN") requests).
  { eapply Forall_impl; [exact Hall |]. by intros r (_ & _ & _ & _ & Hp & _). }
  assert (Hips : Forall (fun r => SourceIP r ∈ syn_attackIPs) requests).
  { eapply Forall_impl; [exact Hall |]. by intros r (Hip & _). }
  rewrite AnalyzeTraffic_tags by (apply len_nonempty; lia).
  rewrite seed_syn_fires, (tagged_all _ _ Hproto).
  pose proof (distinct_sources_bound _ _ Hips) as Hd. change (len syn_attackIPs) with 3 in Hd.
  destruct (Z.ltb_spec (distinct_sources requests) 10); [| lia]. rewrite andb_true_r.
  rewrite seed_http_quiet by (by rewrite (tagged_none "TCP_SYN" "HTTP") by done).
  rewrite seed_slow_quiet.
  2:{ eapply Forall_impl; [exact Hproto |]. intros r Hr. left. by rewrite Hr. }
  rewrite udp_quiet by (by rewrite (tagged_none "TCP_SYN" "UDP") by done).
  reflexivity.
Qed.

Lemma http_batch_types (botnet : list string) :
  Forall (http_flood_record botnet) requests -> 2000 <= len requests ->
  Attack_Type <$> (AnalyzeTraffic (F := F) NewDetector requests w).1
  = tag_if (PathEntropy (calculateMetrics requests w).1 <! ofInt 2) "HTTP_FLOOD"
    ++ tag_if (rate_fires NewDetector (calculateMetrics requests w).1) "RATE_ANOMALY".
Proof.
  intros Hall Hlen.
  assert (Hproto : Forall (fun r => Protocol r = "HTTP") requests).
  { eapply Forall_impl; [exact Hall |]. by intros r (_ & _ & _ & _ & Hp & _). }
  rewrite AnalyzeTraffic_tags by (apply len_nonempty; lia).
  rewrite seed_syn_fires, (tagged_none "HTTP" "TCP_SYN") by done.
  unfold http_fires. cbn [NewDetector thresholds HTTPFloodThreshold].
  rewrite (tagged_all _ _ Hproto).
  destruct (Z.leb_spec 2000 (len requests)); [| lia].
  rewrite seed_slow_quiet.
  2:{ eapply Forall_impl; [exact Hall |].
      intros r (_ & _ & _ & _ & _ & _ & _ & _ & _ & _ & Hd). right. lia. }
  rewrite udp_quiet by (by rewrite (tagged_none "HTTP" "UDP") by done).
  reflexivity.
Qed.

Lemma slowloris_batch_types :
  Forall slowloris_record requests -> 200 <= len requests < 2000 ->
  Attack_Type <$> (AnalyzeTraffic (F := F) NewDetector requests w).1
  = "SLOWLORIS" :: tag_if (rate_fires NewDetector (calculateMetrics requests w).1) "RATE_ANOMALY".
Proof.
  intros Hall Hlen.
  assert (Hproto : Forall (fun r => Protocol r = "HTTP") requests).
  { eapply Forall_impl; [exact Hall |]. by intros r (_ & _ & _ & _ & Hp & _). }
  assert (Hips : Forall (fun r => SourceIP r ∈ slowloris_attackIPs) requests).
  { eapply Forall_impl; [exact Hall |]. by intros r (Hip & _). }
  assert (Hslow : Forall (fun r => Protocol r = "HTTP" /\ 30000 < Duration r) requests).
  { eapply Forall_impl; [exact Hall |]. intros r (_ & _ & _ & _ & Hp & _ & Hd). split; [done | lia]. }
  rewrite AnalyzeTraffic_tags by (apply len_nonempty; lia).
  rewrite seed_syn_fires, (tagged_none "HTTP" "TCP_SYN") by done.
  rewrite seed_http_quiet by (rewrite (tagged_all _ _ Hproto); lia).
  unfold slow_fires. cbn [NewDetector thresholds SlowConnectionTime].
  rewrite (slow_all _ _ Hslow).
  pose proof (distinct_sources_bound _ _ Hips) as Hd. change (len slowloris_attackIPs) with 3 in Hd.
  destruct (Z.ltb_spec 100 (len requests)); [| lia].
  destruct (Z.ltb_spec (distinct_sources requests) 10); [| lia].
  rewrite udp_quiet by (by rewrite (tagged_none "HTTP" "UDP") by done).
  reflexivity.
Qed.

Lemma udp_batch_types (botnet : list string) :
  Forall (udp_record botnet) requests -> 2000 <= len requests ->
  Attack_Type <$> (AnalyzeTraffic (F := F) NewDetector requests w).1
  = "UDP_FLOOD" :: tag_if (rate_fires NewDetector (calculateMetrics requests w).1) "RATE_ANOMALY".
Proof.
  intros Hall Hlen.
  assert (Hproto : Forall (fun r => Protocol r = "UDP") requests).
  { eapply Forall_impl; [exact Hall |]. by intros r (_ & _ & _ & _ & Hp & _). }
  rewrite AnalyzeTraffic_tags by (apply len_nonempty; lia).
  rewrite seed_syn_fires, (tagged_none "UDP" "TCP_SYN") by done.
  rewrite seed_http_quiet by (by rewrite (tagged_none "UDP" "HTTP") by done).
  rewrite seed_slow_quiet.
  2:{ eapply Forall_impl; [exact Hproto |]. intros r Hr. left. by rewrite Hr. }
  unfold udp_fires. rewrite (tagged_all _ _ Hproto).
  destruct (Z.leb_spec 2000 (len requests)); [| lia].
  reflexivity.
Qed.

Lemma normal_batch_types :
  Forall normal_record requests -> requests <> [] ->
  exists http,
    Attack_Type <$> (AnalyzeTraffic (F := F) NewDetector requests w).1
    = tag_if http "HTTP_FLOOD"
      ++ tag_if (rate_fires NewDetector (calculateMetrics requests w).1) "RATE_ANOMALY".
Proof.
  intros Hall Hne.
  assert (Hproto : Forall (fun r => Protocol r = "HTTP") requests).
  { eapply Forall_impl; [exact Hall |]. by intros r (_ & _ & _ & _ & Hp & _). }
  rewrite AnalyzeTraffic_tags by done.
  rewrite seed_syn_fires, (tagged_none "HTTP" "TCP_SYN") by done.
  rewrite seed_slow_quiet.
  2:{ eapply Forall_impl; [exact Hall |].
      intros r (_ & _ & _ & _ & _ & _ & _ & _ & _ & _ & Hd). right. lia. }
  rewrite udp_quiet by (by rewrite (tagged_none "HTTP" "UDP") by done).
  eexists. reflexivity.
Qed.

End batches.

Ltac tags_solve :=
  rewrite ?elem_of_app, ?elem_of_cons, ?elem_of_tag_if, ?elem_of_nil;
  try (intuition (try discriminate; try congruence)).

(** X15: [GenerateSYNFlood] never panics.  Its batch has 1000 more records
    than the first random number it draws, taken modulo 4000, all of them
    TCP_SYN records to port 80 of 192.168.1.100 with 64 bytes, duration 0
    and one of the three attack addresses.  Analysed on its own by the seed
    detector, the batch gives a SYN_FLOOD finding exactly when it has more
    than 1000 records, so the smallest batch the simulator can build goes
    unreported; it never gives an HTTP_FLOOD, SLOWLORIS or UDP_FLOOD
    finding; and in exact arithmetic it always gives a RATE_ANOMALY
    finding. *)
Theorem GenerateSYNFlood_detected (s : Simulator) (e : Env) :
  returns (GenerateSYNFlood s) e (fun requests _ =>
    len requests = rand_src e (rand_n e) `mod` 4000 + 1000
    /\ Forall syn_record requests
    /\ (forall (F : Type) (FF : Float64 F) (w : World),
          let types := Attack_Type <$> (AnalyzeTraffic (F := F) NewDetector requests w).1 in
          ("SYN_FLOOD" ∈ types <-> 1000 < len requests)
          /\ ("HTTP_FLOOD" ∉ types) /\ ("SLOWLORIS" ∉ types) /\ ("UDP_FLOOD" ∉ types))
    /\ (forall w : World,
          Attack_Type <$> (AnalyzeTraffic (F := R) NewDetector requests w).1
          = tag_if (1000 <? len requests) "SYN_FLOOD" ++ ["RATE_ANOMALY"])).
Proof.
  eapply returns_weaken; [apply GenerateSYNFlood_returns |].
  intros requests _ [Hlen Hall]. cbv beta.
  pose proof (Z.mod_pos_bound (rand_src e (rand_n e)) 4000 ltac:(lia)) as Hk.
  split; [done |]. split; [done |]. split.
  - intros F FF w types. subst types. rewrite syn_batch_types by (done || lia).
    destruct (Z.ltb_spec 1000 (len requests)); tags_solve; lia.
  - intros w. rewrite syn_batch_types by (done || lia).
    rewrite seed_rate_fires; [done | unfold int_max; lia |].
    assert (Hips : Forall (fun r => SourceIP r ∈ syn_attackIPs) requests).
    { eapply Forall_impl; [exact Hall |]. by intros r (Hip & _). }
    pose proof (distinct_bound SourceIP _ _ Hips) as Hd.
    change (length syn_attackIPs) with 3%nat in Hd. simpl. lia.
Qed.

(** X16: [GenerateHTTPFlood] never panics.  Its batch has between 2000 and
    4999 records, all of them HTTP records for one of the two target paths,
    with a duration from 20 to 119 ms, sent from a botnet of 50 dotted-quad
    addresses.  Analysed on its own by the seed detector it never gives a
    SYN_FLOOD, SLOWLORIS or UDP_FLOOD finding, and it gives an HTTP_FLOOD
    finding exactly when the path entropy of its metrics is below 2.0, which
    in exact arithmetic it always is (two paths carry at most one bit). *)
Theorem GenerateHTTPFlood_detected (s : Simulator) (e : Env) :
  returns (GenerateHTTPFlood s) e (fun requests _ =>
    2000 <= len requests < 5000
    /\ (exists botnet, len botnet = 50 /\ Forall dotted_quad botnet
                       /\ Forall (http_flood_record botnet) requests)
    /\ (forall (F : Type) (FF : Float64 F) (w : World),
          let types := Attack_Type <$> (AnalyzeTraffic (F := F) NewDetector requests w).1 in
          ("HTTP_FLOOD" ∈ types
           <-> (PathEntropy (calculateMetrics requests w).1 <! ofInt 2) = true)
          /\ ("SYN_FLOOD" ∉ types) /\ ("SLOWLORIS" ∉ types) /\ ("UDP_FLOOD" ∉ types))
    /\ (forall w : World,
          "HTTP_FLOOD" ∈ Attack_Type <$> (AnalyzeTraffic (F := R) NewDetector requests w).1)).
Proof.
  eapply returns_weaken; [apply GenerateHTTPFlood_returns |].
  intros requests _ (Hlen & botnet & Hbots & Hquads & Hall). cbv beta.
  split; [done |]. split; [eauto |]. split.
  - intros F FF w types. subst types. rewrite (http_batch_types _ _ botnet) by (done || lia).
    destruct (PathEntropy _ <! _); tags_solve.
  - intros w. rewrite (http_batch_types _ _ botnet) by (done || lia).
    assert (Hpaths : Forall (fun r => RequestPath r ∈ flood_targetPaths) requests).
    { eapply Forall_impl; [exact Hall |]. by intros r (_ & _ & _ & _ & _ & Hp & _). }
    pose proof (distinct_bound RequestPath _ _ Hpaths) as Hd.
    change (length flood_targetPaths) with 2%nat in Hd.
    destruct (metrics_entropy_below requests w 2 ltac:(unfold int_max; lia) ltac:(lia))
      as [_ Hpath].
    specialize (Hpath ltac:(simpl; lia)).
    cbn [flt ofInt exact]. unfold Exact.ltb.
    destruct (Rlt_dec _ 2) as [_ | Hno]; [| simpl in Hpath; lra].
    tags_solve.
Qed.

(** X17: [GenerateSlowloris] never panics.  Its batch has between 200 and
    699 records, all of them HTTP records with a duration from 60000 to
    89999 ms and one of the three attack addresses.  Analysed on its own by
    the seed detector it always gives a SLOWLORIS finding and never a
    SYN_FLOOD, HTTP_FLOOD or UDP_FLOOD finding; in exact arithmetic the
    findings are SLOWLORIS and RATE_ANOMALY, in that order. *)
Theorem GenerateSlowloris_detected (s : Simulator) (e : Env) :
  returns (GenerateSlowloris s) e (fun requests _ =>
    200 <= len requests < 700
    /\ Forall slowloris_record requests
    /\ (forall (F : Type) (FF : Float64 F) (w : World),
          let types := Attack_Type <$> (AnalyzeTraffic (F := F) NewDetector requests w).1 in
          "SLOWLORIS" ∈ types
          /\ ("SYN_FLOOD" ∉ types) /\ ("HTTP_FLOOD" ∉ types) /\ ("UDP_FLOOD" ∉ types))
    /\ (forall w : World,
          Attack_Type <$> (AnalyzeTraffic (F := R) NewDetector requests w).1
          = ["SLOWLORIS"; "RATE_ANOMALY"])).
Proof.
  eapply returns_weaken; [apply GenerateSlowloris_returns |].
  intros requests _ [Hlen Hall]. cbv beta.
  split; [done |]. split; [done |]. split.
  - intros F FF w types. subst types. rewrite slowloris_batch_types by (done || lia).
    tags_solve.
  - intros w. rewrite slowloris_batch_types by (done || lia).
    rewrite seed_rate_fires; [done | unfold int_max; lia |].
    assert (Hips : Forall (fun r => SourceIP r ∈ slowloris_attackIPs) requests).
    { eapply Forall_impl; [exact Hall |]. by intros r (Hip & _). }
    pose proof (distinct_bound SourceIP _ _ Hips) as Hd.
    change (length slowloris_attackIPs) with 3%nat in Hd. simpl. lia.
Qed.

(** X18: [GenerateUDPFlood] never panics.  Its batch has between 3000 and
    7999 records, all of them UDP records of duration 0 sent from a botnet
    of 30 dotted-quad addresses.  Analysed on its own by the seed detector
    it always gives a UDP_FLOOD finding and never a SYN_FLOOD, HTTP_FLOOD or
    SLOWLORIS finding. *)
Theorem GenerateUDPFlood_detected (s : Simulator) (e : Env) :
  returns (GenerateUDPFlood s) e (fun requests _ =>
    3000 <= len requests < 8000
    /\ (exists botnet, len botnet = 30 /\ Forall dotted_quad botnet
                       /\ Forall (udp_record botnet) requests)
    /\ (forall (F : Type) (FF : Float64 F) (w : World),
          let types := Attack_Type <$> (AnalyzeTraffic (F := F) NewDetector requests w).1 in
          "UDP_FLOOD" ∈ types
          /\ ("SYN_FLOOD" ∉ types) /\ ("HTTP_FLOOD" ∉ types) /\ ("SLOWLORIS" ∉ types))).
Proof.
  eapply returns_weaken; [apply GenerateUDPFlood_returns |].
  intros requests _ (Hlen & botnet & Hbots & Hquads & Hall). cbv beta.
  split; [done |]. split; [eauto |].
  intros F FF w types. subst types. rewrite (udp_batch_types _ _ botnet) by (done || lia).
  tags_solve.
Qed.

(** X19: [GenerateNormalTraffic] never panics and returns an HTTP record
    with status 200 to port 443 of 192.168.1.100, from a dotted-quad
    address and a source port from 1024 to 65534, for one of the ten paths,
    with one of the four user agents, 100 to 1099 bytes sent, 200 to 5199
    received and a duration from 50 to 249 ms.  A batch of such records, of
    any size, never gives a SYN_FLOOD, SLOWLORIS or UDP_FLOOD finding under
    the seed detector, and no HTTP_FLOOD finding either while it has fewer
    than 2000 records. *)
Theorem GenerateNormalTraffic_quiet :
  (forall (s : Simulator) (e : Env),
     returns (GenerateNormalTraffic s) e (fun r _ => normal_record r))
  /\ (forall (F : Type) (FF : Float64 F) (requests : list TrafficRequest) (w : World),
        Forall normal_record requests ->
        let types := Attack_Type <$> (AnalyzeTraffic (F := F) NewDetector requests w).1 in
        ("SYN_FLOOD" ∉ types) /\ ("SLOWLORIS" ∉ types) /\ ("UDP_FLOOD" ∉ types)
        /\ (len requests < 2000 -> "HTTP_FLOOD" ∉ types)).
Proof.
  split; [apply GenerateNormalTraffic_returns |].
  intros F FF requests w Hall types. subst types.
  destruct (decide (requests = [])) as [-> | Hne].
  { cbn. repeat split; try (by intros ?%elem_of_nil). by intros _ ?%elem_of_nil. }
  assert (Hhttp : len requests < 2000 ->
            "HTTP_FLOOD" ∉ Attack_Type <$> (AnalyzeTraffic (F := F) NewDetector requests w).1).
  { intros Hlen. rewrite AnalyzeTraffic_tags by done.
    rewrite seed_http_quiet by (pose proof (tagged_len "HTTP" requests); lia).
    tags_solve. }
  destruct (normal_batch_types requests w Hall Hne) as [http Htypes].
  split; [| split; [| split; [| exact Hhttp]]]; rewrite Htypes; tags_solve.
Qed.

(** [GenerateNormalTraffic_quiet] on a batch of one normal record. *)
Lemma GenerateNormalTraffic_quiet_witness :
  Forall normal_record [a_normal_record]
  /\ "SYN_FLOOD" ∉ Attack_Type <$> (AnalyzeTraffic (F := float) NewDetector [a_normal_record]
                                      Examples.w0).1.
Proof.
  assert (Hall : Forall normal_record [a_normal_record]).
  { constructor; [| constructor]. unfold normal_record, a_normal_record.
    cbn [SourceIP DestIP SourcePort DestPort Protocol RequestPath UserAgent BytesSent
         BytesRecv StatusCode Duration].
    split; [exists 10, 20, 30, 40; repeat split; lia |].
    repeat split; try done; try lia.
    - apply (bool_decide_unpack _). vm_compute. exact I.
    - apply (bool_decide_unpack _). vm_compute. exact I. }
  split; [exact Hall |].
  exact (proj1 (proj2 GenerateNormalTraffic_quiet float binary64 [a_normal_record]
                  Examples.w0 Hall)).
Defined.

(** X20: [generateBotnet] of a size that is not negative never panics and
    returns that many addresses, each of them four numbers from 0 to 255
    joined by dots; of a negative size it panics. *)
Theorem generateBotnet_spec (size : Z) (e : Env) :
  (0 <= size ->
   returns (generateBotnet size) e (fun ips _ => len ips = size /\ Forall dotted_quad ips))
  /\ (size < 0 -> generateBotnet size e = None).
Proof.
  split.
  - apply generateBotnet_returns.
  - intros Hneg. unfold generateBotnet. by destruct (Z.ltb_spec size 0); [| lia].
Qed.

(** [generateBotnet_spec] for two addresses. *)
Lemma generateBotnet_spec_witness :
  0 <= 2
  /\ returns (generateBotnet 2) counting_env
       (fun ips _ => len ips = 2 /\ Forall dotted_quad ips).
Proof.
  assert (Hsize : 0 <= 2) by lia.
  split; [exact Hsize |].
  exact (proj1 (generateBotnet_spec 2 counting_env) Hsize).
Defined.

(** ** The attack cycle of [Run] *)

Lemma returns_at_index_eq {A} (s : list A) (i : Z) (e : Env) :
  0 <= i < len s ->
  returns (at_index s i) e (fun x e' => s !! Z.to_nat i = Some x /\ e' = e).
Proof.
  intros Hi. unfold at_index, len in *. destruct (Z.ltb_spec i 0); [lia |].
  destruct (lookup_lt_is_Some_2 s (Z.to_nat i)) as [x Hx]; [lia |].
  rewrite Hx. by apply returns_ret.
Qed.

Lemma even_half (k : Z) :
  (Z.even k = true -> (k + 1) / 2 = k / 2)
  /\ (Z.even k = false -> (k + 1) / 2 = k / 2 + 1).
Proof.
  split; intros Hk.
  - apply Z.even_spec in Hk as [m ->]. Z.div_mod_to_equations. lia.
  - rewrite <- Z.negb_odd in Hk. apply negb_false_iff, Z.odd_spec in Hk as [m ->].
    Z.div_mod_to_equations. lia.
Qed.

Lemma Run_attackTick_cycle (s : Simulator) (k : Z) (st : RunState) (e : Env) :
  0 <= k -> cycle_state s k st ->
  returns (Run_attackTick st) e (fun st' e' => e' = e /\ cycle_state s (k + 1) st').
Proof.
  intros Hk (Hact & Hidx & Htype & Hurl & Hrate). unfold Run_attackTick. cbv zeta.
  destruct (even_half k) as [Heven Hodd].
  assert (Hsucc : Z.even (k + 1) = negb (Z.even k)).
  { change (k + 1) with (Z.succ k). by rewrite Z.even_succ, <- Z.negb_even. }
  destruct (attackActive (sim st)) eqn:Ha.
  - apply returns_ret. split; [done |]. unfold cycle_state.
    cbn [sim attackActive attackType currentAttackIndex serverURL normalRate].
    rewrite Hsucc, <- Hact, Heven by done. done.
  - set (idx := Z.rem _ _).
    assert (Hnext : idx = ((k + 1) / 2) `mod` 4).
    { subst idx. rewrite Hidx, Hodd by done. change (len attackSequence) with 4.
      rewrite Z.rem_mod_nonneg by (Z.div_mod_to_equations; lia).
      Z.div_mod_to_equations. lia. }
    eapply returns_bind.
    + apply returns_at_index_eq. rewrite Hnext. change (len attackSequence) with 4.
      Z.div_mod_to_equations. lia.
    + intros next e' [Hlook ->]. apply returns_ret. split; [done |]. unfold cycle_state.
      cbn [sim attackActive attackType currentAttackIndex serverURL normalRate].
      rewrite Hsucc, <- Hact. rewrite Hnext in Hlook. done.
Qed.

Lemma attackTicks_cycle (s : Simulator) (n : nat) (k : Z) (st : RunState) (e : Env) :
  0 <= k -> cycle_state s k st ->
  returns (attackTicks n st) e (fun st' e' => e' = e /\ cycle_state s (k + Z.of_nat n) st').
Proof.
  revert k st. induction n as [|n IH]; intros k st Hk Hst.
  - apply returns_ret. by rewrite Z.add_0_r.
  - cbn [attackTicks]. eapply returns_bind; [by apply Run_attackTick_cycle |].
    intros st' e' [-> Hst'].
    replace (k + Z.of_nat (S n)) with (k + 1 + Z.of_nat n) by lia. apply IH; [lia | done].
Qed.

(** X21: the attack ticks of [Run] never panic and do not touch the
    environment.  After [k] of them, counted from the start of [Run], an
    attack is running exactly when [k] is even; the index into the attack
    sequence is k/2 modulo 4 and the attack type is the entry of the
    sequence at that index (HTTP_FLOOD, SYN_FLOOD, SLOWLORIS, UDP_FLOOD,
    round and round, HTTP_FLOOD first); the server URL and the normal rate
    are as they were. *)
Theorem Run_attack_cycle (s : Simulator) (k : nat) (e : Env) :
  returns (st ← Run_start s; attackTicks k st) e
    (fun st e' => e' = e /\ cycle_state s (Z.of_nat k) st).
Proof.
  unfold Run_start. eapply returns_bind.
  - eapply returns_bind; [apply (returns_at_index_eq attackSequence 0); by vm_compute |].
    intros first e' [Hfirst ->]. apply returns_ret.
    instantiate (1 := fun st e' => e' = e /\ cycle_state s 0 st). split; [done |].
    unfold cycle_state. by cbn.
  - intros st e' [-> Hst]. by apply (attackTicks_cycle s k 0).
Qed.

(** ** One second of [Run] *)

(** X22: one tick of [Run] never panics.  It hands to [SendTraffic] as many
    normal records as the normal rate says (none for a negative rate),
    followed, when an attack is running, by the batch of the generator of
    the running attack type (nothing for a type outside the sequence), and
    by nothing when no attack is running. *)
Theorem Run_tick_sends (st : RunState) (e : Env) :
  returns (Run_tick st) e (fun sent _ =>
    exists normal attack,
      sent = normal ++ attack
      /\ len normal = Z.max 0 (normalRate (sim st))
      /\ Forall normal_record normal
      /\ if attackActive (sim st) then attack_batch (attackType (sim st)) attack
         else attack = []).
Proof.
  unfold Run_tick. cbv zeta.
  eapply returns_bind.
  - instantiate (1 := fun normal _ =>
      len normal = Z.max 0 (normalRate (sim st)) /\ Forall normal_record normal).
    destruct (Z.le_gt_cases 0 (normalRate (sim st))) as [Hpos | Hneg].
    + rewrite Z.max_r by done. apply returns_append; [done |].
      intros e0. apply GenerateNormalTraffic_returns.
    + unfold for_to. rewrite Z2Nat.nonpos by lia. cbn [for_loop]. apply returns_ret.
      split; [unfold len; simpl; lia | constructor].
  - intros normal e1 [Hlen Hall]. destruct (attackActive (sim st)).
    2:{ apply returns_ret. exists normal, []. by rewrite app_nil_r. }
    eapply returns_bind.
    + instantiate (1 := fun attack _ => attack_batch (attackType (sim st)) attack).
      unfold attack_batch.
      destruct (decide (attackType (sim st) = "SYN_FLOOD")) as [Ht | Hsyn].
      { eapply returns_weaken; [apply GenerateSYNFlood_returns |].
        intros l _ [Hl Hrec]. left.
        pose proof (Z.mod_pos_bound (rand_src e1 (rand_n e1)) 4000 ltac:(lia)).
        repeat split; try done; lia. }
      destruct (decide (attackType (sim st) = "HTTP_FLOOD")) as [Ht | Hhttp].
      { eapply returns_weaken; [apply GenerateHTTPFlood_returns |].
        intros l _ (Hl & botnet & Hb & _ & Hrec). right. left. eauto 10. }
      destruct (decide (attackType (sim st) = "SLOWLORIS")) as [Ht | Hslow].
      { eapply returns_weaken; [apply GenerateSlowloris_returns |].
        intros l _ [Hl Hrec]. right. right. left. eauto. }
      destruct (decide (attackType (sim st) = "UDP_FLOOD")) as [Ht | Hudp].
      { eapply returns_weaken; [apply GenerateUDPFlood_returns |].
        intros l _ (Hl & botnet & Hb & _ & Hrec). right. right. right. left. eauto 10. }
      apply returns_ret. do 4 right. split; [| done].
      unfold attackSequence. set_solver.
    + intros attack e2 Hattack. apply returns_ret. eauto 10.
Qed.

(** ** The metrics of a minute *)

Section replies.

Context {F : Type} `{Float64 F}.

Lemma topIPs_loop (l : list (storage.redis_Z F)) (acc : list (storage.IPCount F)) (a : Z) :
  string_members l ->
  foldl storage.topIPs_step (Some (acc, wrap64 a)) l
  = Some (acc ++ ((fun z => {| storage.IP := member_string z;
                               storage.IPCount_Count := toInt (storage.Score z);
                               storage.Percentage := ofInt 0 |}) <$> l),
          wrap64 (a + sumZ (reply_counts l))).
Proof.
  intros Hl. revert acc a. induction Hl as [|z l [s Hs] Hl IH]; intros acc a.
  - cbn. by rewrite app_nil_r, Z.add_0_r.
  - cbn [foldl storage.topIPs_step]. rewrite Hs, wrap64_add_l, IH.
    unfold reply_counts. rewrite !fmap_cons. cbn [sumZ foldr].
    replace (member_string z) with s by (unfold member_string; by rewrite Hs).
    rewrite <- app_assoc. cbn [app]. f_equal. f_equal. f_equal. unfold sumZ. lia.
Qed.

Lemma topIPs_loop_panics (l : list (storage.redis_Z F)) :
  ~ string_members l -> forall acc, foldl storage.topIPs_step acc l = None.
Proof.
  induction l as [|z l IH]; intros Hno acc; [by destruct Hno; constructor |].
  assert (Hnone : forall l', foldl (storage.topIPs_step (F := F)) None l' = None).
  { intros l'. induction l' as [|z' l' IH']; [done | by cbn]. }
  cbn [foldl]. destruct acc as [[topIPs total]|]; [| by rewrite Hnone].
  cbn [storage.topIPs_step]. destruct (storage.Member z) as [s|] eqn:Hz; [| by rewrite Hnone].
  apply IH. intros Hl. apply Hno. constructor; [eauto | done].
Qed.

Lemma topPaths_loop (l : list (storage.redis_Z F)) (acc : list storage.PathCount) :
  string_members l ->
  foldl storage.topPaths_step (Some acc) l
  = Some (acc ++ ((fun z => {| storage.Path := member_string z;
                               storage.PathCount_Count := toInt (storage.Score z) |}) <$> l)).
Proof.
  intros Hl. revert acc. induction Hl as [|z l [s Hs] Hl IH]; intros acc.
  - cbn. by rewrite app_nil_r.
  - cbn [foldl storage.topPaths_step]. rewrite Hs, IH. rewrite fmap_cons.
    replace (member_string z) with s by (unfold member_string; by rewrite Hs).
    by rewrite <- app_assoc.
Qed.

Lemma topPaths_loop_panics (l : list (storage.redis_Z F)) :
  ~ string_members l -> forall acc, foldl storage.topPaths_step acc l = None.
Proof.
  induction l as [|z l IH]; intros Hno acc; [by destruct Hno; constructor |].
  assert (Hnone : forall l', foldl (storage.topPaths_step (F := F)) None l' = None).
  { intros l'. induction l' as [|z' l' IH']; [done | by cbn]. }
  cbn [foldl]. destruct acc as [topPaths|]; [| by rewrite Hnone].
  cbn [storage.topPaths_step]. destruct (storage.Member z) as [s|] eqn:Hz; [| by rewrite Hnone].
  apply IH. intros Hl. apply Hno. constructor; [eauto | done].
Qed.

(** Whether every member of a reply is a string can be decided. *)
Lemma string_members_dec (l : list (storage.redis_Z F)) :
  {string_members l} + {~ string_members l}.
Proof.
  apply Forall_dec. intros z. destruct (storage.Member z) as [s|]; [left; eauto |].
  right. by intros [s Hs].
Qed.

(** What [GetMetrics] does with replies that hold a minute. *)
Lemma GetMetrics_held (r : storage.Redis F) (t : Z) :
  (hash_reply r t).2 = None -> size (hash_reply r t).1 <> 0%nat ->
  storage.GetMetrics r t
  = if string_members_dec (ips_reply r t)
    then if string_members_dec (paths_reply r t)
         then storage.Returns (metrics_of r t)
         else storage.Panics
    else storage.Panics.
Proof.
  intros Herr Hsize. unfold storage.GetMetrics. cbv zeta.
  fold (metrics_key t). unfold hash_reply in Herr, Hsize.
  destruct (storage.HGetAll r (metrics_key t)) as [metricsData err].
  cbn [fst snd] in Herr, Hsize. subst err.
  destruct (Z.eqb_spec (len_map metricsData) 0) as [E | _]; [unfold len_map in E; lia |].
  unfold metrics_of, unique_reply, ips_reply, paths_reply.
  destruct (storage.PFCount r _) as [uniqueIPs err].
  destruct (storage.ZRevRangeWithScores r (metrics_key t +:+ ":ip_counts") 0 9)
    as [topIPsData err1].
  destruct (storage.ZRevRangeWithScores r (metrics_key t +:+ ":path_counts") 0 9)
    as [topPathsData err2].
  cbn [fst snd].
  destruct (string_members_dec topIPsData) as [Hips | Hips];
    [| by rewrite topIPs_loop_panics].
  change 0 with (wrap64 0) at 1. rewrite (topIPs_loop _ _ _ Hips).
  rewrite Z.add_0_l. cbn [app].
  destruct (string_members_dec topPathsData) as [Hpaths | Hpaths];
    [| by rewrite topPaths_loop_panics].
  rewrite (topPaths_loop _ _ Hpaths). cbn [app].
  f_equal. f_equal. rewrite <- list_fmap_compose. apply list_fmap_ext. by intros i z _.
Qed.

End replies.

(** X23: what [GetMetrics] does, by the replies of the server.  It fails
    with the error of [HGetAll] when there is one, and with "no metrics
    found for timestamp" and the minute when the hash of the minute is
    empty.  Otherwise it panics when a member of one of the two ranked
    replies is not a string, and else returns metrics: an error of
    [PFCount] only makes the number of distinct addresses 0, and errors of
    the ranked replies are not looked at.  The metrics hold the time as
    given, a window of 60 seconds, as total the sum (wrapped to 64 bits) of
    the counts of the ranked addresses of the reply, not a field of the
    hash, whose content is never read; that total over 60 as requests per
    second; one entry per ranked address and per ranked path with its
    count [int(score)]; and nothing for the bytes per second, the two
    entropies, the average duration and the two breakdown maps. *)
Theorem GetMetrics_outcome {F} `{Float64 F} (r : storage.Redis F) (t : Z) :
  match storage.GetMetrics r t with
  | storage.Fails err =>
      (hash_reply r t).2 = Some err
      \/ ((hash_reply r t).2 = None /\ (hash_reply r t).1 = ∅
          /\ err = "no metrics found for timestamp " +:+ pretty (storage.minute_of t))
  | storage.Panics =>
      (hash_reply r t).2 = None /\ (hash_reply r t).1 <> ∅
      /\ ~ (string_members (ips_reply r t) /\ string_members (paths_reply r t))
  | storage.Returns m =>
      (hash_reply r t).2 = None /\ (hash_reply r t).1 <> ∅
      /\ string_members (ips_reply r t) /\ string_members (paths_reply r t)
      /\ m = metrics_of r t
  end.
Proof.
  destruct (hash_reply r t) as [metricsData err] eqn:Hhash.
  destruct err as [err|].
  - unfold storage.GetMetrics. cbv zeta. fold (metrics_key t).
    unfold hash_reply in Hhash. rewrite Hhash. by left.
  - destruct (decide (metricsData = ∅)) as [-> | Hne].
    + unfold storage.GetMetrics. cbv zeta. fold (metrics_key t).
      unfold hash_reply in Hhash. rewrite Hhash. cbn. by right.
    + assert (Hsize : size metricsData <> 0%nat) by (by intros ?%map_size_empty_inv).
      rewrite GetMetrics_held by (by rewrite Hhash).
      destruct (string_members_dec (ips_reply r t)) as [Hips | Hips];
        [destruct (string_members_dec (paths_reply r t)) as [Hpaths | Hpaths] |];
        cbn [fst snd]; repeat split; try done; by intros [? ?].
Qed.

(** ** The shares of the addresses *)

Lemma exact_to_int_IZR (k : Z) : Exact.to_int (IZR k) = k.
Proof.
  unfold Exact.to_int. destruct (Rle_dec 0 (IZR k)) as [Hpos | Hneg].
  - symmetry. apply Int_part_spec. lra.
  - assert (Hi : - k = Int_part (- IZR k)).
    { apply Int_part_spec. rewrite opp_IZR. lra. }
    rewrite <- Hi. lia.
Qed.

Lemma percentages_sum (total : R) (l : list Z) :
  total <> 0%R ->
  sumR ((fun c => IZR c / total * 100)%R <$> l) = (IZR (sumZ l) / total * 100)%R.
Proof.
  intros Ht. induction l as [|c l IH].
  - simpl. unfold Rdiv. by rewrite !Rmult_0_l.
  - rewrite fmap_cons. cbn [sumR sumZ foldr]. fold (sumZ l).
    fold (sumR ((fun c => IZR c / total * 100)%R <$> l)).
    rewrite IH, plus_IZR. field. done.
Qed.

Lemma GetMetrics_returns {F} `{Float64 F} (r : storage.Redis F) (t : Z)
    (m : storage.Metrics F) :
  storage.GetMetrics r t = storage.Returns m -> m = metrics_of r t.
Proof.
  intros Hm.
  destruct (hash_reply r t) as [metricsData err] eqn:Hhash.
  assert (Hheld : err = None /\ size metricsData <> 0%nat).
  { unfold storage.GetMetrics in Hm. cbv zeta in Hm. fold (metrics_key t) in Hm.
    unfold hash_reply in Hhash. rewrite Hhash in Hm.
    destruct err; [discriminate |]. split; [done |]. intros Hsize.
    unfold len_map in Hm. rewrite Hsize in Hm. discriminate. }
  destruct Hheld as [-> Hsize].
  rewrite GetMetrics_held in Hm by (by rewrite Hhash).
  destruct (string_members_dec _); [| discriminate].
  destruct (string_members_dec _); [| discriminate].
  by injection Hm.
Qed.

(** X24: in exact arithmetic, when [GetMetrics] returns metrics and the
    counts of the ranked addresses have a sum that is an int and is not 0,
    the total of the metrics is that sum, the entries carry these counts in
    the order of the reply, and their percentages add up to 100. *)
Theorem GetMetrics_percentages (r : storage.Redis R) (t : Z) (m : storage.Metrics R) :
  let counts := reply_counts (ips_reply r t) in
  storage.GetMetrics r t = storage.Returns m ->
  in_int (sumZ counts) -> sumZ counts <> 0 ->
  storage.Metrics_TotalRequests m = sumZ counts
  /\ storage.IPCount_Count <$> storage.TopIPs m = counts
  /\ sumR (storage.Percentage <$> storage.TopIPs m) = 100%R.
Proof.
  intros counts Hm Hint Hne. apply GetMetrics_returns in Hm. subst m.
  unfold metrics_of. cbn [storage.Metrics_TotalRequests storage.TopIPs]. fold counts.
  rewrite wrap64_id by done.
  split; [done |]. split.
  - rewrite <- list_fmap_compose. done.
  - assert (HT : IZR (sumZ counts) <> 0%R) by (by apply not_0_IZR).
    rewrite <- list_fmap_compose.
    transitivity (sumR ((fun c => IZR c / IZR (sumZ counts) * 100)%R <$> counts)).
    + unfold counts, reply_counts. by rewrite <- list_fmap_compose.
    + rewrite percentages_sum by done. field. done.
Qed.

(** [GetMetrics_percentages] on a minute with two addresses, of three and
    one requests: 75 and 25 per cent. *)
Lemma GetMetrics_percentages_witness :
  storage.GetMetrics two_addresses 0 = storage.Returns (metrics_of two_addresses 0)
  /\ in_int (sumZ (reply_counts (ips_reply two_addresses 0)))
  /\ sumZ (reply_counts (ips_reply two_addresses 0)) <> 0
  /\ sumR (storage.Percentage <$> storage.TopIPs (metrics_of two_addresses 0)) = 100%R.
Proof.
  assert (Hips : string_members (ips_reply two_addresses 0)).
  { repeat constructor; eexists; reflexivity. }
  assert (Hm : storage.GetMetrics two_addresses 0
               = storage.Returns (metrics_of two_addresses 0)).
  { rewrite GetMetrics_held; [| done | by cbn; rewrite map_size_singleton].
    destruct (string_members_dec (ips_reply two_addresses 0)) as [_ | Hno]; [| done].
    destruct (string_members_dec (paths_reply two_addresses 0)) as [_ | Hno]; [done | done]. }
  assert (Hsum : sumZ (reply_counts (ips_reply two_addresses 0)) = 4).
  { unfold reply_counts, ips_reply. cbn [two_addresses storage.ZRevRangeWithScores fst fmap
      list_fmap storage.Score toInt exact sumZ foldr].
    by rewrite !exact_to_int_IZR. }
  assert (Hint : in_int (sumZ (reply_counts (ips_reply two_addresses 0)))).
  { rewrite Hsum. unfold in_int, int_min, int_max. lia. }
  assert (Hne : sumZ (reply_counts (ips_reply two_addresses 0)) <> 0) by (rewrite Hsum; lia).
  split; [exact Hm |]. split; [exact Hint |]. split; [exact Hne |].
  exact (proj2 (proj2 (GetMetrics_percentages two_addresses 0 _ Hm Hint Hne))).
Defined.
